(** * Cooperation simulator (convex/simulation): a shallow embedding

    The day-stepped cooperation simulator of [convex/simulation/*.ts] is
    embedded function by function.  Conventions of the embedding:

    - a JavaScript [number] is an exact rational ([Q]); the 32-bit state of
      the random generator is a [Z] with the wrap-around of [| 0], [>>> 0]
      and [Math.imul] written out.  The generator's output [u / 2^32], the
      shuffle index [floor(u * (i+1))] and the resume seed [floor(u * 1e9)]
      are exact in IEEE doubles as well, so the random stream is modelled
      bit for bit; the remaining arithmetic is idealised (no rounding, no
      NaN or Infinity; the code guards its divisions, and the one by
      [seasonLengthDays] is treated apart in [tick]);
    - the built-ins whose result the language leaves to the engine
      ([Math.sqrt], [Math.log], [Math.cos], [Math.exp], [Math.pow],
      number formatting) are the fields of a [Platform] record that every
      function takes; theorems hold for every platform, and the module
      [Ref] gives one platform to run the simulation on concrete inputs;
    - a JS object used as a record keyed by strings, a [Map] and a [Set] are
      association lists in insertion order, with the operations the code
      uses ([rec_set], [map_set], [map_delete], [set_add], ...).  An object
      enumerates keys that are array indices first, so the order of a
      record is the code's only for other keys (such as the ids [agent_N]
      of a run); lookups ([rec_get]) do not depend on it.  Text is ASCII;
    - a number that only counts ([agentPopulation.size]) is a [nat], and a
      seed is an integer;
    - mutation is explicit state passing; a thrown exception and an
      exhausted loop budget are the two failures of the [Res] monad;
    - the process environment and the HTTP endpoints of the LLM adapters are
      a [World] record. *)

From Stdlib Require Import ZArith QArith Qround Lia Lqa Bool String Ascii List.
From Stdlib Require Import DecimalString DecimalNat Permutation.
Import ListNotations.
Open Scope string_scope.
Open Scope list_scope.
Open Scope Z_scope.
Open Scope Q_scope.

Set Implicit Arguments.

(** ** Results of effectful code *)

Inductive Res (A : Type) : Type :=
| Ok (a : A)
| Throw (msg : string)
| OutOfFuel.
Arguments Ok {A} a.
Arguments Throw {A} msg.
Arguments OutOfFuel {A}.

Definition bind {A B : Type} (m : Res A) (k : A -> Res B) : Res B :=
  match m with
  | Ok a => k a
  | Throw msg => Throw msg
  | OutOfFuel => OutOfFuel
  end.

Notation "x <- m ;; k" := (bind m (fun x => k))
  (at level 61, m at next level, right associativity).
Notation "' pat <- m ;; k" := (bind m (fun x => match x with pat => k end))
  (at level 61, pat pattern, m at next level, right associativity).

(** ** Numbers *)

Definition Qltb (a b : Q) : bool := (Qnum a * QDen b <? Qnum b * QDen a)%Z.
Definition Qleb (a b : Q) : bool := (Qnum a * QDen b <=? Qnum b * QDen a)%Z.
Definition Qeqb (a b : Q) : bool := (Qnum a * QDen b =? Qnum b * QDen a)%Z.

(** [Math.max], [Math.min], [Math.floor] *)
Definition Math_max (a b : Q) : Q := if Qltb a b then b else a.
Definition Math_min (a b : Q) : Q := if Qltb b a then b else a.
Definition Math_floor (a : Q) : Z := Qfloor a.

(** A number in a boolean position is false when it is zero. *)
Definition truthy (a : Q) : bool := negb (Qeqb a 0).

Definition ofZ (z : Z) : Q := inject_Z z.
Definition ofNat (n : nat) : Q := inject_Z (Z.of_nat n).

(** The remainder [a % b] of two numbers (sign of the dividend). *)
Definition Qtrunc (a : Q) : Z := if Qltb a 0 then Qceiling a else Qfloor a.
Definition Qrem (a b : Q) : Q := a - b * ofZ (Qtrunc (a / b)).

(** ** Records, maps and sets with string keys, in insertion order *)

Section Containers.
Variable V : Type.

(** [obj[k]] *)
Fixpoint rec_get (r : list (string * V)) (k : string) : option V :=
  match r with
  | [] => None
  | (k', v) :: r' => if String.eqb k' k then Some v else rec_get r' k
  end.

(** [obj[k] = v] *)
Fixpoint rec_set (r : list (string * V)) (k : string) (v : V) : list (string * V) :=
  match r with
  | [] => [(k, v)]
  | (k', v') :: r' =>
      if String.eqb k' k then (k', v) :: r' else (k', v') :: rec_set r' k v
  end.

(** [Object.fromEntries(pairs)] *)
Definition fromEntries (pairs : list (string * V)) : list (string * V) :=
  fold_left (fun r kv => rec_set r (fst kv) (snd kv)) pairs [].

(** [Map.prototype.get / set / delete / has] *)
Definition map_get := rec_get.
Definition map_set := rec_set.
Definition map_delete (m : list (string * V)) (k : string) : list (string * V) :=
  filter (fun kv => negb (String.eqb (fst kv) k)) m.
Definition map_has (m : list (string * V)) (k : string) : bool :=
  match rec_get m k with Some _ => true | None => false end.
End Containers.

(** [Set<string>] *)
Definition set_has (s : list string) (k : string) : bool := existsb (String.eqb k) s.
Definition set_add (s : list string) (k : string) : list string :=
  if set_has s k then s else s ++ [k].
Definition set_delete (s : list string) (k : string) : list string :=
  filter (fun x => negb (String.eqb x k)) s.
Definition set_of_list (l : list string) : list string := fold_left set_add l [].
Definition set_size (s : list string) : nat := length s.

(** ** Strings *)

Definition string_of_nat (n : nat) : string := NilEmpty.string_of_uint (Nat.to_uint n).

Definition lower_ascii (c : ascii) : ascii :=
  let n := nat_of_ascii c in
  if (andb (65 <=? n) (n <=? 90))%nat then ascii_of_nat (n + 32) else c.

(** [String.prototype.toLowerCase], on ASCII text *)
Fixpoint toLowerCase (s : string) : string :=
  match s with
  | EmptyString => EmptyString
  | String c s' => String (lower_ascii c) (toLowerCase s')
  end.

(** [String.prototype.includes] *)
Fixpoint includes (s sub : string) : bool :=
  if String.prefix sub s then true
  else match s with
       | EmptyString => false
       | String _ s' => includes s' sub
       end.

Fixpoint join (sep : string) (l : list string) : string :=
  match l with
  | [] => ""
  | [x] => x
  | x :: l' => (x ++ sep ++ join sep l')%string
  end.

(** [Array.prototype.sort] with a comparator: a stable insertion sort. *)
Section Sort.
Variable A : Type.
Variable cmp : A -> A -> Q.

Fixpoint sort_insert (x : A) (l : list A) : list A :=
  match l with
  | [] => [x]
  | y :: l' => if Qltb (cmp x y) 0 then x :: y :: l' else y :: sort_insert x l'
  end.

Definition sort (l : list A) : list A :=
  fold_left (fun acc x => sort_insert x acc) l [].
End Sort.

(** ** random.ts : the seeded generator *)

Definition ToInt32 (x : Z) : Z := ((x + 2147483648) mod 4294967296 - 2147483648)%Z.
Definition ToUint32 (x : Z) : Z := (x mod 4294967296)%Z.

(** [Math.imul(a, b)], [a >>> n] *)
Definition imul (a b : Z) : Z := ToInt32 (a * b).
Definition ushr (a : Z) (n : Z) : Z := Z.shiftr (ToUint32 a) n.

Record SeededRandom : Type := { state : Z }.

(** [new SeededRandom(seed)] : [this.state = seed >>> 0] *)
Definition SeededRandom_new (seed : Z) : SeededRandom := {| state := ToUint32 seed |}.

(** The 32-bit word [(t ^ (t >>> 14)) >>> 0] that [next] divides by 2^32. *)
Definition next_state (s : Z) : Z := ToInt32 (ToInt32 s + 1831565813).
Definition next_word (s : Z) : Z :=
  let st := next_state s in
  let t := imul (Z.lxor st (ushr st 15)) (Z.lor 1 st) in
  let t := Z.lxor (ToInt32 (t + imul (Z.lxor t (ushr t 7)) (Z.lor 61 t))) t in
  ToUint32 (Z.lxor t (ushr t 14)).

Definition next (rng : SeededRandom) : Q * SeededRandom :=
  (ofZ (next_word (state rng)) / 4294967296, {| state := next_state (state rng) |}).

Definition integer (rng : SeededRandom) (max : Q) : Z * SeededRandom :=
  let '(u, rng) := next rng in (Math_floor (u * max), rng).

(** [range]: the exact value of [min + (max - min) * u]; the code's double
    is this value rounded, which stays within [min, max] but can reach
    [max]. *)
Definition range (rng : SeededRandom) (min max : Q) : Q * SeededRandom :=
  let '(u, rng) := next rng in (min + (max - min) * u, rng).

Definition pick {T : Type} (rng : SeededRandom) (items : list T) : Res (T * SeededRandom) :=
  match items with
  | [] => Throw "Cannot pick from empty list"
  | _ =>
      let '(i, rng) := integer rng (ofNat (length items)) in
      match nth_error items (Z.to_nat i) with
      | Some x => Ok (x, rng)
      | None => Throw "undefined"
      end
  end.

(** [Math.floor(this.rng.next() * 1_000_000_000)] *)
Definition drawSeed (rng : SeededRandom) : Z * SeededRandom :=
  let '(u, rng) := next rng in (Math_floor (u * 1000000000), rng).

(** ** Engine built-ins

    [Math.sqrt], [Math.log], [Math.cos], [Math.exp] and [Math.pow] return
    engine-chosen approximations; [numberToString] is the conversion a
    template literal applies to a number and [toFixed] is
    [Number.prototype.toFixed]. *)

Record Platform : Type := {
  Math_sqrt : Q -> Q;
  Math_log : Q -> Q;
  Math_cos : Q -> Q;
  Math_exp : Q -> Q;
  Math_pow : Q -> Q -> Q;
  Math_PI : Q;
  numberToString : Q -> string;
  toFixed : Q -> nat -> string
}.

(** ** types.ts *)

Inductive SeasonName : Type := spring | summer | autumn | winter.

Definition SeasonName_eqb (a b : SeasonName) : bool :=
  match a, b with
  | spring, spring | summer, summer | autumn, autumn | winter, winter => true
  | _, _ => false
  end.

Definition SeasonName_string (s : SeasonName) : string :=
  match s with
  | spring => "spring" | summer => "summer" | autumn => "autumn" | winter => "winter"
  end.

Record ScenarioSeason : Type := {
  season_name : SeasonName;
  resourceMultiplier : Q;
  climateNoise : Q
}.

Record ScenarioResources : Type := {
  basePlantRate : Q;
  baseSmallGameRate : Q;
  baseLargeGameRate : Q;
  poissonGamma_shape : Q;
  poissonGamma_scale : Q;
  logGaussian : option (Q * Q);                     (* mean, variance *)
  seasonalLargeGameBonus : list (SeasonName * Q)
}.

Record HazardRates : Type := { injury : Q; hypothermia : Q; predator : Q }.

Record PartialHazardRates : Type := {
  p_injury : option Q; p_hypothermia : option Q; p_predator : option Q
}.

(** [seasonal] is optional ([seasonal?:]): [None] is an absent table. *)
Record ScenarioHazards : Type := {
  hazards_base : HazardRates;
  hazards_seasonal : option (list (SeasonName * PartialHazardRates))
}.

Inductive TaskNormRule : Type :=
| equal_share | proportional_skill | key_contributor_reward | collective_penalty.

Inductive TaskCategory : Type := foraging | hunting | public_good.

Record ScenarioTask : Type := {
  task_id : string;
  task_name : string;
  category : TaskCategory;
  successProbability : Q;
  yieldPerParticipant : option Q;
  yieldPerParticipantOnSuccess : option Q;
  energyCost : Q;
  injuryRiskMultiplier : Q;
  minParticipants : Q;
  recommendedParticipants : Q;
  norm : TaskNormRule
}.

Record SocialPreferences : Type := {
  alphaMean : Q; alphaStd : Q; betaMean : Q; betaStd : Q;
  sp_reputationWeight : Q; sp_normPenalty : Q
}.

Record ScenarioAgentPopulation : Type := {
  size : nat;
  skillProfiles : list (string * (Q * Q));          (* name -> mean, std *)
  socialPreferences : SocialPreferences
}.

Record ScenarioCognition : Type := {
  socialMemoryHorizonDays : Q;
  episodicWindowDays : Q;
  reflectionIntervalDays : Q;
  emotion_decay : Q;
  baselineValence : Q;
  baselineArousal : Q
}.

Record ScenarioLogging : Type := {
  eventLog : bool; taskLog : bool; networkLog : bool; causalGraph : bool
}.

Record ScenarioConfig : Type := {
  config_name : string;
  displayName : string;
  seasonLengthDays : Q;                             (* timeline.seasonLengthDays *)
  seasons : list ScenarioSeason;
  resources : ScenarioResources;
  hazards : ScenarioHazards;
  tasks : list ScenarioTask;
  agentPopulation : ScenarioAgentPopulation;
  cognition : ScenarioCognition;
  network_decay : Q;                                (* network.decay *)
  logging : ScenarioLogging;
  planTemplate : string;                            (* llm.planTemplate *)
  dailyEnergyNeed : Q                               (* defaults.dailyEnergyNeed *)
}.

Record EmotionState : Type := { valence : Q; arousal : Q; mood : Q }.

Record SocialMemoryEntry : Type := {
  partnerId : string;
  lastInteractionDay : Q;
  reciprocity : Q;
  resourcesGiven : Q;
  resourcesReceived : Q;
  sentiment : Q
}.

Record EpisodicMemoryEntry : Type := {
  ep_day : Q; ep_summary : string; ep_tags : list string; ep_impact : Q
}.

Record SemanticMemory : Type := { resourceExpectations : Q; normExpectation : Q }.

Record AgentPreferences : Type := {
  riskTolerance : Q; normativeAlignment : Q; socialGoalWeight : Q;
  survivalGoalWeight : Q; memoryFocus : Q
}.

Record FehrSchmidt : Type := {
  alpha : Q; beta : Q; reputationWeight : Q; normPenalty : Q
}.

Record AgentState : Type := {
  id : string;
  name : string;
  campId : string;
  energy : Q;
  hungerDebt : Q;
  emotion : EmotionState;
  fehrSchmidt : FehrSchmidt;
  reputation : Q;
  skillset : list (string * Q);
  preferences : AgentPreferences;
  semanticMemory : SemanticMemory;
  socialMemory : list SocialMemoryEntry;
  episodicMemory : list EpisodicMemoryEntry;
  lastReflectionDay : Q;
  lastActions : list string
}.

Record ResourceLevel : Type := { plants : Q; smallGame : Q; largeGame : Q }.

Record EnvironmentState : Type := {
  day : Q;
  seasonIndex : Z;
  seasonDay : Q;
  resourceLevel : ResourceLevel;
  climateShock : Q;
  riskModifier : HazardRates
}.

Record NetworkEdge : Type := { source : string; target : string; weight : Q }.

Record NetworkState : Type := {
  ns_edges : list NetworkEdge;
  ns_forgetFactor : Q;
  ns_campMembership : list (string * string)
}.

Inductive Outcome : Type := success | failure.

Definition Outcome_string (o : Outcome) : string :=
  match o with success => "success" | failure => "failure" end.

Record TaskAssignment : Type := {
  taskId : string;
  participants : list string;
  outcome : Outcome;
  reward : Q;
  injuries : list string;
  notes : string
}.

Record DailyMetrics : Type := {
  cooperationRate : Q;
  energyBalance : Q;
  riskIncidents : Q;
  inequalityIndex : Q;
  networkAssortativity : Q;
  metrics_reciprocity : Q
}.

Record CausalLink : Type := { cl_source : string; cl_target : string; cl_weight : Q }.

Record SimulationState : Type := {
  st_environment : EnvironmentState;
  st_agents : list AgentState;
  st_network : NetworkState;
  rngSeed : Z;
  environmentRngSeed : Z
}.

Record PlanRequest : Type := {
  req_day : Q;
  req_season : SeasonName;
  req_environment : EnvironmentState;
  req_agents : list AgentState;
  pendingTasks : list ScenarioTask
}.

Record PlanItem : Type := { agentId : string; intent : string; rationale : string }.

Record PlanResponse : Type := { plans : list PlanItem; provider : string }.

(** ** environment.ts *)

Section Environment.
Variable P : Platform.

(** The [do ... while (v <= 0)] loop of [gammaSample]: returns [x], [v]. *)
Fixpoint gammaSample_normal (fuel : nat) (rng : SeededRandom) (c : Q)
  : Res (Q * Q * SeededRandom) :=
  match fuel with
  | O => OutOfFuel
  | S fuel =>
      let '(u1, rng) := next rng in
      let '(u2, rng) := next rng in
      let r := Math_sqrt P (-(2) * Math_log P u1) in
      let theta := 2 * Math_PI P * u2 in
      let x := r * Math_cos P theta in
      let v := 1 + c * x in
      if Qleb v 0 then gammaSample_normal fuel rng c else Ok (x, v, rng)
  end.

(** The [while (true)] loop of [gammaSample]. *)
Fixpoint gammaSample_loop (fuel : nat) (rng : SeededRandom) (d c scale : Q)
  : Res (Q * SeededRandom) :=
  match fuel with
  | O => OutOfFuel
  | S fuel =>
      '(x, v, rng) <- gammaSample_normal (S fuel) rng c ;;
      let v := v * v * v in
      let '(u, rng) := next rng in
      if Qltb u (1 - 0.0331 * Math_pow P x 4) then Ok (scale * d * v, rng)
      else if Qltb (Math_log P u) (0.5 * x * x + d * (1 - v + Math_log P v))
           then Ok (scale * d * v, rng)
           else gammaSample_loop fuel rng d c scale
  end.

Fixpoint gammaSample (fuel : nat) (rng : SeededRandom) (shape scale : Q)
  : Res (Q * SeededRandom) :=
  match fuel with
  | O => OutOfFuel
  | S fuel =>
      if Qltb shape 1 then
        let '(u, rng) := next rng in
        '(g, rng) <- gammaSample fuel rng (shape + 1) scale ;;
        Ok (g * Math_pow P u (1 / shape), rng)
      else
        let d := shape - 1 / 3 in
        let c := 1 / Math_sqrt P (9 * d) in
        gammaSample_loop (S fuel) rng d c scale
  end.

Definition logGaussianSample (rng : SeededRandom) (mean variance : Q) : Q * SeededRandom :=
  let '(u, rng) := next rng in
  let u1 := if truthy u then u else 0.000001 in
  let '(u2, rng) := next rng in
  let standardNormal := Math_sqrt P (-(2) * Math_log P u1) * Math_cos P (2 * Math_PI P * u2) in
  (Math_exp P (mean + Math_sqrt P variance * standardNormal), rng).

Definition clampRisk (rate : Q) : Q := Math_max 0 (Math_min 1 rate).

(** [arr[i % arr.length]] for an integer [i]; [None] is [undefined]. *)
Definition index_mod {T : Type} (arr : list T) (i : Z) : option T :=
  match arr with
  | [] => None
  | _ =>
      let k := Z.rem i (Z.of_nat (length arr)) in
      if (k <? 0)%Z then None else nth_error arr (Z.to_nat k)
  end.

Fixpoint season_lookup {T : Type} (r : list (SeasonName * T)) (k : SeasonName) : option T :=
  match r with
  | [] => None
  | (k', v) :: r' => if SeasonName_eqb k' k then Some v else season_lookup r' k
  end.

Definition orElse {T : Type} (o : option T) (d : T) : T :=
  match o with Some v => v | None => d end.

(** [composeHazard]: in [config.hazards.seasonal?.[season.name] ?? {}] the
    optional chain ends at an absent table, so [season.name] is read, and
    throws for an undefined season, only when the table is there. *)
Definition composeHazard (config : ScenarioConfig) (seasonIndex : Z) : Res HazardRates :=
  let season := index_mod (seasons config) seasonIndex in
  let none := {| p_injury := None; p_hypothermia := None; p_predator := None |} in
  seasonal <-
    match hazards_seasonal (hazards config) with
    | None => Ok none
    | Some table =>
        match season with
        | None => Throw "TypeError: season is undefined"
        | Some season => Ok (orElse (season_lookup table (season_name season)) none)
        end
    end ;;
  let base := hazards_base (hazards config) in
  Ok {| injury := clampRisk (injury base + orElse (p_injury seasonal) 0);
        hypothermia := clampRisk (hypothermia base + orElse (p_hypothermia seasonal) 0);
        predator := clampRisk (predator base + orElse (p_predator seasonal) 0) |}.

(** [SeasonalEnvironment.initialize]; the generator is the caller's. *)
Definition SeasonalEnvironment_initialize (config : ScenarioConfig) : Res EnvironmentState :=
  initialHazard <- composeHazard config 0 ;;
  Ok {| day := 0;
        seasonIndex := 0;
        seasonDay := 0;
        resourceLevel :=
          {| plants := basePlantRate (resources config);
             smallGame := baseSmallGameRate (resources config);
             largeGame := baseLargeGameRate (resources config) |};
        climateShock := 0;
        riskModifier := initialHazard |}.

(** [SeasonalEnvironment.tick]: the new state (also the returned
    [EnvironmentTickResult.state]) and the advanced generator.  With
    [seasonLengthDays = 0] the quotient is not finite, the season index is
    NaN and [seasons[seasonIndex]] is [undefined]. *)
Definition tick (fuel : nat) (config : ScenarioConfig) (st : EnvironmentState)
           (rng : SeededRandom) : Res (EnvironmentState * SeededRandom) :=
  let nextDay := day st + 1 in
  let seasonLength := seasonLengthDays config in
  let seasonIdx := Z.rem (Math_floor (nextDay / seasonLength)) (Z.of_nat (length (seasons config))) in
  let seasonDay := Qrem nextDay seasonLength in
  let season :=
    if Qeqb seasonLength 0 then None
    else index_mod (seasons config) (Math_floor (nextDay / seasonLength)) in
  '(gamma, rng) <- gammaSample fuel rng (poissonGamma_shape (resources config))
                               (poissonGamma_scale (resources config)) ;;
  match season with
  | None => Throw "TypeError: season is undefined"
  | Some season =>
      let '(climateShock, rng) :=
        if truthy (climateNoise season)
        then range rng (- climateNoise season) (climateNoise season)
        else (0, rng) in
      let '(logG, rng) :=
        match logGaussian (resources config) with
        | Some (mean, variance) => logGaussianSample rng mean variance
        | None => (1, rng)
        end in
      let baseMultiplier := resourceMultiplier season * Math_max (0.1) (gamma + climateShock) in
      let plants := basePlantRate (resources config) * baseMultiplier * logG in
      let smallGame := baseSmallGameRate (resources config) * baseMultiplier * 0.8 in
      let largeGameBase := baseLargeGameRate (resources config) * baseMultiplier in
      let seasonalBonus :=
        orElse (season_lookup (seasonalLargeGameBonus (resources config)) (season_name season)) 0 in
      let largeGame := largeGameBase + seasonalBonus in
      riskModifier <- composeHazard config seasonIdx ;;
      Ok ({| day := nextDay;
             seasonIndex := seasonIdx;
             seasonDay := seasonDay;
             resourceLevel := {| plants := plants; smallGame := smallGame; largeGame := largeGame |};
             climateShock := climateShock;
             riskModifier := riskModifier |}, rng)
  end.
End Environment.

(** ** cognition.ts *)

Record EmotionStimulus : Type := {
  goalAlignment : Q;
  normAlignment : Q;
  preferenceAlignment : Q;
  stim_arousal : Q;
  stim_summary : string;
  stim_tags : list string;
  stim_impact : Q
}.

Definition clamp (value min max : Q) : Q := Math_max min (Math_min max value).

Definition updateEmotion (current : EmotionState) (stimulus : EmotionStimulus) (decay : Q)
  : EmotionState :=
  let valenceDelta := 0.6 * goalAlignment stimulus + 0.3 * normAlignment stimulus
                      + 0.1 * preferenceAlignment stimulus in
  let arousalDelta := stim_arousal stimulus in
  let moodDelta := 0.5 * valenceDelta + 0.2 * arousalDelta in
  {| valence := clamp (valence current * (1 - decay) + valenceDelta) (-(1)) 1;
     arousal := clamp (arousal current * (1 - decay) + arousalDelta) 0 1.5;
     mood := clamp (mood current * (1 - decay / 2) + moodDelta) (-(1)) 1 |}.

Definition updateSocialMemory (memory : list SocialMemoryEntry) (partner : string) (day : Q)
           (reciprocityDelta given received sentimentDelta window : Q)
  : list SocialMemoryEntry :=
  let filtered :=
    filter (fun entry => andb (Qleb (day - lastInteractionDay entry) window)
                              (negb (String.eqb (partnerId entry) partner))) memory in
  let existing := find (fun entry => String.eqb (partnerId entry) partner) memory in
  let prev (f : SocialMemoryEntry -> Q) := match existing with Some e => f e | None => 0 end in
  let newEntry :=
    {| partnerId := partner;
       lastInteractionDay := day;
       reciprocity := clamp (prev reciprocity * 0.6 + reciprocityDelta) (-(1)) 1;
       resourcesGiven := prev resourcesGiven + given;
       resourcesReceived := prev resourcesReceived + received;
       sentiment := clamp (prev sentiment * 0.5 + sentimentDelta) (-(1)) 1 |} in
  newEntry :: filtered.

Definition set_emotion (a : AgentState) (e : EmotionState) : AgentState :=
  {| id := id a; name := name a; campId := campId a; energy := energy a;
     hungerDebt := hungerDebt a; emotion := e; fehrSchmidt := fehrSchmidt a;
     reputation := reputation a; skillset := skillset a; preferences := preferences a;
     semanticMemory := semanticMemory a; socialMemory := socialMemory a;
     episodicMemory := episodicMemory a; lastReflectionDay := lastReflectionDay a;
     lastActions := lastActions a |}.

Definition set_episodicMemory (a : AgentState) (m : list EpisodicMemoryEntry) : AgentState :=
  {| id := id a; name := name a; campId := campId a; energy := energy a;
     hungerDebt := hungerDebt a; emotion := emotion a; fehrSchmidt := fehrSchmidt a;
     reputation := reputation a; skillset := skillset a; preferences := preferences a;
     semanticMemory := semanticMemory a; socialMemory := socialMemory a;
     episodicMemory := m; lastReflectionDay := lastReflectionDay a;
     lastActions := lastActions a |}.

Definition set_socialMemory (a : AgentState) (m : list SocialMemoryEntry) : AgentState :=
  {| id := id a; name := name a; campId := campId a; energy := energy a;
     hungerDebt := hungerDebt a; emotion := emotion a; fehrSchmidt := fehrSchmidt a;
     reputation := reputation a; skillset := skillset a; preferences := preferences a;
     semanticMemory := semanticMemory a; socialMemory := m;
     episodicMemory := episodicMemory a; lastReflectionDay := lastReflectionDay a;
     lastActions := lastActions a |}.

Definition set_lastReflectionDay (a : AgentState) (d : Q) : AgentState :=
  {| id := id a; name := name a; campId := campId a; energy := energy a;
     hungerDebt := hungerDebt a; emotion := emotion a; fehrSchmidt := fehrSchmidt a;
     reputation := reputation a; skillset := skillset a; preferences := preferences a;
     semanticMemory := semanticMemory a; socialMemory := socialMemory a;
     episodicMemory := episodicMemory a; lastReflectionDay := d;
     lastActions := lastActions a |}.

Definition set_energy (a : AgentState) (e : Q) : AgentState :=
  {| id := id a; name := name a; campId := campId a; energy := e;
     hungerDebt := hungerDebt a; emotion := emotion a; fehrSchmidt := fehrSchmidt a;
     reputation := reputation a; skillset := skillset a; preferences := preferences a;
     semanticMemory := semanticMemory a; socialMemory := socialMemory a;
     episodicMemory := episodicMemory a; lastReflectionDay := lastReflectionDay a;
     lastActions := lastActions a |}.

Definition set_hungerDebt (a : AgentState) (h : Q) : AgentState :=
  {| id := id a; name := name a; campId := campId a; energy := energy a;
     hungerDebt := h; emotion := emotion a; fehrSchmidt := fehrSchmidt a;
     reputation := reputation a; skillset := skillset a; preferences := preferences a;
     semanticMemory := semanticMemory a; socialMemory := socialMemory a;
     episodicMemory := episodicMemory a; lastReflectionDay := lastReflectionDay a;
     lastActions := lastActions a |}.

Definition set_reputation (a : AgentState) (r : Q) : AgentState :=
  {| id := id a; name := name a; campId := campId a; energy := energy a;
     hungerDebt := hungerDebt a; emotion := emotion a; fehrSchmidt := fehrSchmidt a;
     reputation := r; skillset := skillset a; preferences := preferences a;
     semanticMemory := semanticMemory a; socialMemory := socialMemory a;
     episodicMemory := episodicMemory a; lastReflectionDay := lastReflectionDay a;
     lastActions := lastActions a |}.

Definition set_lastActions (a : AgentState) (l : list string) : AgentState :=
  {| id := id a; name := name a; campId := campId a; energy := energy a;
     hungerDebt := hungerDebt a; emotion := emotion a; fehrSchmidt := fehrSchmidt a;
     reputation := reputation a; skillset := skillset a; preferences := preferences a;
     semanticMemory := semanticMemory a; socialMemory := socialMemory a;
     episodicMemory := episodicMemory a; lastReflectionDay := lastReflectionDay a;
     lastActions := l |}.

Section Cognition.
Variable P : Platform.
Variable config : ScenarioConfig.

Definition applyStimulus (agent : AgentState) (day : Q) (stimulus : EmotionStimulus)
  : AgentState :=
  let decay := emotion_decay (cognition config) in
  let agent := set_emotion agent (updateEmotion (emotion agent) stimulus decay) in
  let episodicEntry :=
    {| ep_day := day; ep_summary := stim_summary stimulus;
       ep_tags := stim_tags stimulus; ep_impact := stim_impact stimulus |} in
  let horizon := episodicWindowDays (cognition config) in
  set_episodicMemory agent
    (episodicEntry :: filter (fun entry => Qleb (day - ep_day entry) horizon)
                             (episodicMemory agent)).

Definition registerInteraction (agent : AgentState) (partner : string) (day : Q)
           (reciprocityDelta given received sentimentDelta : Q) : AgentState :=
  set_socialMemory agent
    (updateSocialMemory (socialMemory agent) partner day reciprocityDelta given received
                        sentimentDelta (socialMemoryHorizonDays (cognition config))).

(** [reflect]: the agent after the call and the returned summary. *)
Definition reflect (agent : AgentState) (day : Q) : AgentState * option string :=
  if Qltb (day - lastReflectionDay agent) (reflectionIntervalDays (cognition config))
  then (agent, None)
  else
    let agent := set_lastReflectionDay agent day in
    let recent := firstn 3 (episodicMemory agent) in
    let positive := length (filter (fun e => Qltb 0 (ep_impact e)) recent) in
    let negative := length (filter (fun e => Qltb (ep_impact e) 0) recent) in
    let tone := if (negative <=? positive)%nat then "optimistic" else "concerned" in
    (agent,
     Some ("Reflecting on " ++ string_of_nat (length recent) ++ " key events, mood is "
           ++ tone ++ " with valence " ++ toFixed P (valence (emotion agent)) 2 ++ ".")%string).
End Cognition.

Definition Qsum (l : list Q) : Q := fold_left Qplus l 0.

Definition fehrSchmidtUtility (ownShare : Q) (othersShares : list Q) (alpha beta : Q) : Q :=
  let avgOthers :=
    match othersShares with
    | [] => 0
    | _ => fold_left (fun acc share => acc + Math_max (share - ownShare) 0) othersShares 0
           / ofNat (length othersShares)
    end in
  let avgAdvantage :=
    match othersShares with
    | [] => 0
    | _ => fold_left (fun acc share => acc + Math_max (ownShare - share) 0) othersShares 0
           / ofNat (length othersShares)
    end in
  ownShare - alpha * avgOthers - beta * avgAdvantage.

(** ** network.ts *)

Definition makeKey (source target : string) : string := (source ++ "|" ++ target)%string.

Record NetworkStats : Type := { reciprocity_stat : Q; assortativity : Q; clustering : Q }.

(** The private fields of [SocialNetwork]; [edges] is the [Map]. *)
Record SocialNetwork : Type := {
  edges : list (string * NetworkEdge);
  forgetFactor : Q;
  campMembership : list (string * string)
}.

Definition set_weight (e : NetworkEdge) (w : Q) : NetworkEdge :=
  {| source := source e; target := target e; weight := w |}.

Definition set_edges (n : SocialNetwork) (es : list (string * NetworkEdge)) : SocialNetwork :=
  {| edges := es; forgetFactor := forgetFactor n; campMembership := campMembership n |}.

(** [new SocialNetwork(config, initial)] *)
Definition SocialNetwork_new (initial : NetworkState) : SocialNetwork :=
  {| edges := fold_left (fun m edge => map_set m (makeKey (source edge) (target edge)) edge)
                        (ns_edges initial) [];
     forgetFactor := ns_forgetFactor initial;
     campMembership := ns_campMembership initial |}.

Definition SocialNetwork_initialize (config : ScenarioConfig)
           (campMembership : list (string * string)) : SocialNetwork :=
  SocialNetwork_new {| ns_edges := []; ns_forgetFactor := network_decay config;
                       ns_campMembership := campMembership |}.

Definition toState (n : SocialNetwork) : NetworkState :=
  {| ns_edges := map snd (edges n);
     ns_forgetFactor := forgetFactor n;
     ns_campMembership := campMembership n |}.

Definition applyDecay (n : SocialNetwork) : SocialNetwork :=
  let decay := 1 - forgetFactor n in
  set_edges n
    (fold_left
       (fun m entry =>
          let '(key, edge) := entry in
          let newWeight := weight edge * decay in
          if Qltb newWeight 0.01 then map_delete m key
          else map_set m key (set_weight edge newWeight))
       (edges n) (edges n)).

Definition reinforceInteraction (n : SocialNetwork) (src tgt : string) (delta : Q)
  : SocialNetwork :=
  let key := makeKey src tgt in
  let updated :=
    match map_get (edges n) key with
    | Some existing => set_weight existing (weight existing + delta)
    | None => {| source := src; target := tgt; weight := delta |}
    end in
  set_edges n (map_set (edges n) key updated).

(** The adjacency [Map<string, Set<string>>] built by [computeStats]. *)
Definition adjacency_add (adj : list (string * list string)) (s t : string)
  : list (string * list string) :=
  match map_get adj s with
  | Some ns => map_set adj s (set_add ns t)
  | None => map_set adj s (set_add [] t)
  end.

(** Pairs [i < j] of a neighbour list whose first member points to the second. *)
Fixpoint triads_of (adj : list (string * list string)) (arr : list string) : nat * nat :=
  match arr with
  | [] => (O, O)
  | a :: rest =>
      let '(t, c) := triads_of adj rest in
      let closed :=
        match map_get adj a with
        | Some ni => length (filter (fun b => set_has ni b) rest)
        | None => O
        end in
      ((length rest + t)%nat, (closed + c)%nat)
  end.

Definition string_truthy (o : option string) : bool :=
  match o with Some (String _ _) => true | _ => false end.

Definition computeStats (n : SocialNetwork) : NetworkStats :=
  let es := map snd (edges n) in
  let totalEdges := length es in
  let adjacency := fold_left (fun adj e => adjacency_add adj (source e) (target e)) es [] in
  let reciprocalCount :=
    length (filter (fun e => map_has (edges n) (makeKey (target e) (source e))) es) in
  let reciprocity :=
    match totalEdges with O => 0 | _ => ofNat reciprocalCount / ofNat totalEdges end in
  let known :=
    filter (fun e => andb (string_truthy (rec_get (campMembership n) (source e)))
                          (string_truthy (rec_get (campMembership n) (target e)))) es in
  let sameCamp :=
    length (filter (fun e =>
                      match rec_get (campMembership n) (source e),
                            rec_get (campMembership n) (target e) with
                      | Some a, Some b => String.eqb a b
                      | _, _ => false
                      end) known) in
  let assortativity :=
    match length known with O => 0.5 | k => ofNat sameCamp / ofNat k end in
  let '(triads, closedTriads) :=
    fold_left (fun acc entry =>
                 let '(t, c) := triads_of adjacency (snd entry) in
                 ((fst acc + t)%nat, (snd acc + c)%nat))
              adjacency (O, O) in
  let clustering :=
    match triads with O => 0 | _ => ofNat closedTriads / ofNat triads end in
  {| reciprocity_stat := reciprocity; assortativity := assortativity; clustering := clustering |}.

(** [mergeCampMembership]: [{ ...this.campMembership, ...membership }] *)
Definition mergeCampMembership (n : SocialNetwork) (membership : list (string * string))
  : SocialNetwork :=
  {| edges := edges n;
     forgetFactor := forgetFactor n;
     campMembership :=
       fold_left (fun r kv => rec_set r (fst kv) (snd kv)) membership (campMembership n) |}.

(** ** tasks.ts *)

Record TaskExecution : Type := {
  assignment : TaskAssignment;
  rewards : list (string * Q);
  exec_energyCost : list (string * Q);
  exec_successProbability : Q
}.

Definition clamp01 (value : Q) : Q := Math_max 0 (Math_min 1 value).

Definition skillKey (task : ScenarioTask) : string :=
  match category task with
  | foraging => "gathering"
  | public_good => "crafting"
  | hunting => "hunting"
  end.

Definition is_hunting (task : ScenarioTask) : bool :=
  match category task with hunting => true | _ => false end.

(** [agent.skillset[key] ?? 0.5] *)
Definition skill (agent : AgentState) (key : string) : Q :=
  orElse (rec_get (skillset agent) key) 0.5.

(** The positions of [sorted.slice(0, Math.max(1, Math.floor(n / 3)))] in
    [agents]: [elite.includes(agent)] compares object identities, here the
    position of the agent in [agents]. *)
Definition elite_positions (key : string) (agents : list AgentState) : list nat :=
  let indexed := combine (seq 0 (length agents)) agents in
  let sorted := sort (fun a b => skill (snd b) key - skill (snd a) key) indexed in
  map fst (firstn (Nat.max 1 (length sorted / 3)) sorted).

Definition computeShare (task : ScenarioTask) (agents : list AgentState) (totalReward : Q)
  : list (string * Q) :=
  if orb (Nat.eqb (length agents) 0) (Qleb totalReward 0)
  then fromEntries (map (fun a => (id a, 0)) agents)
  else
    let baseShare := totalReward / ofNat (length agents) in
    match norm task with
    | equal_share =>
        fold_left (fun result agent => rec_set result (id agent) baseShare) agents []
    | proportional_skill =>
        let key := skillKey task in
        let total := fold_left (fun acc agent => acc + skill agent key) agents 0 in
        fold_left
          (fun result agent =>
             let weight :=
               skill agent key / (if truthy total then total else ofNat (length agents)) in
             rec_set result (id agent) (totalReward * weight))
          agents []
    | key_contributor_reward =>
        let key := skillKey task in
        let elite := elite_positions key agents in
        let bonusPool := totalReward * 0.25 in
        let basePool := totalReward - bonusPool in
        let bonusShare := bonusPool / ofNat (length elite) in
        fold_left
          (fun result ia =>
             let base := basePool / ofNat (length agents) in
             let bonus := if existsb (Nat.eqb (fst ia)) elite then bonusShare else 0 in
             rec_set result (id (snd ia)) (base + bonus))
          (combine (seq 0 (length agents)) agents) []
    | collective_penalty =>
        fold_left (fun result agent => rec_set result (id agent) 0) agents []
    end.

Definition computeEnergyCost (task : ScenarioTask) (parts : list AgentState)
  : list (string * Q) :=
  let base := energyCost task in
  fold_left
    (fun cost agent =>
       let modifier :=
         if is_hunting task then 1 + (1 - skill agent "hunting") * 0.2 else 1 in
       rec_set cost (id agent) (base * modifier))
    parts [].

Section Tasks.
Variable P : Platform.
Variable config : ScenarioConfig.

Definition computeSuccessProbability (task : ScenarioTask) (parts : list AgentState)
           (resourceLevel : Q) : Q :=
  let key := skillKey task in
  let avgSkill :=
    fold_left (fun acc agent => acc + skill agent key) parts 0
    / (match length parts with O => 1 | n => ofNat n end) in
  let participantBonus := 0.05 * Math_max (ofNat (length parts) - minParticipants task) 0 in
  let skillBonus := 0.1 * (avgSkill - 0.5) in
  let resourceBonus :=
    if Qltb 0 resourceLevel then 0.05 * Math_log P (1 + resourceLevel) else -(0.1) in
  clamp01 (successProbability task + participantBonus + skillBonus + resourceBonus).

(** [arr[i] = x] inside the bounds of [arr] *)
Fixpoint list_set {T : Type} (l : list T) (i : nat) (x : T) : list T :=
  match l, i with
  | [], _ => []
  | _ :: l', O => x :: l'
  | y :: l', S i' => y :: list_set l' i' x
  end.

(** [[a[i], a[j]] = [a[j], a[i]]] *)
Definition swap {T : Type} (l : list T) (i j : nat) : list T :=
  match nth_error l i, nth_error l j with
  | Some a, Some b => list_set (list_set l i b) j a
  | _, _ => l
  end.

(** The Fisher-Yates loop [for (let i = n - 1; i > 0; i--)], entered with [i]. *)
Fixpoint shuffle_from {T : Type} (i : nat) (rng : SeededRandom) (l : list T)
  : list T * SeededRandom :=
  match i with
  | O => (l, rng)
  | S i' =>
      let '(u, rng) := next rng in
      let j := Z.to_nat (Math_floor (u * ofNat (i + 1))) in
      shuffle_from i' rng (swap l i j)
  end.

Definition shuffle {T : Type} (rng : SeededRandom) (l : list T) : list T * SeededRandom :=
  shuffle_from (length l - 1) rng l.

(** The body of the loop [shuffled.forEach] that fills [participants]. *)
Definition considerCandidate (task : ScenarioTask) (need : Q)
           (acc : list AgentState * list string) (agent : AgentState)
  : list AgentState * list string :=
  if Qleb need (ofNat (length (fst acc))) then acc
  else if negb (set_has (snd acc) (id agent)) then acc
  else if andb (is_hunting task) (Qltb (skill agent "hunting") 0.3) then acc
  else (fst acc ++ [agent], set_delete (snd acc) (id agent)).

(** The loop [shuffled.forEach] that fills [participants] for one task. *)
Definition collectParticipants (task : ScenarioTask) (need : Q) (shuffled : list AgentState)
           (available : list string) : list AgentState * list string :=
  fold_left (considerCandidate task need) shuffled ([], available).

(** The injuries loop: one draw per participant. *)
Definition sampleInjuries (task : ScenarioTask) (succeeded : bool) (parts : list AgentState)
           (rng : SeededRandom) : list string * SeededRandom :=
  fold_left
    (fun acc agent =>
       let '(injuries, rng) := acc in
       let risk := clamp01 (injuryRiskMultiplier task * injury (hazards_base (hazards config))) in
       let '(u, rng) := next rng in
       if Qltb u (risk * (if succeeded then 0.7 else 1.1))
       then (injuries ++ [id agent], rng) else (injuries, rng))
    parts ([], rng).

Record AssignState : Type := {
  availableAgents : list string;
  executions : list TaskExecution;
  assign_rng : SeededRandom
}.

Definition resourceByTask (r : ResourceLevel) (c : TaskCategory) : Q :=
  match c with
  | foraging => plants r
  | hunting => smallGame r + largeGame r
  | public_good => plants r
  end.

(** The body of [tasks.forEach] in [assignTasks]. *)
Definition assignTask (shuffled : list AgentState) (resourceAvailability : ResourceLevel)
           (st : AssignState) (task : ScenarioTask) : AssignState :=
  let need := Math_min (recommendedParticipants task) (ofNat (set_size (availableAgents st))) in
  if Qltb need (minParticipants task) then st
  else
    let '(parts, available) := collectParticipants task need shuffled (availableAgents st) in
    if Qltb (ofNat (length parts)) (minParticipants task) then
      {| availableAgents := fold_left (fun s agent => set_add s (id agent)) parts available;
         executions := executions st;
         assign_rng := assign_rng st |}
    else
      let resourceLevel := resourceByTask resourceAvailability (category task) in
      let successP := computeSuccessProbability task parts resourceLevel in
      let '(u, rng) := next (assign_rng st) in
      let succeeded := Qltb u successP in
      let rewardPerParticipant :=
        match yieldPerParticipant task with
        | Some y => y
        | None => orElse (yieldPerParticipantOnSuccess task) 0
        end in
      let totalReward :=
        if succeeded then
          rewardPerParticipant
          * (if match yieldPerParticipant task with Some y => truthy y | None => false end
             then ofNat (length parts) else 1)
        else 0 in
      let rewards := computeShare task parts totalReward in
      let energyCost := computeEnergyCost task parts in
      let '(injuries, rng) := sampleInjuries task succeeded parts rng in
      {| availableAgents := available;
         executions :=
           executions st ++
           [{| assignment :=
                 {| taskId := task_id task;
                    participants := map id parts;
                    outcome := if succeeded then success else failure;
                    reward := totalReward;
                    injuries := injuries;
                    notes := if succeeded then "coordinated effort succeeded"
                             else "insufficient payoff" |};
               rewards := rewards;
               exec_energyCost := energyCost;
               exec_successProbability := successP |}];
         assign_rng := rng |}.

Definition is_camp_maintenance (task : ScenarioTask) : bool :=
  String.eqb (task_id task) "camp_maintenance".

(** The idle fallback after the loop. *)
Definition idleFallback (shuffled : list AgentState) (taskList : list ScenarioTask)
           (st : AssignState) : list TaskExecution :=
  match set_size (availableAgents st) with
  | O => executions st
  | _ =>
      let maintenance :=
        match find is_camp_maintenance taskList with
        | Some t => Some t
        | None => find is_camp_maintenance (tasks config)
        end in
      match maintenance with
      | None => executions st
      | Some maintenance =>
          let parts := filter (fun agent => set_has (availableAgents st) (id agent)) shuffled in
          executions st ++
          [{| assignment :=
                {| taskId := task_id maintenance;
                   participants := map id parts;
                   outcome := success;
                   reward := 0;
                   injuries := [];
                   notes := "fallback maintenance duty" |};
              rewards := computeShare maintenance parts 0;
              exec_energyCost := computeEnergyCost maintenance parts;
              exec_successProbability := 1 |}]
      end
  end.

(** The state after the shuffle and the [tasks.forEach] loop. *)
Definition assignLoop (rng : SeededRandom) (agents : list AgentState)
           (resourceAvailability : ResourceLevel) (taskList : list ScenarioTask)
  : list AgentState * AssignState :=
  let '(shuffled, rng) := shuffle rng agents in
  (shuffled,
   fold_left (assignTask shuffled resourceAvailability) taskList
             {| availableAgents := set_of_list (map id shuffled);
                executions := [];
                assign_rng := rng |}).

Definition assignTasks (rng : SeededRandom) (agents : list AgentState)
           (resourceAvailability : ResourceLevel) (taskSequence : option (list ScenarioTask))
  : list TaskExecution * SeededRandom :=
  let taskList := orElse taskSequence (tasks config) in
  let '(shuffled, st) := assignLoop rng agents resourceAvailability taskList in
  (idleFallback shuffled taskList st, assign_rng st).

Definition evaluateCooperation (execs : list TaskExecution) (agents : list AgentState)
  : DailyMetrics :=
  let cooperativeAssignments :=
    length (filter (fun e => (1 <? length (participants (assignment e)))%nat) execs) in
  let cooperationRate :=
    match length execs with
    | O => 0
    | n => ofNat cooperativeAssignments / ofNat n
    end in
  let step (acc : Q * list Q * Q) (e : TaskExecution) :=
    let '(energyBalance, inequalitySamples, riskIncidents) := acc in
    let inequalitySamples :=
      fold_left
        (fun samples entry =>
           let '(agentId, reward) := entry in
           match find (fun a => String.eqb (id a) agentId) agents with
           | None => samples
           | Some agent =>
               samples ++
               [fehrSchmidtUtility reward
                  (map snd (filter (fun kv => negb (String.eqb (fst kv) agentId)) (rewards e)))
                  (alpha (fehrSchmidt agent)) (beta (fehrSchmidt agent))]
           end)
        (rewards e) inequalitySamples in
    let energyBalance :=
      fold_left (fun b cost => b - cost) (map snd (exec_energyCost e)) energyBalance in
    let energyBalance := energyBalance + reward (assignment e) in
    (energyBalance, inequalitySamples, riskIncidents + ofNat (length (injuries (assignment e)))) in
  let '(energyBalance, inequalitySamples, riskIncidents) := fold_left step execs (0, [], 0) in
  let inequalityIndex :=
    match inequalitySamples with
    | [] => 0
    | _ => fold_left Qplus inequalitySamples 0 / ofNat (length inequalitySamples)
    end in
  {| cooperationRate := cooperationRate;
     energyBalance := energyBalance;
     riskIncidents := riskIncidents;
     inequalityIndex := inequalityIndex;
     networkAssortativity := 0;
     metrics_reciprocity := 0 |}.
End Tasks.

(** ** llmAdapters.ts *)

(** What a plan request can observe outside the program: the environment
    variables read by the adapters and the answers of the three HTTP
    endpoints to a prompt.  [None] is a failed request (a rejected [fetch], a
    status that is not ok, a body that does not parse); the inner option of
    the first two is the optional text field of the parsed body. *)
Record World : Type := {
  OPENAI_API_KEY : option string;
  BEDROCK_CONVERSE_URL : option string;
  BEDROCK_CONVERSE_MODEL : option string;
  OLLAMA_HOST : option string;
  openai_responses : string -> option (option string);
  bedrock_converse : string -> option (option string);
  ollama_generate : string -> option string
}.

(** The [Adapter] interface. *)
Record Adapter : Type := {
  adapter_provider : string;
  isEnabled : World -> bool;
  generatePlan : World -> PlanRequest -> string -> option PlanResponse
}.

Definition OpenAIResponsesAdapter : Adapter :=
  {| adapter_provider := "openai-responses";
     isEnabled := fun w => string_truthy (OPENAI_API_KEY w);
     generatePlan := fun w _ prompt =>
       match openai_responses w prompt with
       | None => None
       | Some output_text =>
           let text := orElse output_text "" in
           Some {| plans := [{| agentId := "group"; intent := String.substring 0 2000 text;
                                rationale := "llm_plan" |}];
                   provider := "openai-responses" |}
       end |}.

Definition BedrockConverseAdapter : Adapter :=
  {| adapter_provider := "bedrock-converse";
     isEnabled := fun w => andb (string_truthy (BEDROCK_CONVERSE_URL w))
                                (string_truthy (BEDROCK_CONVERSE_MODEL w));
     generatePlan := fun w _ prompt =>
       match bedrock_converse w prompt with
       | None => None
       | Some outputText =>
           Some {| plans := [{| agentId := "group"; intent := orElse outputText "";
                                rationale := "bedrock_plan" |}];
                   provider := "bedrock-converse" |}
       end |}.

Definition OllamaAdapter : Adapter :=
  {| adapter_provider := "ollama";
     isEnabled := fun w => string_truthy (OLLAMA_HOST w);
     generatePlan := fun w _ prompt =>
       match ollama_generate w prompt with
       | None => None
       | Some text =>
           Some {| plans := [{| agentId := "group"; intent := text;
                                rationale := "ollama_plan" |}];
                   provider := "ollama" |}
       end |}.

Definition TaskNormRule_string (n : TaskNormRule) : string :=
  match n with
  | equal_share => "equal_share"
  | proportional_skill => "proportional_skill"
  | key_contributor_reward => "key_contributor_reward"
  | collective_penalty => "collective_penalty"
  end.

Definition newline : string := String (ascii_of_nat 10) EmptyString.

Section LLM.
Variable P : Platform.

Definition heuristicPlan (request : PlanRequest) (prompt : string) : PlanResponse :=
  let intents :=
    map (fun task =>
           {| agentId := task_id task;
              intent := ("allocate " ++ numberToString P (recommendedParticipants task)
                         ++ " participants to " ++ task_name task)%string;
              rationale := "heuristic_allocation" |})
        (pendingTasks request) in
  let intents :=
    match intents with
    | [] => intents ++ [{| agentId := "none"; intent := "rest and monitor resources";
                           rationale := "idle_day" |}]
    | _ => intents
    end in
  {| plans := intents; provider := "heuristic" |}.

Definition buildPrompt (config : ScenarioConfig) (request : PlanRequest) : string :=
  let season :=
    find (fun s => SeasonName_eqb (season_name s) (req_season request)) (seasons config) in
  let seasonText :=
    match season with Some s => SeasonName_string (season_name s) | None => "undefined" end in
  let level := resourceLevel (req_environment request) in
  let summary :=
    ("Day " ++ numberToString P (req_day request) ++ " in " ++ displayName config
     ++ ". Current season: " ++ seasonText ++ ".")%string in
  let resourceSummary :=
    ("Resources -> plants: " ++ toFixed P (plants level) 2
     ++ ", small game: " ++ toFixed P (smallGame level) 2
     ++ ", large game: " ++ toFixed P (largeGame level) 2 ++ ".")%string in
  let taskLines :=
    join newline
      (map (fun task =>
              (task_name task ++ ": success " ++ numberToString P (successProbability task)
               ++ " with norm " ++ TaskNormRule_string (norm task))%string)
           (pendingTasks request)) in
  join newline [summary; resourceSummary; "Available tasks:"; taskLines; planTemplate config].

(** The adapters of [LLMDecisionCore], in the order of the constructor. *)
Definition adapters : list Adapter :=
  [OpenAIResponsesAdapter; BedrockConverseAdapter; OllamaAdapter].

(** The [for] loop of [plan] over the remaining adapters. *)
Fixpoint plan_from (w : World) (remaining : list Adapter) (request : PlanRequest)
         (prompt : string) : PlanResponse :=
  match remaining with
  | [] => heuristicPlan request prompt
  | adapter :: rest =>
      if negb (isEnabled adapter w) then plan_from w rest request prompt
      else match generatePlan adapter w request prompt with
           | Some response => response
           | None => plan_from w rest request prompt
           end
  end.

Definition plan (w : World) (config : ScenarioConfig) (request : PlanRequest) : PlanResponse :=
  let prompt := buildPrompt config request in
  plan_from w adapters request prompt.
End LLM.

(** ** logging.ts *)

Inductive LogType : Type :=
| log_task | log_interaction | log_emotion | log_reflection | log_allocation.

(** The [detail] of a log entry: a text, or the execution that
    [JSON.stringify(execution)] renders. *)
Inductive LogDetail : Type :=
| DetailText (s : string)
| DetailExecution (e : TaskExecution).

Record SimulationLogEntry : Type := {
  log_day : Q;
  log_agentId : option string;
  log_type : LogType;
  log_summary : string;
  log_detail : LogDetail
}.

Record SimulationLogger : Type := {
  logs : list SimulationLogEntry;
  causal : list CausalLink;
  enabled_events : bool;
  enabled_causal : bool
}.

Definition SimulationLogger_new (events causalOn : bool) : SimulationLogger :=
  {| logs := []; causal := []; enabled_events := events; enabled_causal := causalOn |}.

Definition record (l : SimulationLogger) (log : SimulationLogEntry) : SimulationLogger :=
  if negb (enabled_events l) then l
  else {| logs := logs l ++ [log]; causal := causal l;
          enabled_events := enabled_events l; enabled_causal := enabled_causal l |}.

Definition link (l : SimulationLogger) (source target : string) (weight : Q)
  : SimulationLogger :=
  if negb (enabled_causal l) then l
  else {| logs := logs l;
          causal := causal l ++ [{| cl_source := source; cl_target := target;
                                    cl_weight := weight |}];
          enabled_events := enabled_events l; enabled_causal := enabled_causal l |}.

Definition flush (l : SimulationLogger)
  : list SimulationLogEntry * list CausalLink * SimulationLogger :=
  (logs l, causal l,
   {| logs := []; causal := [];
      enabled_events := enabled_events l; enabled_causal := enabled_causal l |}).

(** ** simulation.ts *)

Record SimulationStepResult : Type := {
  newState : SimulationState;
  assignments : list TaskAssignment;
  metrics : DailyMetrics;
  result_logs : list SimulationLogEntry;
  result_causalGraph : list CausalLink;
  networkStats : NetworkStats
}.

(** The fields of a [CooperationSimulation]; the planner, the cognition
    engine and the decision core hold nothing but the configuration, and
    the environment shares the simulation's generator. *)
Record CooperationSimulation : Type := {
  sim_config : ScenarioConfig;
  sim_environment : EnvironmentState;
  sim_network : SocialNetwork;
  sim_logger : SimulationLogger;
  sim_rng : SeededRandom;
  sim_agents : list AgentState
}.

Definition MAX_SAFE_INTEGER : Q := 9007199254740991.

Section Simulation.
Variable P : Platform.

Definition sampleNormal (rng : SeededRandom) (mean std : Q) : Q * SeededRandom :=
  let '(u, rng) := next rng in
  let u1 := if truthy u then u else 0.000001 in
  let '(u2, rng) := next rng in
  let z := Math_sqrt P (-(2) * Math_log P u1) * Math_cos P (2 * Math_PI P * u2) in
  (mean + std * z, rng).

Definition buildAgentId (index : nat) : string := ("agent_" ++ string_of_nat (index + 1))%string.

Definition camps : list string := ["Camp-A"; "Camp-B"; "Camp-C"].

(** The body of the [for] loop of [initializeAgents] for index [i]. *)
Definition initializeAgent (config : ScenarioConfig) (i : nat) (rng : SeededRandom)
  : AgentState * string * SeededRandom :=
  let camp := nth (i mod length camps) camps "" in
  let '(skills, rng) :=
    fold_left
      (fun acc entry =>
         let '(skills, rng) := acc in
         let '(key, (mean, std)) := entry in
         let '(raw, rng) := sampleNormal rng mean std in
         (rec_set skills key (clamp raw 0 1.2), rng))
      (skillProfiles (agentPopulation config)) ([], rng) in
  let sp := socialPreferences (agentPopulation config) in
  let '(a, rng) := sampleNormal rng (alphaMean sp) (alphaStd sp) in
  let '(b, rng) := sampleNormal rng (betaMean sp) (betaStd sp) in
  let '(rw, rng) := sampleNormal rng (sp_reputationWeight sp) 0.1 in
  let '(np, rng) := sampleNormal rng (sp_normPenalty sp) 0.1 in
  let '(p1, rng) := sampleNormal rng 0.5 0.2 in
  let '(p2, rng) := sampleNormal rng 0.6 0.2 in
  let '(p3, rng) := sampleNormal rng 0.55 0.15 in
  let '(p4, rng) := sampleNormal rng 0.7 0.15 in
  let '(p5, rng) := sampleNormal rng 0.5 0.2 in
  ({| id := buildAgentId i;
      name := ("Forager-" ++ string_of_nat (i + 1))%string;
      campId := camp;
      energy := dailyEnergyNeed config * 1.2;
      hungerDebt := 0;
      emotion := {| valence := baselineValence (cognition config);
                    arousal := baselineArousal (cognition config);
                    mood := baselineValence (cognition config) |};
      fehrSchmidt := {| alpha := clamp a 0 2; beta := clamp b 0 2;
                        reputationWeight := clamp rw 0 1; normPenalty := clamp np 0 1 |};
      reputation := 0.5;
      skillset := skills;
      preferences := {| riskTolerance := clamp p1 0 1; normativeAlignment := clamp p2 0 1;
                        socialGoalWeight := clamp p3 0 1; survivalGoalWeight := clamp p4 0 1;
                        memoryFocus := clamp p5 0 1 |};
      semanticMemory := {| resourceExpectations := 1; normExpectation := 0.5 |};
      socialMemory := [];
      episodicMemory := [];
      lastReflectionDay := -(1);
      lastActions := [] |}, camp, rng).

Definition initializeAgents (config : ScenarioConfig) (rng : SeededRandom)
  : list AgentState * list (string * string) * SeededRandom :=
  fold_left
    (fun acc i =>
       let '(agents, membership, rng) := acc in
       let '(agent, camp, rng) := initializeAgent config i rng in
       (agents ++ [agent], rec_set membership (id agent) camp, rng))
    (seq 0 (size (agentPopulation config))) ([], [], rng).

(** A deep copy of immutable values is the value itself. *)
Definition deepCloneAgents (agents : list AgentState) : list AgentState := agents.

Definition orderTasksByPlan (response : PlanResponse) (taskList : list ScenarioTask)
  : list ScenarioTask :=
  let weights :=
    fold_left
      (fun weights item_index =>
         let '(index, item) := item_index in
         fold_left
           (fun weights task =>
              let normalized := toLowerCase (intent item) in
              if orb (includes normalized (task_id task)) (includes normalized (task_name task))
              then if negb (map_has weights (task_id task))
                   then map_set weights (task_id task) (ofNat index)
                   else weights
              else weights)
           taskList weights)
      (combine (seq 0 (length (plans response))) (plans response)) [] in
  sort (fun a b =>
          orElse (map_get weights (task_id a)) MAX_SAFE_INTEGER
          - orElse (map_get weights (task_id b)) MAX_SAFE_INTEGER)
       taskList.

Definition CooperationSimulation_initialize (config : ScenarioConfig) (seed : Z)
  : Res CooperationSimulation :=
  let rng := SeededRandom_new seed in
  environment <- SeasonalEnvironment_initialize config ;;
  let '(agents, membership, rng) := initializeAgents config rng in
  Ok {| sim_config := config;
        sim_environment := environment;
        sim_network := SocialNetwork_initialize config membership;
        sim_logger := SimulationLogger_new (eventLog (logging config)) (causalGraph (logging config));
        sim_rng := rng;
        sim_agents := agents |}.

Definition fromState (config : ScenarioConfig) (st : SimulationState) : CooperationSimulation :=
  {| sim_config := config;
     sim_environment := st_environment st;
     sim_network := SocialNetwork_new (st_network st);
     sim_logger := SimulationLogger_new (eventLog (logging config)) (causalGraph (logging config));
     sim_rng := SeededRandom_new (rngSeed st);
     sim_agents := deepCloneAgents (st_agents st) |}.

Definition set_rng (sim : CooperationSimulation) (rng : SeededRandom) : CooperationSimulation :=
  {| sim_config := sim_config sim; sim_environment := sim_environment sim;
     sim_network := sim_network sim; sim_logger := sim_logger sim;
     sim_rng := rng; sim_agents := sim_agents sim |}.

(** [serialize]: the snapshot, and the simulation after the call. *)
Definition serialize (sim : CooperationSimulation) : SimulationState * CooperationSimulation :=
  let '(nextSeed, rng) := drawSeed (sim_rng sim) in
  ({| st_environment := sim_environment sim;
      st_agents := deepCloneAgents (sim_agents sim);
      st_network := toState (sim_network sim);
      rngSeed := nextSeed;
      environmentRngSeed := nextSeed |},
   set_rng sim rng).

Definition createPlanRequest (sim : CooperationSimulation) : Res PlanRequest :=
  let envState := sim_environment sim in
  match index_mod (seasons (sim_config sim)) (seasonIndex envState) with
  | None => Throw "TypeError: season is undefined"
  | Some season =>
      Ok {| req_day := day envState;
            req_season := season_name season;
            req_environment := envState;
            req_agents := deepCloneAgents (sim_agents sim);
            pendingTasks := tasks (sim_config sim) |}
  end.

(** [agentIndex.get(id)]: the position in [agents] of the object the
    [Map] built from [agents] holds for [id] (the last one with that id). *)
Definition agentIndex_get (agents : list AgentState) (key : string) : option nat :=
  fold_left (fun found ia => if String.eqb (id (snd ia)) key then Some (fst ia) else found)
            (combine (seq 0 (length agents)) agents) None.

(** The body of the outer [participants.forEach] of [applyExecutions] for
    one agent: the agent and the network after it.  [partnerIds] are the
    ids of [participants]. *)
Definition applyParticipant (config : ScenarioConfig) (day : Q) (execution : TaskExecution)
           (baseShare : Q) (partnerIds : list string) (agent : AgentState)
           (net : SocialNetwork) : AgentState * SocialNetwork :=
  let energyNeed := dailyEnergyNeed config in
  let asg := assignment execution in
  let succeeded := match outcome asg with success => true | failure => false end in
  let share := orElse (rec_get (rewards execution) (id agent)) 0 in
  let cost := orElse (rec_get (exec_energyCost execution) (id agent)) 0 in
  let agent := set_energy agent (Math_max 0 (energy agent + share - cost - energyNeed)) in
  let agent :=
    if Qltb (energy agent) (energyNeed * 0.5)
    then set_hungerDebt agent (hungerDebt agent + (energyNeed * 0.5 - energy agent))
    else agent in
  let agent :=
    if existsb (String.eqb (id agent)) (injuries asg) then
      let agent := set_energy agent (Math_max 0 (energy agent - 0.2)) in
      applyStimulus config agent day
        {| goalAlignment := -(0.6); normAlignment := -(0.2); preferenceAlignment := -(0.3);
           stim_arousal := 0.6;
           stim_summary := ("Suffered injury during " ++ taskId asg ++ ".")%string;
           stim_tags := ["injury"; taskId asg];
           stim_impact := -(0.7) |}
    else agent in
  let fairness :=
    if Qeqb baseShare 0 then 0 else (share - baseShare) / Math_max baseShare 0.001 in
  let agent :=
    applyStimulus config agent day
      {| goalAlignment := if succeeded then 0.8 else -(0.4);
         normAlignment := if Qleb (- normPenalty (fehrSchmidt agent)) fairness
                          then 0.3 else -(0.3);
         preferenceAlignment := if Qleb energyNeed share then 0.2 else -(0.1);
         stim_arousal := if succeeded then 0.2 else 0.4;
         stim_summary := (taskId asg ++ " " ++ Outcome_string (outcome asg) ++ " with share "
                          ++ toFixed P share 2 ++ ".")%string;
         stim_tags := ["task"; taskId asg];
         stim_impact := if succeeded then 0.5 else -(0.2) |} in
  let agent :=
    set_reputation agent
      (clamp (reputation agent + (if succeeded then 0.05 else -(0.03))) 0 1) in
  let '(agent, net) :=
    fold_left
      (fun acc partner =>
         let '(agent, net) := acc in
         if String.eqb partner (id agent) then acc
         else
           (registerInteraction config agent partner day
              (if succeeded then 0.2 else -(0.1)) share
              (orElse (rec_get (rewards execution) partner) 0) fairness,
            reinforceInteraction net (id agent) partner (0.2 + share * 0.05)))
      partnerIds (agent, net) in
  (set_lastActions agent [taskId asg], net).

Record ApplyState : Type := {
  ap_agents : list AgentState;
  ap_network : SocialNetwork;
  ap_logger : SimulationLogger
}.

(** The body of [executions.forEach] in [applyExecutions]. *)
Definition applyExecution (config : ScenarioConfig) (day : Q) (st : ApplyState)
           (execution : TaskExecution) : ApplyState :=
  let asg := assignment execution in
  let positions :=
    flat_map (fun key => match agentIndex_get (ap_agents st) key with
                         | Some p => [p] | None => [] end)
             (participants asg) in
  match positions with
  | [] => st
  | _ =>
      let baseShare :=
        match length (participants asg) with
        | O => 0
        | n => reward asg / ofNat n
        end in
      let partnerIds :=
        flat_map (fun p => match nth_error (ap_agents st) p with
                           | Some a => [id a] | None => [] end) positions in
      let '(agents, net) :=
        fold_left
          (fun acc p =>
             let '(agents, net) := acc in
             match nth_error agents p with
             | None => acc
             | Some agent =>
                 let '(agent, net) :=
                   applyParticipant config day execution baseShare partnerIds agent net in
                 (list_set agents p agent, net)
             end)
          positions (ap_agents st, ap_network st) in
      {| ap_agents := agents;
         ap_network := net;
         ap_logger :=
           if taskLog (logging config)
           then record (ap_logger st)
                       {| log_day := day; log_agentId := None; log_type := log_task;
                          log_summary := (taskId asg ++ " " ++ Outcome_string (outcome asg))%string;
                          log_detail := DetailExecution execution |}
           else ap_logger st |}
  end.

(** The final [this.agents.forEach] of [applyExecutions]. *)
Definition reflectAll (config : ScenarioConfig) (day : Q) (agents : list AgentState)
           (logger : SimulationLogger) : list AgentState * SimulationLogger :=
  fold_left
    (fun acc agent =>
       let '(done, logger) := acc in
       let '(agent, reflection) := reflect P config agent day in
       (done ++ [agent],
        match reflection with
        | Some (String c s) =>
            record logger {| log_day := day; log_agentId := Some (id agent);
                             log_type := log_reflection;
                             log_summary := String c s;
                             log_detail := DetailText (String c s) |}
        | _ => logger
        end))
    agents ([], logger).

Definition applyExecutions (config : ScenarioConfig) (execs : list TaskExecution) (day : Q)
           (agents : list AgentState) (net : SocialNetwork) (logger : SimulationLogger)
  : ApplyState :=
  let st :=
    fold_left (applyExecution config day) execs
              {| ap_agents := agents; ap_network := applyDecay net; ap_logger := logger |} in
  let '(agents, logger) := reflectAll config day (ap_agents st) (ap_logger st) in
  {| ap_agents := agents; ap_network := ap_network st; ap_logger := logger |}.

(** [stepDay]: the result and the simulation after the step.  The world
    answers the plan request. *)
Definition stepDay (w : World) (fuel : nat) (sim : CooperationSimulation)
  : Res (SimulationStepResult * CooperationSimulation) :=
  let config := sim_config sim in
  planRequest <- createPlanRequest sim ;;
  let response := plan P w config planRequest in
  let orderedTasks := orderTasksByPlan response (tasks config) in
  '(envState, rng) <- tick P fuel config (sim_environment sim) (sim_rng sim) ;;
  let '(execs, rng) :=
    assignTasks P config rng (sim_agents sim) (resourceLevel envState) (Some orderedTasks) in
  let st := applyExecutions config execs (day envState) (sim_agents sim) (sim_network sim)
                            (sim_logger sim) in
  let metrics := evaluateCooperation execs (ap_agents st) in
  let stats := computeStats (ap_network st) in
  let metrics :=
    {| cooperationRate := cooperationRate metrics;
       energyBalance := energyBalance metrics;
       riskIncidents := riskIncidents metrics;
       inequalityIndex := inequalityIndex metrics;
       networkAssortativity := assortativity stats;
       metrics_reciprocity := reciprocity_stat stats |} in
  let '(entries, links, logger) := flush (ap_logger st) in
  let '(nextSeed, rng) := drawSeed rng in
  Ok ({| newState :=
           {| st_environment := envState;
              st_agents := deepCloneAgents (ap_agents st);
              st_network := toState (ap_network st);
              rngSeed := nextSeed;
              environmentRngSeed := nextSeed |};
         assignments := map assignment execs;
         metrics := metrics;
         result_logs := entries;
         result_causalGraph := links;
         networkStats := stats |},
      {| sim_config := config;
         sim_environment := envState;
         sim_network := ap_network st;
         sim_logger := logger;
         sim_rng := rng;
         sim_agents := ap_agents st |}).
End Simulation.

(** ** A reference platform

    Rational approximations of the engine built-ins, accurate to about
    [2^-80], used to run the simulation on concrete inputs.  Fixed-point
    numbers are integers scaled by [2^80]. *)

Module Ref.
Definition scale : Z := (2 ^ 80)%Z.

Definition to_fix (q : Q) : Z := (Qnum q * scale / QDen q)%Z.
Definition of_fix (z : Z) : Q := Qred (z # (2 ^ 80)).

Definition fmul (a b : Z) : Z := (a * b / scale)%Z.

Definition sqrt (q : Q) : Q :=
  if Qleb q 0 then 0
  else of_fix (Z.sqrt (Qnum q * scale * scale / QDen q)).

(** [sum_{k < n} z^(2k+1) / (2k+1)], with [term = z^(2k+1)] and [z2 = z^2] *)
Fixpoint atanh_series (n : nat) (k : Z) (term z2 acc : Z) : Z :=
  match n with
  | O => acc
  | S n => atanh_series n (k + 1) (fmul term z2) z2 (acc + term / (2 * k + 1))%Z
  end.

(** [ln (a / b)] for [a / b] between 1/2 and 2, in fixed point *)
Definition ln_near_one (a b : Z) : Z :=
  let z := ((a - b) * scale / (a + b))%Z in
  (2 * atanh_series 60 0 z (fmul z z) 0)%Z.

Definition ln2 : Z := ln_near_one 2 1.

Definition log (q : Q) : Q :=
  if Qleb q 0 then -(1000000)
  else
    let a := Qnum q in
    let b := QDen q in
    let e := (Z.log2 a - Z.log2 b)%Z in
    let '(a', b') := if (0 <=? e)%Z then (a, b * 2 ^ e)%Z else (a * 2 ^ (- e), b)%Z in
    of_fix (e * ln2 + ln_near_one a' b')%Z.

Definition PI : Q :=
  3141592653589793238462643383279502884197 # 1000000000000000000000000000000000000000.

(** [sum_{k < n} (-1)^k t^(2k) / (2k)!], with [term] the current summand *)
Fixpoint cos_series (n : nat) (k : Z) (term t2 acc : Z) : Z :=
  match n with
  | O => acc
  | S n =>
      cos_series n (k + 1) (- (fmul term t2) / ((2 * k + 1) * (2 * k + 2)))%Z t2 (acc + term)%Z
  end.

Definition cos (q : Q) : Q :=
  let turns := Qfloor (q / (2 * PI) + (1 # 2)) in
  let t := to_fix (q - inject_Z turns * (2 * PI)) in
  of_fix (cos_series 40 0 scale (fmul t t) 0).

(** [sum_{k < n} r^k / k!] *)
Fixpoint exp_series (n : nat) (k : Z) (term r acc : Z) : Z :=
  match n with
  | O => acc
  | S n => exp_series n (k + 1) (fmul term r / (k + 1))%Z r (acc + term)%Z
  end.

Definition exp (q : Q) : Q :=
  let n := Qfloor (q / of_fix ln2) in
  let r := to_fix (q - inject_Z n * of_fix ln2) in
  let m := of_fix (exp_series 60 0 scale r 0) in
  if (0 <=? n)%Z then Qred (m * inject_Z (2 ^ n)) else Qred (m / inject_Z (2 ^ (- n))).

Definition pow (x y : Q) : Q :=
  let y' := Qred y in
  if Pos.eqb (Qden y') 1 then Qred (Qpower x (Qnum y'))
  else if Qleb x 0 then 0
  else exp (y * log x).

Definition digits (z : Z) : string := NilEmpty.string_of_uint (N.to_uint (Z.to_N z)).

Fixpoint zeros (n : nat) : string :=
  match n with
  | O => ""
  | S n => String "0" (zeros n)
  end.

Definition pad_left (n : nat) (s : string) : string :=
  (zeros (n - String.length s) ++ s)%string.

(** [x.toFixed(n)]: the integer nearest to [x * 10^n], ties upwards. *)
Definition fixed (x : Q) (n : nat) : string :=
  let neg := Qltb x 0 in
  let ax := if neg then - x else x in
  let m := Qfloor (ax * inject_Z (10 ^ Z.of_nat n) + (1 # 2)) in
  let ds := pad_left (S n) (digits m) in
  let whole := String.substring 0 (String.length ds - n) ds in
  let frac := String.substring (String.length ds - n) n ds in
  ((if neg then "-" else "") ++ whole ++ (if Nat.eqb n 0 then "" else "." ++ frac))%string.

(** The decimal text of an integer; six decimals otherwise. *)
Definition number_text (x : Q) : string :=
  let x' := Qred x in
  if Pos.eqb (Qden x') 1 then
    ((if (Qnum x' <? 0)%Z then "-" else "") ++
     (if (Qnum x' =? 0)%Z then "0" else digits (Z.abs (Qnum x'))))%string
  else fixed x 6.

Definition platform : Platform :=
  {| Math_sqrt := sqrt; Math_log := log; Math_cos := cos; Math_exp := exp;
     Math_pow := pow; Math_PI := PI;
     numberToString := number_text; toFixed := fixed |}.
End Ref.

(** ** Runs *)

Section Runs.
Variable P : Platform.

(** [k] calls of [stepDay], the call number [i] (from 0) answered by the
    world [ws i]: the results in order and the simulation after them. *)
Fixpoint stepDays (ws : nat -> World) (fuel : nat) (k : nat) (sim : CooperationSimulation)
  : Res (list SimulationStepResult * CooperationSimulation) :=
  match k with
  | O => Ok ([], sim)
  | S k =>
      '(results, sim) <- stepDays ws fuel k sim ;;
      '(r, sim) <- stepDay P (ws k) fuel sim ;;
      Ok (results ++ [r], sim)
  end.

(** [Initialize(config, seed)] followed by [k] calls of [stepDay]. *)
Definition run (ws : nat -> World) (fuel : nat) (config : ScenarioConfig) (seed : Z) (k : nat)
  : Res (list SimulationStepResult * CooperationSimulation) :=
  sim <- CooperationSimulation_initialize P config seed ;;
  stepDays ws fuel k sim.

(** The sequence of snapshots of a run. *)
Definition trajectory (ws : nat -> World) (fuel : nat) (config : ScenarioConfig) (seed : Z)
           (k : nat) : Res (list SimulationState) :=
  '(results, _) <- run ws fuel config seed k ;;
  Ok (map newState results).
End Runs.

(** ** Concrete scenarios *)

(** A world with no adapter configured. *)
Definition offline : World :=
  {| OPENAI_API_KEY := None; BEDROCK_CONVERSE_URL := None; BEDROCK_CONVERSE_MODEL := None;
     OLLAMA_HOST := None; openai_responses := fun _ => None; bedrock_converse := fun _ => None;
     ollama_generate := fun _ => None |}.

(** A world whose three adapters are configured and answer. *)
Definition online : World :=
  {| OPENAI_API_KEY := Some "key"; BEDROCK_CONVERSE_URL := Some "url";
     BEDROCK_CONVERSE_MODEL := Some "model"; OLLAMA_HOST := Some "host";
     openai_responses := fun _ => Some (Some "gather first");
     bedrock_converse := fun _ => Some None;
     ollama_generate := fun _ => Some "rest" |}.

Definition gather : ScenarioTask :=
  {| task_id := "gather"; task_name := "gather"; category := foraging;
     successProbability := 0.8; yieldPerParticipant := Some 4;
     yieldPerParticipantOnSuccess := None; energyCost := 1; injuryRiskMultiplier := 1;
     minParticipants := 2; recommendedParticipants := 2; norm := equal_share |}.

(** Three agents, one two-person task, a social memory horizon of one day. *)
Definition demo : ScenarioConfig :=
  {| config_name := "demo"; displayName := "Demo"; seasonLengthDays := 30;
     seasons := [{| season_name := spring; resourceMultiplier := 1; climateNoise := 0 |}];
     resources := {| basePlantRate := 10; baseSmallGameRate := 2; baseLargeGameRate := 1;
                     poissonGamma_shape := 2; poissonGamma_scale := 1; logGaussian := None;
                     seasonalLargeGameBonus := [] |};
     hazards := {| hazards_base := {| injury := 0.1; hypothermia := 0; predator := 0 |};
                   hazards_seasonal := Some [] |};
     tasks := [gather];
     agentPopulation :=
       {| size := 3; skillProfiles := [("gathering", (0.5, 0.1))];
          socialPreferences := {| alphaMean := 0.5; alphaStd := 0.1; betaMean := 0.3;
                                  betaStd := 0.1; sp_reputationWeight := 0.5;
                                  sp_normPenalty := 0.2 |} |};
     cognition := {| socialMemoryHorizonDays := 1; episodicWindowDays := 7;
                     reflectionIntervalDays := 3; emotion_decay := 0.1;
                     baselineValence := 0; baselineArousal := 0.3 |};
     network_decay := 0.1;
     logging := {| eventLog := true; taskLog := true; networkLog := false;
                   causalGraph := false |};
     planTemplate := "Plan."; dailyEnergyNeed := 2 |}.

(** An agent outside any run, with one skill. *)
Definition villager (name skillName : string) (level : Q) : AgentState :=
  {| id := name; name := name; campId := "Camp-A"; energy := 2; hungerDebt := 0;
     emotion := {| valence := 0; arousal := 0; mood := 0 |};
     fehrSchmidt := {| alpha := 0.5; beta := 0.3; reputationWeight := 0.5; normPenalty := 0.2 |};
     reputation := 0.5; skillset := [(skillName, level)];
     preferences := {| riskTolerance := 0.5; normativeAlignment := 0.5; socialGoalWeight := 0.5;
                       survivalGoalWeight := 0.5; memoryFocus := 0.5 |};
     semanticMemory := {| resourceExpectations := 1; normExpectation := 0.5 |};
     socialMemory := []; episodicMemory := []; lastReflectionDay := -(1); lastActions := [] |}.

Definition barren : ResourceLevel := {| plants := 0; smallGame := 0; largeGame := 0 |}.

(** The sum of the per-participant reward shares and of the per-participant
    energy costs of a list of executions. *)
Definition sumShares (execs : list TaskExecution) : Q :=
  Qsum (map (fun e => Qsum (map snd (rewards e))) execs).
Definition sumCosts (execs : list TaskExecution) : Q :=
  Qsum (map (fun e => Qsum (map snd (exec_energyCost e))) execs).
Definition sumRewards (execs : list TaskExecution) : Q :=
  Qsum (map (fun e => reward (assignment e)) execs).

(** ** Specification predicates *)

(** The heuristic path of [plan]: every adapter is disabled or fails. *)
Definition llm_unavailable (w : World) : Prop :=
  forall a, In a adapters ->
            isEnabled a w = false \/ forall request prompt, generatePlan a w request prompt = None.

Definition no_adapter_enabled (w : World) : Prop :=
  forall a, In a adapters -> isEnabled a w = false.

(** The social memory an agent keeps: one entry per partner, and every
    entry behind the first within the horizon of the first. *)
Definition fresh_behind_head (window : Q) (memory : list SocialMemoryEntry) : Prop :=
  match memory with
  | [] => True
  | h :: t => forall e, In e t -> lastInteractionDay h - lastInteractionDay e <= window
  end.

(** The edge map of a network: every key is the key of its edge, and no
    key occurs twice. *)
Definition edges_wf (es : list (string * NetworkEdge)) : Prop :=
  NoDup (map fst es)
  /\ forall k e, In (k, e) es -> k = makeKey (source e) (target e).

(** At most one edge for an ordered pair of endpoints. *)
Definition one_edge_per_pair (es : list NetworkEdge) : Prop :=
  forall i j e1 e2,
    nth_error es i = Some e1 -> nth_error es j = Some e2 ->
    source e1 = source e2 -> target e1 = target e2 -> i = j.




Definition hunt : ScenarioTask :=
  {| task_id := "hunt"; task_name := "hunt"; category := hunting;
     successProbability := 0.5; yieldPerParticipant := None;
     yieldPerParticipantOnSuccess := Some 12; energyCost := 2; injuryRiskMultiplier := 2;
     minParticipants := 2; recommendedParticipants := 3; norm := proportional_skill |}.

(** A plan request with two pending tasks. *)
Definition two_task_request : PlanRequest :=
  {| req_day := 0; req_season := spring;
     req_environment :=
       {| day := 0; seasonIndex := 0; seasonDay := 0;
          resourceLevel := {| plants := 10; smallGame := 2; largeGame := 1 |};
          climateShock := 0;
          riskModifier := {| injury := 0.1; hypothermia := 0; predator := 0 |} |};
     req_agents := [villager "ada" "gathering" 0.5; villager "bo" "hunting" 0.9];
     pendingTasks := [gather; hunt] |}.

(** A two-person vigil under the collective-penalty norm, certain to
    succeed for two skilled crafters. *)
Definition vigil : ScenarioTask :=
  {| task_id := "vigil"; task_name := "vigil"; category := public_good;
     successProbability := 1; yieldPerParticipant := Some 4;
     yieldPerParticipantOnSuccess := None; energyCost := 1; injuryRiskMultiplier := 0;
     minParticipants := 1; recommendedParticipants := 2; norm := collective_penalty |}.

Definition crafters : list AgentState :=
  [villager "ada" "crafting" 1.2; villager "bo" "crafting" 1.2].

Definition vigil_executions : list TaskExecution :=
  fst (assignTasks Ref.platform demo (SeededRandom_new 1) crafters barren (Some [vigil])).

(** The foraging task of the equal-share scenario, and two foragers of
    average skill. *)
Definition forage : ScenarioTask :=
  {| task_id := "foraging"; task_name := "foraging"; category := foraging;
     successProbability := 1; yieldPerParticipant := Some 4;
     yieldPerParticipantOnSuccess := None; energyCost := 1; injuryRiskMultiplier := 1;
     minParticipants := 2; recommendedParticipants := 2; norm := equal_share |}.

(** The success probability that [computeSuccessProbability] gives two
    participants of a foraging task with the configured probability 1:
    [clamp01(1 + participantBonus + skillBonus + resourceBonus)]. *)
Definition pair_probability (P : Platform) (task : ScenarioTask) (a1 a2 : AgentState)
           (res : ResourceLevel) : Q :=
  clamp01 (1
           + 0.05 * Math_max (2 - minParticipants task) 0
           + 0.1 * ((skill a1 "gathering" + skill a2 "gathering") / 2 - 0.5)
           + (if Qltb 0 (plants res) then 0.05 * Math_log P (1 + plants res) else -(0.1))).

(** The draw that [assignTasks] compares with the success probability of
    the first task of two agents: the one after the shuffle. *)
Definition pair_draw (rng : SeededRandom) (a1 a2 : AgentState) : Q :=
  fst (next (snd (shuffle rng [a1; a2]))).

Definition foragers : list AgentState :=
  [villager "ada" "gathering" 0.5; villager "bo" "gathering" 0.5].

Definition forage_executions (seed : Z) (level : ResourceLevel) : list TaskExecution :=
  fst (assignTasks Ref.platform demo (SeededRandom_new seed) foragers level (Some [forage])).

(** What the candidates loop keeps true of the participants chosen so far
    and of the pool: the chosen agents come from [shuffled], were in the
    pool and passed the hunting gate; the pool is the initial pool without
    them. *)
Definition collect_ok (task : ScenarioTask) (shuffled : list AgentState) (avail0 : list string)
           (acc : list AgentState * list string) : Prop :=
  (forall a, In a (fst acc) ->
             In a shuffled /\ In (id a) avail0
             /\ (is_hunting task = true -> Qltb (skill a "hunting") 0.3 = false))
  /\ (forall k, In k (snd acc) <-> In k avail0 /\ ~ In k (map id (fst acc)))
  /\ (NoDup avail0 -> NoDup (snd acc)).

(** An execution made for [task] whose participants, when the task is a
    hunt, all have a hunting skill (0.5 when unset) of at least 0.3. *)
Definition gate_passed (agents : list AgentState) (task : ScenarioTask) (e : TaskExecution)
  : Prop :=
  taskId (assignment e) = task_id task
  /\ (category task = hunting ->
      forall pid, In pid (participants (assignment e)) ->
                  exists a, In a agents /\ id a = pid /\ 0.3 <= skill a "hunting").

(** The hunting scenario: three agents, one of them below the gate. *)
Definition hunters : list AgentState :=
  [villager "ada" "hunting" 0.1; villager "bo" "hunting" 0.5; villager "cy" "hunting" 0.9].


Definition fertile : ResourceLevel := {| plants := 10; smallGame := 2; largeGame := 1 |}.


(** A camp watch against predators, filed as the maintenance task. *)
Definition camp_watch : ScenarioTask :=
  {| task_id := "camp_maintenance"; task_name := "camp watch"; category := hunting;
     successProbability := 1; yieldPerParticipant := None;
     yieldPerParticipantOnSuccess := None; energyCost := 1; injuryRiskMultiplier := 0;
     minParticipants := 1; recommendedParticipants := 3; norm := equal_share |}.

Definition watch_executions : list TaskExecution :=
  fst (assignTasks Ref.platform demo (SeededRandom_new 1) hunters fertile
                   (Some [hunt; camp_watch])).

(** ** Invariants of a run *)

(** Every edge left in the map weighs at least 0.01. *)
Definition edges_heavy (es : list (string * NetworkEdge)) : Prop :=
  forall k e, In (k, e) es -> 0.01 <= weight e.

(** Every skill of an agent is non-negative. *)
Definition skills_nonneg (a : AgentState) : Prop :=
  forall k v, In (k, v) (skillset a) -> 0 <= v.

(** The social memory of an agent has one entry per partner, and the
    entries behind the first are within the horizon of the first. *)
Definition memory_ok (window : Q) (a : AgentState) : Prop :=
  NoDup (map partnerId (socialMemory a)) /\ fresh_behind_head window (socialMemory a).

Definition agent_ok (config : ScenarioConfig) (a : AgentState) : Prop :=
  skills_nonneg a /\ memory_ok (socialMemoryHorizonDays (cognition config)) a.

(** Between two steps the logger holds nothing. *)
Definition logger_idle (config : ScenarioConfig) (l : SimulationLogger) : Prop :=
  l = SimulationLogger_new (eventLog (logging config)) (causalGraph (logging config)).

Definition sim_inv (sim : CooperationSimulation) : Prop :=
  edges_wf (edges (sim_network sim))
  /\ edges_heavy (edges (sim_network sim))
  /\ logger_idle (sim_config sim) (sim_logger sim)
  /\ Forall (agent_ok (sim_config sim)) (sim_agents sim).

(** Every reward share of an execution is non-negative. *)
Definition rewards_nonneg (e : TaskExecution) : Prop :=
  forall k v, In (k, v) (rewards e) -> 0 <= v.

(** Two states of an agent with the same identity, skills and social
    memory. *)
Definition same_core (a b : AgentState) : Prop :=
  id a = id b /\ skillset a = skillset b /\ socialMemory a = socialMemory b.

(** What [applyExecutions] keeps true while it runs: the agents and the
    network are in order and the logger has the switches of the
    configuration. *)
Definition apply_ok (config : ScenarioConfig) (st : ApplyState) : Prop :=
  Forall (agent_ok config) (ap_agents st)
  /\ edges_wf (edges (ap_network st))
  /\ edges_heavy (edges (ap_network st))
  /\ enabled_events (ap_logger st) = eventLog (logging config)
  /\ enabled_causal (ap_logger st) = causalGraph (logging config).

(** A step result whose snapshot shows the agents and the network of a
    simulation in order. *)
Definition snapshot_ok (config : ScenarioConfig) (r : SimulationStepResult) : Prop :=
  exists sim,
    sim_inv sim /\ sim_config sim = config
    /\ st_network (newState r) = toState (sim_network sim)
    /\ st_agents (newState r) = sim_agents sim.

(** Three days of the demo scenario from seed 1, without any adapter. *)
Abbreviation demo_run := (run Ref.platform (fun _ => offline) 50 demo 1 3).

(** A snapshot with no agent and no edge, to resume from a given seed. *)
Definition bare_snapshot (seed : Z) : SimulationState :=
  {| st_environment :=
       {| day := 0; seasonIndex := 0; seasonDay := 0;
          resourceLevel := {| plants := 10; smallGame := 2; largeGame := 1 |};
          climateShock := 0;
          riskModifier := {| injury := 0.1; hypothermia := 0; predator := 0 |} |};
     st_agents := [];
     st_network := {| ns_edges := []; ns_forgetFactor := 0.1; ns_campMembership := [] |};
     rngSeed := seed;
     environmentRngSeed := seed |}.

(** A world whose first adapter is configured and fails. *)
Definition broken : World :=
  {| OPENAI_API_KEY := Some "key"; BEDROCK_CONVERSE_URL := None;
     BEDROCK_CONVERSE_MODEL := None; OLLAMA_HOST := None;
     openai_responses := fun _ => None; bedrock_converse := fun _ => Some (Some "hunt");
     ollama_generate := fun _ => Some "rest" |}.

(** ** Further specification predicates *)

(** The generator after [n] draws. *)
Definition drawn (n : N) (rng : SeededRandom) : SeededRandom :=
  N.iter n (fun r => snd (next r)) rng.

(** A number between 0 and 1. *)
Definition probability (q : Q) : Prop := 0 <= q /\ q <= 1.

(** A configuration without its seasons. *)
Definition without_seasons (c : ScenarioConfig) : ScenarioConfig :=
  {| config_name := config_name c; displayName := displayName c;
     seasonLengthDays := seasonLengthDays c; seasons := [];
     resources := resources c; hazards := hazards c; tasks := tasks c;
     agentPopulation := agentPopulation c; cognition := cognition c;
     network_decay := network_decay c; logging := logging c;
     planTemplate := planTemplate c; dailyEnergyNeed := dailyEnergyNeed c |}.

(** A configuration without the table of seasonal hazards. *)
Definition without_seasonal_hazards (c : ScenarioConfig) : ScenarioConfig :=
  {| config_name := config_name c; displayName := displayName c;
     seasonLengthDays := seasonLengthDays c; seasons := seasons c;
     resources := resources c;
     hazards := {| hazards_base := hazards_base (hazards c); hazards_seasonal := None |};
     tasks := tasks c;
     agentPopulation := agentPopulation c; cognition := cognition c;
     network_decay := network_decay c; logging := logging c;
     planTemplate := planTemplate c; dailyEnergyNeed := dailyEnergyNeed c |}.

(** The demo scenario without seasons and without seasonal hazards. *)
Definition seasonless : ScenarioConfig := without_seasonal_hazards (without_seasons demo).

(** The environment before the first day. *)
Definition day_zero : EnvironmentState :=
  {| day := 0; seasonIndex := 0; seasonDay := 0;
     resourceLevel := {| plants := 10; smallGame := 2; largeGame := 1 |};
     climateShock := 0;
     riskModifier := {| injury := 0.1; hypothermia := 0; predator := 0 |} |}.

(** The ranges [updateEmotion] and [updateSocialMemory] clamp to. *)
Definition emotion_ok (e : EmotionState) : Prop :=
  -(1) <= valence e /\ valence e <= 1 /\ 0 <= arousal e /\ arousal e <= 1.5
  /\ -(1) <= mood e /\ mood e <= 1.

Definition scores_ok (e : SocialMemoryEntry) : Prop :=
  -(1) <= reciprocity e /\ reciprocity e <= 1 /\ -(1) <= sentiment e /\ sentiment e <= 1.

(** An episodic memory whose entries behind the first are within the
    window of the first. *)
Definition episodic_fresh (window : Q) (m : list EpisodicMemoryEntry) : Prop :=
  match m with
  | [] => True
  | h :: t => forall e, In e t -> ep_day h - ep_day e <= window
  end.

(** The bounds of an agent's state. *)
Definition agent_bounded (config : ScenarioConfig) (a : AgentState) : Prop :=
  0 <= energy a /\ 0 <= hungerDebt a /\ 0 <= reputation a /\ reputation a <= 1
  /\ emotion_ok (emotion a)
  /\ Forall scores_ok (socialMemory a)
  /\ episodic_fresh (episodicWindowDays (cognition config)) (episodicMemory a).

(** Two states of one agent: what no step changes, and the hunger debt,
    which no step lowers. *)
Definition same_person (a b : AgentState) : Prop :=
  id a = id b /\ name a = name b /\ campId a = campId b /\ fehrSchmidt a = fehrSchmidt b
  /\ skillset a = skillset b /\ preferences a = preferences b
  /\ semanticMemory a = semanticMemory b /\ hungerDebt a <= hungerDebt b.

(** What a step keeps of every agent. *)
Definition keeps (config : ScenarioConfig) (a b : AgentState) : Prop :=
  same_person a b /\ (agent_bounded config a -> agent_bounded config b).

(** The agent that [initializeAgents] makes at index [i]. *)
Definition newborn (config : ScenarioConfig) (i : nat) (a : AgentState) : Prop :=
  id a = buildAgentId i
  /\ name a = ("Forager-" ++ string_of_nat (i + 1))%string
  /\ campId a = nth (i mod 3) camps ""
  /\ energy a = dailyEnergyNeed config * 1.2
  /\ hungerDebt a = 0
  /\ reputation a = 0.5
  /\ emotion a = {| valence := baselineValence (cognition config);
                    arousal := baselineArousal (cognition config);
                    mood := baselineValence (cognition config) |}
  /\ socialMemory a = [] /\ episodicMemory a = [] /\ lastActions a = []
  /\ (0 <= alpha (fehrSchmidt a) /\ alpha (fehrSchmidt a) <= 2)
  /\ (0 <= beta (fehrSchmidt a) /\ beta (fehrSchmidt a) <= 2)
  /\ probability (reputationWeight (fehrSchmidt a))
  /\ probability (normPenalty (fehrSchmidt a))
  /\ (probability (riskTolerance (preferences a))
      /\ probability (normativeAlignment (preferences a))
      /\ probability (socialGoalWeight (preferences a))
      /\ probability (survivalGoalWeight (preferences a))
      /\ probability (memoryFocus (preferences a)))
  /\ (forall k v, In (k, v) (skillset a) ->
                  0 <= v /\ v <= 1.2
                  /\ In k (map fst (skillProfiles (agentPopulation config)))).

(** The entry [applyDecay] leaves for an edge: none below the threshold. *)
Definition decayed (decay : Q) (entry : string * NetworkEdge) : list (string * NetworkEdge) :=
  if Qltb (weight (snd entry) * decay) 0.01 then []
  else [(fst entry, set_weight (snd entry) (weight (snd entry) * decay))].

Definition edge_key (e : NetworkEdge) : string := makeKey (source e) (target e).

(** The ids of the agents at work in a list of executions. *)
Definition assigned (execs : list TaskExecution) : list string :=
  flat_map (fun e => participants (assignment e)) execs.

(** An execution made by the loop of [assignTasks] for [task] out of the
    participants [parts]. *)
Definition made_for (task : ScenarioTask) (parts : list AgentState) (e : TaskExecution) : Prop :=
  taskId (assignment e) = task_id task
  /\ participants (assignment e) = map id parts
  /\ minParticipants task <= ofNat (length parts)
  /\ (length parts = O \/ ofNat (length parts) - 1 < recommendedParticipants task)
  /\ rewards e = computeShare task parts (reward (assignment e))
  /\ exec_energyCost e = computeEnergyCost task parts.

(** What holds of every execution of a day, made by the loop or by the
    idle fallback. *)
Definition consistent (e : TaskExecution) : Prop :=
  (forall k, In k (injuries (assignment e)) -> In k (participants (assignment e)))
  /\ probability (exec_successProbability e)
  /\ (outcome (assignment e) = failure ->
      reward (assignment e) = 0 /\ forall k v, In (k, v) (rewards e) -> v = 0).

(** The pool of available agents and the agents at work, between two
    tasks of the loop: together they are the agents, each once. *)
Definition pool_ok (ids : list string) (st : AssignState) : Prop :=
  NoDup (availableAgents st)
  /\ NoDup (assigned (executions st))
  /\ (forall k, In k ids <-> In k (assigned (executions st)) \/ In k (availableAgents st))
  /\ (forall k, In k (assigned (executions st)) -> In k (availableAgents st) -> False).

(** A task with the id the idle fallback looks for. *)
Definition has_maintenance (config : ScenarioConfig) (taskList : list ScenarioTask) : Prop :=
  exists task, (In task taskList \/ In task (tasks config)) /\ task_id task = "camp_maintenance".

(** The answers of the three adapters, as [generatePlan] renders them. *)
Definition openai_plan (text : option string) : PlanResponse :=
  {| plans := [{| agentId := "group"; intent := String.substring 0 2000 (orElse text "");
                  rationale := "llm_plan" |}];
     provider := "openai-responses" |}.

Definition bedrock_plan (text : option string) : PlanResponse :=
  {| plans := [{| agentId := "group"; intent := orElse text ""; rationale := "bedrock_plan" |}];
     provider := "bedrock-converse" |}.

Definition ollama_plan (text : string) : PlanResponse :=
  {| plans := [{| agentId := "group"; intent := text; rationale := "ollama_plan" |}];
     provider := "ollama" |}.

(** An adapter that does not answer a prompt: disabled, or failing. *)
Definition silent (a : Adapter) (w : World) (request : PlanRequest) (prompt : string) : Prop :=
  isEnabled a w = false \/ generatePlan a w request prompt = None.

Definition causal_link (l : string * string * Q) : CausalLink :=
  {| cl_source := fst (fst l); cl_target := snd (fst l); cl_weight := snd l |}.

(** A result that holds a positive number, if it holds one. *)
Definition positive_result (r : Res (Q * SeededRandom)) : Prop :=
  match r with Ok (g, _) => 0 < g | _ => True end.

(** The ids of the agents at work in the assignments of a day. *)
Definition workers (l : list TaskAssignment) : list string := flat_map participants l.

(** The ids of a population of [n] agents. *)
Definition population (n : nat) : list string := map buildAgentId (seq 0 n).

(** An assignment that injures none but its participants and pays nothing
    on failure. *)
Definition sound (a : TaskAssignment) : Prop :=
  incl (injuries a) (participants a) /\ (outcome a = failure -> reward a = 0).

(** The share that [computeShare] gives the participant at position [i]
    of [agents] out of a positive reward [T]. *)
Definition share_of (task : ScenarioTask) (agents : list AgentState) (T : Q) (i : nat)
           (a : AgentState) : Q :=
  match norm task with
  | equal_share => T / ofNat (length agents)
  | proportional_skill =>
      let total := fold_left (fun acc agent => acc + skill agent (skillKey task)) agents 0 in
      T * (skill a (skillKey task) / (if truthy total then total else ofNat (length agents)))
  | key_contributor_reward =>
      let elite := elite_positions (skillKey task) agents in
      (T - T * 0.25) / ofNat (length agents)
      + (if existsb (Nat.eqb i) elite then T * 0.25 / ofNat (length elite) else 0)
  | collective_penalty => 0
  end.

(** ** Further inputs *)

(** A network of two edges, one of them light. *)
Definition acquaintances : NetworkState :=
  {| ns_edges := [ {| source := "agent_1"; target := "agent_2"; weight := 1 |};
                   {| source := "agent_2"; target := "agent_1"; weight := 0.005 |} ];
     ns_forgetFactor := 0.1;
     ns_campMembership := [("agent_1", "Camp-A")] |}.

(** Three agents outside any run. *)
Definition trio : list AgentState :=
  [villager "ada" "gathering" 0.5; villager "bob" "gathering" 0.6;
   villager "cyd" "gathering" 0.7].

(** A plan that names no task. *)
Definition idle_response : PlanResponse :=
  {| plans := [{| agentId := "none"; intent := "rest and monitor resources";
                  rationale := "idle_day" |}];
     provider := "heuristic" |}.
(** * Properties *)

(** ** Sanity checks *)

Example first_word_of_seed_0 : next_word 0 = 1144304738%Z.
Proof. vm_compute. reflexivity. Qed.

Example state_after_one_draw : state (snd (next (SeededRandom_new 1))) = 1831565814%Z.
Proof. vm_compute. reflexivity. Qed.

Example shuffle_of_three :
  fst (shuffle (SeededRandom_new 1) ["a"; "b"; "c"]) = ["c"; "a"; "b"].
Proof. vm_compute. reflexivity. Qed.

Example toFixed_examples :
  (Ref.fixed 3.14159 2, Ref.fixed (-(0.001)) 2, Ref.fixed 0.005 2, Ref.fixed 12 0)
  = ("3.14", "-0.00", "0.01", "12").
Proof. vm_compute. reflexivity. Qed.

Example includes_examples :
  (includes "allocate 2 participants to gather" "gather", includes "abc" "", includes "" "a")
  = (true, true, false).
Proof. vm_compute. reflexivity. Qed.

Example sort_is_stable :
  sort (fun a b : nat * string => ofNat (fst a) - ofNat (fst b))
       [(2%nat, "a"); (1%nat, "b"); (2%nat, "c"); (1%nat, "d")]
  = [(1%nat, "b"); (1%nat, "d"); (2%nat, "a"); (2%nat, "c")].
Proof. vm_compute. reflexivity. Qed.

Example fehrSchmidt_of_equal_shares : fehrSchmidtUtility 4 [4; 4; 4] 0.5 0.3 == 4.
Proof. vm_compute. reflexivity. Qed.

Example first_enabled_adapter_answers :
  provider (plan Ref.platform online demo two_task_request) = "openai-responses".
Proof. vm_compute. reflexivity. Qed.

Example plan_orders_tasks :
  map task_id (orderTasksByPlan {| plans := [{| agentId := "group"; intent := "Hunt first";
                                                 rationale := "llm_plan" |}];
                                   provider := "ollama" |}
                                [gather; hunt])
  = ["hunt"; "gather"].
Proof. vm_compute. reflexivity. Qed.

(** ** Comparisons and bounds *)

Lemma Qltb_lt (a b : Q) : Qltb a b = true <-> a < b.
Proof. unfold Qltb, Qlt. apply Z.ltb_lt. Qed.

Lemma Qltb_ge (a b : Q) : Qltb a b = false <-> b <= a.
Proof. unfold Qltb, Qle. rewrite Z.ltb_ge. reflexivity. Qed.

Lemma Qleb_le (a b : Q) : Qleb a b = true <-> a <= b.
Proof. unfold Qleb, Qle. apply Z.leb_le. Qed.

Lemma Qleb_gt (a b : Q) : Qleb a b = false <-> b < a.
Proof. unfold Qleb, Qlt. rewrite Z.leb_gt. reflexivity. Qed.

Lemma Qeqb_eq (a b : Q) : Qeqb a b = true <-> a == b.
Proof. unfold Qeqb, Qeq. apply Z.eqb_eq. Qed.

Lemma Qeqb_neq (a b : Q) : Qeqb a b = false <-> ~ a == b.
Proof. unfold Qeqb, Qeq. apply Z.eqb_neq. Qed.

Ltac qcases :=
  repeat match goal with
         | |- context [Qltb ?a ?b] =>
             let H := fresh "H" in
             destruct (Qltb a b) eqn:H; [apply Qltb_lt in H | apply Qltb_ge in H]
         | |- context [Qleb ?a ?b] =>
             let H := fresh "H" in
             destruct (Qleb a b) eqn:H; [apply Qleb_le in H | apply Qleb_gt in H]
         end.

Lemma Math_max_l (a b : Q) : a <= Math_max a b.
Proof. unfold Math_max. qcases; lra. Qed.

Lemma Math_max_r (a b : Q) : b <= Math_max a b.
Proof. unfold Math_max. qcases; lra. Qed.

Lemma Math_min_r (a b : Q) : Math_min a b <= b.
Proof. unfold Math_min. qcases; lra. Qed.

Lemma clamp_lower (v lo hi : Q) : lo <= clamp v lo hi.
Proof. unfold clamp. apply Math_max_l. Qed.

Lemma ofNat_nonneg (n : nat) : 0 <= ofNat n.
Proof. unfold ofNat, Qle. simpl. lia. Qed.

Lemma ofNat_pos (n : nat) : (0 < n)%nat -> 0 < ofNat n.
Proof. intros H. unfold ofNat, Qlt. simpl. lia. Qed.

(** ** The generator *)

Lemma ToUint32_ToInt32 (x : Z) : ToUint32 (ToInt32 x) = ToUint32 x.
Proof.
  unfold ToUint32, ToInt32.
  rewrite (Z.mod_eq (x + 2147483648) 4294967296) by lia.
  replace (x + 2147483648 - 4294967296 * ((x + 2147483648) / 4294967296) - 2147483648)%Z
    with (x + (- ((x + 2147483648) / 4294967296)) * 4294967296)%Z by lia.
  apply Z.mod_add. lia.
Qed.

Lemma ToUint32_next_state (s : Z) :
  ToUint32 (next_state s) = ((ToUint32 s + 1831565813) mod 4294967296)%Z.
Proof.
  unfold next_state. rewrite ToUint32_ToInt32.
  pose proof (ToUint32_ToInt32 s) as H. unfold ToUint32 in *.
  rewrite Z.add_mod by lia. rewrite H.
  rewrite (Z.add_mod (s mod 4294967296) 1831565813) by lia.
  rewrite Z.mod_mod by lia. reflexivity.
Qed.

(** A draw moves the generator: as 32-bit words the state after differs
    from the state before. *)
Lemma next_state_moves (s : Z) : (ToUint32 (next_state s) =? ToUint32 s)%Z = false.
Proof.
  apply Z.eqb_neq. rewrite ToUint32_next_state.
  assert (H : (0 <= ToUint32 s < 4294967296)%Z) by (apply Z.mod_pos_bound; lia).
  remember (ToUint32 s) as u.
  destruct (Z_lt_ge_dec (u + 1831565813) 4294967296) as [Hlt | Hge].
  - rewrite Z.mod_small by lia. lia.
  - replace (u + 1831565813)%Z with ((u + 1831565813 - 4294967296) + 1 * 4294967296)%Z by lia.
    rewrite Z.mod_add by lia. rewrite Z.mod_small by lia. lia.
Qed.

Lemma next_word_range (s : Z) : (0 <= next_word s < 4294967296)%Z.
Proof. unfold next_word, ToUint32. apply Z.mod_pos_bound. lia. Qed.

Lemma next_unit_interval (rng : SeededRandom) : 0 <= fst (next rng) /\ fst (next rng) < 1.
Proof.
  unfold next. cbn [fst]. pose proof (next_word_range (state rng)) as H.
  remember (next_word (state rng)) as n. unfold ofZ.
  split.
  - apply Qle_shift_div_l; [reflexivity | ]. rewrite Qmult_0_l.
    change 0 with (inject_Z 0). rewrite <- Zle_Qle. lia.
  - apply Qlt_shift_div_r; [reflexivity | ]. rewrite Qmult_1_l.
    change 4294967296 with (inject_Z 4294967296). rewrite <- Zlt_Qlt. lia.
Qed.

(** ** C10: [serialize] draws from the generator *)

(** C10 (as amended).  Every call of [serialize] consumes exactly one draw
    of the generator: [rngSeed] and [environmentRngSeed] are both
    [floor(next() * 1e9)], nothing but the generator changes, and the
    generator is left one draw further, in a state that differs (as a
    32-bit word) from the state before; a second call draws its seed from
    that later state, and a following [stepDay] starts from it. *)
Theorem serialize_consumes_one_draw :
  forall sim : CooperationSimulation,
    rngSeed (fst (serialize sim)) = Math_floor (fst (next (sim_rng sim)) * 1000000000)
    /\ environmentRngSeed (fst (serialize sim)) = rngSeed (fst (serialize sim))
    /\ snd (serialize sim) = set_rng sim (snd (next (sim_rng sim)))
    /\ (ToUint32 (state (sim_rng (snd (serialize sim))))
        =? ToUint32 (state (sim_rng sim)))%Z = false
    /\ rngSeed (fst (serialize (snd (serialize sim))))
       = Math_floor (fst (next (snd (next (sim_rng sim)))) * 1000000000)
    /\ (forall P w fuel,
           stepDay P w fuel (snd (serialize sim))
           = stepDay P w fuel (set_rng sim (snd (next (sim_rng sim))))).
Proof.
  intros sim.
  assert (Hs : serialize sim
               = ({| st_environment := sim_environment sim;
                     st_agents := deepCloneAgents (sim_agents sim);
                     st_network := toState (sim_network sim);
                     rngSeed := Math_floor (fst (next (sim_rng sim)) * 1000000000);
                     environmentRngSeed := Math_floor (fst (next (sim_rng sim)) * 1000000000) |},
                  set_rng sim (snd (next (sim_rng sim))))).
  { unfold serialize, drawSeed. destruct (next (sim_rng sim)); reflexivity. }
  rewrite Hs. cbn [fst snd rngSeed environmentRngSeed].
  split; [reflexivity | ]. split; [reflexivity | ]. split; [reflexivity | ].
  split; [ | split; [ | reflexivity ] ].
  - unfold set_rng, next. cbn [sim_rng snd state]. apply next_state_moves.
  - unfold serialize, drawSeed. cbn [sim_rng set_rng].
    destruct (next (snd (next (sim_rng sim)))); reflexivity.
Qed.

(** C10 (counterexample).  After [initialize(demo, 2017329539)] the
    generator is in state 242128623, and two consecutive calls of
    [serialize] return the same [rngSeed] and [environmentRngSeed]: the two
    draws give the words 171176269 and 171176266, and
    [floor(w * 1e9 / 2^32)] is 39855080 for both.  The same happens in a
    simulation restored from a snapshot whose [rngSeed] is 242128623. *)
Lemma serialize_twice_same_seed :
  exists sim,
    CooperationSimulation_initialize Ref.platform demo 2017329539 = Ok sim
    /\ state (sim_rng sim) = 242128623%Z
    /\ rngSeed (fst (serialize sim)) = 39855080%Z
    /\ rngSeed (fst (serialize (snd (serialize sim)))) = 39855080%Z
    /\ environmentRngSeed (fst (serialize sim)) = 39855080%Z
    /\ environmentRngSeed (fst (serialize (snd (serialize sim)))) = 39855080%Z
    /\ (next_word 242128623, next_word (next_state 242128623))
       = (171176269%Z, 171176266%Z)
    /\ rngSeed (fst (serialize (fromState demo (bare_snapshot 242128623)))) = 39855080%Z
    /\ rngSeed (fst (serialize (snd (serialize (fromState demo (bare_snapshot 242128623))))))
       = 39855080%Z.
Proof.
  eexists. split; [vm_compute; reflexivity | ].
  split; [vm_compute; reflexivity | ].
  split; [vm_compute; reflexivity | ].
  split; [vm_compute; reflexivity | ].
  split; [vm_compute; reflexivity | ].
  split; [vm_compute; reflexivity | ].
  split; [vm_compute; reflexivity | ].
  split; vm_compute; reflexivity.
Qed.

(** ** C8: the heuristic fallback of [plan] *)

Lemma plan_from_unavailable (P : Platform) (w : World) (request : PlanRequest)
      (prompt : string) (remaining : list Adapter) :
  (forall a, In a remaining ->
             isEnabled a w = false \/ forall r p, generatePlan a w r p = None) ->
  plan_from P w remaining request prompt = heuristicPlan P request prompt.
Proof.
  induction remaining as [| a rest IH]; intros H; [reflexivity | ].
  cbn [plan_from].
  destruct (H a (or_introl eq_refl)) as [Hoff | Hfail].
  - rewrite Hoff. cbn [negb]. apply IH. intros b Hb. apply H. right. exact Hb.
  - rewrite Hfail. destruct (negb (isEnabled a w)); apply IH; intros b Hb; apply H; right; exact Hb.
Qed.

Lemma plan_unavailable (P : Platform) (w : World) (config : ScenarioConfig)
      (request : PlanRequest) :
  llm_unavailable w ->
  plan P w config request = heuristicPlan P request (buildPrompt P config request).
Proof. intros H. unfold plan. apply plan_from_unavailable. exact H. Qed.

Lemma no_adapter_enabled_unavailable (w : World) : no_adapter_enabled w -> llm_unavailable w.
Proof. intros H a Ha. left. apply H. exact Ha. Qed.

Lemma offline_no_adapter : no_adapter_enabled offline.
Proof. intros a [<- | [<- | [<- | []]]]; reflexivity. Defined.

Lemma offline_unavailable : llm_unavailable offline.
Proof. intros a [<- | [<- | [<- | []]]]; left; reflexivity. Defined.



(** ** C4: the energy balance of a day *)

Lemma fold_left_Qplus (l : list Q) (a : Q) : fold_left Qplus l a == a + Qsum l.
Proof.
  unfold Qsum. revert a. induction l as [| x l IH]; intros a; cbn [fold_left].
  - lra.
  - rewrite (IH (a + x)). rewrite (IH (0 + x)). lra.
Qed.

Lemma Qsum_cons (x : Q) (l : list Q) : Qsum (x :: l) == x + Qsum l.
Proof. unfold Qsum at 1. cbn [fold_left]. rewrite fold_left_Qplus. lra. Qed.

Lemma fold_left_Qminus (l : list Q) (a : Q) :
  fold_left (fun b cost => b - cost) l a == a - Qsum l.
Proof.
  revert a. induction l as [| x l IH]; intros a; cbn [fold_left].
  - unfold Qsum. cbn [fold_left]. lra.
  - rewrite IH. rewrite Qsum_cons. lra.
Qed.

Lemma evaluateCooperation_balance_from (step : Q * list Q * Q -> TaskExecution -> Q * list Q * Q)
      (execs : list TaskExecution) :
  (forall acc e,
      fst (fst (step acc e))
      = fold_left (fun b cost => b - cost) (map snd (exec_energyCost e)) (fst (fst acc))
        + reward (assignment e)) ->
  forall acc,
    fst (fst (fold_left step execs acc))
    == fst (fst acc) + sumRewards execs - sumCosts execs.
Proof.
  intros Hstep. unfold sumRewards, sumCosts.
  induction execs as [| e execs IH]; intros acc; cbn [fold_left map].
  - unfold Qsum. cbn [fold_left]. lra.
  - rewrite IH. rewrite Hstep. rewrite fold_left_Qminus. rewrite !Qsum_cons. lra.
Qed.

(** C4 (as amended).  The energy balance of a list of executions is the
    sum of the executions' total rewards ([assignment.reward]) minus the sum
    of the per-participant energy costs. *)
Theorem energyBalance_total_reward_minus_costs :
  forall (execs : list TaskExecution) (agents : list AgentState),
    energyBalance (evaluateCooperation execs agents) == sumRewards execs - sumCosts execs.
Proof.
  intros execs agents. unfold evaluateCooperation.
  match goal with
  | |- context [fold_left ?f execs ?a] =>
      pose proof (evaluateCooperation_balance_from f execs) as H;
      destruct (fold_left f execs a) as [[b s] r] eqn:Hfold
  end.
  cbn [energyBalance].
  assert (Hb : b == fst (fst (0, @nil Q, 0)) + sumRewards execs - sumCosts execs).
  { replace b with (fst (fst (b, s, r))) by reflexivity. rewrite <- Hfold. apply H.
    intros [[b0 s0] r0] e. reflexivity. }
  rewrite Hb. cbn [fst]. lra.
Qed.

(** C4 (counterexample).  Two crafters hold a vigil under the
    collective-penalty norm: the task succeeds with total reward 8, both
    shares are 0 and both costs are 1, so the energy balance is 6 while the
    reward shares minus the energy costs are -2. *)
Lemma energyBalance_is_not_shares_minus_costs :
  map (fun e => (reward (assignment e), rewards e, exec_energyCost e)) vigil_executions
  = [(8, [("ada", 0); ("bo", 0)], [("ada", 1); ("bo", 1)])]
  /\ energyBalance (evaluateCooperation vigil_executions crafters) == 6
  /\ sumShares vigil_executions - sumCosts vigil_executions == -(2)
  /\ Qeqb (energyBalance (evaluateCooperation vigil_executions crafters))
          (sumShares vigil_executions - sumCosts vigil_executions) = false.
Proof.
  split; [vm_compute; reflexivity | ].
  split; [vm_compute; reflexivity | ].
  split; vm_compute; reflexivity.
Qed.

(** ** Records keyed by strings *)

Section RecordLemmas.
Variable V : Type.
Lemma rec_get_set_same (r : list (string * V)) (k : string) (v : V) :
  rec_get (rec_set r k v) k = Some v.
Proof.
  induction r as [| [k' v'] r IH]; cbn [rec_set rec_get].
  - rewrite String.eqb_refl. reflexivity.
  - destruct (String.eqb k' k) eqn:E; cbn [rec_get]; rewrite E; [reflexivity | exact IH].
Qed.

Lemma rec_get_set_other (r : list (string * V)) (k k' : string) (v : V) :
  k <> k' -> rec_get (rec_set r k v) k' = rec_get r k'.
Proof.
  intros Hne. induction r as [| [k0 v0] r IH]; cbn [rec_set rec_get].
  - destruct (String.eqb k k') eqn:E; [apply String.eqb_eq in E; contradiction | reflexivity].
  - destruct (String.eqb k0 k) eqn:E; cbn [rec_get].
    + apply String.eqb_eq in E. subst k0.
      destruct (String.eqb k k') eqn:E'; [apply String.eqb_eq in E'; contradiction | reflexivity].
    + destruct (String.eqb k0 k'); [reflexivity | exact IH].
Qed.

Lemma rec_get_fold_set_const (A : Type) (key : A -> string) (v : V) (l : list A)
      (r : list (string * V)) (k : string) :
  In k (map key l) \/ rec_get r k = Some v ->
  rec_get (fold_left (fun acc a => rec_set acc (key a) v) l r) k = Some v.
Proof.
  revert r. induction l as [| a l IH]; intros r H; cbn [fold_left].
  - destruct H as [[] | H]; exact H.
  - apply IH. cbn [map In] in H.
    destruct (string_dec (key a) k) as [-> | Hne].
    + right. apply rec_get_set_same.
    + destruct H as [[H | H] | H]; [contradiction | left; exact H | ].
      right. rewrite rec_get_set_other by exact Hne. exact H.
Qed.
End RecordLemmas.


(** ** The shuffle is a permutation *)

Lemma list_set_perm (T : Type) (l : list T) (j : nat) (b x : T) :
  nth_error l j = Some b -> Permutation (b :: list_set l j x) (x :: l).
Proof.
  revert j. induction l as [| y l IH]; intros j H.
  - destruct j; discriminate.
  - destruct j as [| j]; cbn [nth_error list_set] in *.
    + injection H as ->. apply perm_swap.
    + eapply perm_trans; [apply perm_swap | ].
      eapply perm_trans; [apply perm_skip, (IH j H) | apply perm_swap].
Qed.

Lemma swap_perm (T : Type) (l : list T) (i j : nat) : Permutation (swap l i j) l.
Proof.
  unfold swap. revert i j. induction l as [| x l IH]; intros i j.
  - destruct i, j; cbn [nth_error]; apply Permutation_refl.
  - destruct i as [| i], j as [| j]; cbn [nth_error].
    + cbn [list_set]. apply Permutation_refl.
    + destruct (nth_error l j) as [b |] eqn:Hj; [ | apply Permutation_refl].
      cbn [list_set]. apply list_set_perm. exact Hj.
    + destruct (nth_error l i) as [a |] eqn:Hi; [ | apply Permutation_refl].
      cbn [list_set]. apply list_set_perm. exact Hi.
    + specialize (IH i j).
      destruct (nth_error l i) as [a |], (nth_error l j) as [b |];
        try apply Permutation_refl.
      cbn [list_set]. apply perm_skip. exact IH.
Qed.

Lemma shuffle_from_perm (T : Type) (i : nat) (rng : SeededRandom) (l : list T) :
  Permutation (fst (shuffle_from i rng l)) l.
Proof.
  revert rng l. induction i as [| i IH]; intros rng l; cbn [shuffle_from].
  - apply Permutation_refl.
  - destruct (next rng) as [u rng'].
    eapply perm_trans; [apply IH | apply swap_perm].
Qed.

Lemma shuffle_perm (T : Type) (rng : SeededRandom) (l : list T) :
  Permutation (fst (shuffle rng l)) l.
Proof. apply shuffle_from_perm. Qed.

(** ** C5: the equal-share norm *)

Lemma fold_left_over_map (A B C : Type) (f : C -> B -> C) (g : A -> B) (l : list A) (c : C) :
  fold_left f (map g l) c = fold_left (fun acc a => f acc (g a)) l c.
Proof. revert c. induction l as [| a l IH]; intros c; cbn [map fold_left]; [reflexivity | apply IH]. Qed.

Lemma computeShare_equal_share (task : ScenarioTask) (agents : list AgentState) (T : Q) (a : AgentState) :
  norm task = equal_share -> In a agents -> 0 <= T ->
  exists v, rec_get (computeShare task agents T) (id a) = Some v /\ v == T / ofNat (length agents).
Proof.
  intros Hnorm Hin HT. unfold computeShare.
  assert (Hlen : (0 < length agents)%nat) by (destruct agents; [destruct Hin | cbn; lia]).
  destruct (Nat.eqb (length agents) 0) eqn:E0; [apply Nat.eqb_eq in E0; lia | ].
  cbn [orb]. destruct (Qleb T 0) eqn:ET.
  - apply Qleb_le in ET. exists 0. split.
    + unfold fromEntries. rewrite fold_left_over_map. cbn [fst snd].
      apply rec_get_fold_set_const with (key := id). left. apply in_map. exact Hin.
    + assert (HT0 : T == 0) by lra. rewrite HT0. unfold Qdiv. lra.
  - rewrite Hnorm. eexists. split; [ | reflexivity].
    apply rec_get_fold_set_const with (key := id). left. apply in_map. exact Hin.
Qed.

Lemma computeShare_nonpositive (task : ScenarioTask) (agents : list AgentState) (T : Q)
      (a : AgentState) :
  In a agents -> T <= 0 -> rec_get (computeShare task agents T) (id a) = Some 0.
Proof.
  intros Hin HT. unfold computeShare.
  apply Qleb_le in HT. rewrite HT. rewrite orb_true_r.
  unfold fromEntries. rewrite fold_left_over_map. cbn [fst snd].
  apply rec_get_fold_set_const with (key := id). left. apply in_map. exact Hin.
Qed.

Lemma eqb_neq_sym (a b : string) : a <> b -> String.eqb b a = false.
Proof. intros H. apply String.eqb_neq. congruence. Qed.

Lemma need_two (task : ScenarioTask) :
  2 <= recommendedParticipants task ->
  Math_min (recommendedParticipants task) (ofNat 2) == 2.
Proof.
  intros H. unfold Math_min. destruct (Qltb (ofNat 2) (recommendedParticipants task)) eqn:E.
  - reflexivity.
  - apply Qltb_ge in E. change (ofNat 2) with 2 in E. lra.
Qed.

Lemma collect_pair (task : ScenarioTask) (need : Q) (x y : AgentState) :
  id x <> id y -> is_hunting task = false -> need == 2 ->
  collectParticipants task need [x; y] [id x; id y] = ([x; y], []).
Proof.
  intros Hid Hh Hneed. unfold collectParticipants. cbn [fold_left].
  assert (H0 : Qleb need (ofNat 0) = false) by (apply Qleb_gt; change (ofNat 0) with 0; lra).
  assert (H1 : Qleb need (ofNat 1) = false) by (apply Qleb_gt; change (ofNat 1) with 1; lra).
  assert (S1 : considerCandidate task need ([], [id x; id y]) x = ([x], [id y])).
  { unfold considerCandidate. cbn [fst snd length app]. rewrite H0, Hh.
    unfold set_has, set_delete. cbn [existsb filter andb]. rewrite String.eqb_refl.
    rewrite (eqb_neq_sym Hid). reflexivity. }
  rewrite S1.
  unfold considerCandidate. cbn [fst snd length app]. rewrite H1, Hh.
  unfold set_has, set_delete. cbn [existsb filter andb]. rewrite String.eqb_refl.
  reflexivity.
Qed.

Lemma clamp01_proper (x y : Q) : x == y -> clamp01 x == clamp01 y.
Proof.
  intros E. unfold clamp01, Math_min.
  destruct (Qltb x 1) eqn:A; destruct (Qltb y 1) eqn:B;
    [apply Qltb_lt in A | apply Qltb_lt in A | apply Qltb_ge in A | apply Qltb_ge in A];
    [apply Qltb_lt in B | apply Qltb_ge in B | apply Qltb_lt in B | apply Qltb_ge in B];
    unfold Math_max; qcases; lra.
Qed.

Lemma clamp01_one (x : Q) : 1 <= x -> clamp01 x == 1.
Proof.
  intros H. unfold clamp01, Math_min.
  destruct (Qltb x 1) eqn:A; [apply Qltb_lt in A; lra | ].
  unfold Math_max. qcases; lra.
Qed.

(** The computed success probability of a foraging task with the
    configured probability 1 and two participants. *)
Lemma computeSuccessProbability_pair (P : Platform) (task : ScenarioTask) (x y : AgentState)
      (res : ResourceLevel) :
  category task = foraging -> successProbability task == 1 ->
  computeSuccessProbability P task [x; y] (resourceByTask res (category task))
  == pair_probability P task x y res.
Proof.
  intros Hcat Hp. unfold computeSuccessProbability, pair_probability, skillKey.
  rewrite Hcat. cbn [resourceByTask fold_left length].
  change (ofNat 2) with 2. apply clamp01_proper. rewrite Hp.
  destruct (Qltb 0 (plants res)); field.
Qed.

Lemma pair_probability_sym (P : Platform) (task : ScenarioTask) (x y : AgentState)
      (res : ResourceLevel) :
  pair_probability P task x y res == pair_probability P task y x res.
Proof.
  unfold pair_probability. apply clamp01_proper. destruct (Qltb 0 (plants res)); field.
Qed.

Lemma assignTask_pair (P : Platform) (config : ScenarioConfig) (rng : SeededRandom)
      (x y : AgentState) (res : ResourceLevel) (task : ScenarioTask) :
  id x <> id y -> category task = foraging -> yieldPerParticipant task = Some 4 ->
  minParticipants task <= 2 -> 2 <= recommendedParticipants task ->
  exists e,
    availableAgents
      (assignTask P config [x; y] res
                  {| availableAgents := [id x; id y]; executions := []; assign_rng := rng |} task)
    = []
    /\ executions
         (assignTask P config [x; y] res
                     {| availableAgents := [id x; id y]; executions := []; assign_rng := rng |} task)
       = [e]
    /\ participants (assignment e) = [id x; id y]
    /\ exec_successProbability e
       = computeSuccessProbability P task [x; y] (resourceByTask res (category task))
    /\ outcome (assignment e)
       = (if Qltb (fst (next rng)) (exec_successProbability e) then success else failure)
    /\ reward (assignment e)
       = (if Qltb (fst (next rng)) (exec_successProbability e) then 4 * ofNat 2 else 0)
    /\ rewards e = computeShare task [x; y] (reward (assignment e)).
Proof.
  intros Hid Hcat Hyield Hmin Hrec.
  assert (Hh : is_hunting task = false) by (unfold is_hunting; rewrite Hcat; reflexivity).
  pose proof (need_two task Hrec) as Hneed.
  unfold assignTask. cbn [availableAgents executions assign_rng set_size length].
  set (need := Math_min (recommendedParticipants task) (ofNat 2)) in *.
  assert (E1 : Qltb need (minParticipants task) = false) by (apply Qltb_ge; lra).
  rewrite E1. rewrite (@collect_pair task need x y Hid Hh Hneed).
  cbn [length].
  assert (E2 : Qltb (ofNat 2) (minParticipants task) = false)
    by (apply Qltb_ge; change (ofNat 2) with 2; lra).
  rewrite E2.
  destruct (next rng) as [u rng1] eqn:Hnext. cbn [fst snd].
  rewrite Hyield.
  destruct (sampleInjuries config task _ [x; y] rng1) as [inj rng2] eqn:Hinj.
  cbn [availableAgents executions app].
  eexists. split; [reflexivity | ]. split; [reflexivity | ].
  cbn [assignment participants outcome reward rewards exec_successProbability map].
  split; [reflexivity | ]. split; [reflexivity | ]. split; [reflexivity | ].
  split; [ | reflexivity].
  destruct (Qltb u _); reflexivity.
Qed.

Lemma cooperationRate_single (e : TaskExecution) (agents : list AgentState) (p q : string) :
  participants (assignment e) = [p; q] ->
  cooperationRate (evaluateCooperation [e] agents) == 1.
Proof.
  intros Hp. unfold evaluateCooperation.
  match goal with
  | |- context [fold_left ?f [e] ?a] => destruct (fold_left f [e] a) as [[b s] r]
  end.
  cbn [cooperationRate filter length]. rewrite Hp. cbn [length Nat.ltb Nat.leb].
  reflexivity.
Qed.

Lemma set_of_list_pair (p q : string) : p <> q -> set_of_list [p; q] = [p; q].
Proof.
  intros H. unfold set_of_list. cbn [fold_left]. unfold set_add at 2. cbn [set_has existsb app].
  unfold set_add, set_has. cbn [existsb]. rewrite (eqb_neq_sym H). reflexivity.
Qed.

Lemma assignTasks_pair (P : Platform) (config : ScenarioConfig) (rng : SeededRandom)
      (a1 a2 : AgentState) (res : ResourceLevel) (task : ScenarioTask) :
  id a1 <> id a2 -> category task = foraging -> norm task = equal_share ->
  yieldPerParticipant task = Some 4 -> successProbability task == 1 ->
  minParticipants task <= 2 -> 2 <= recommendedParticipants task ->
  exists e,
    fst (assignTasks P config rng [a1; a2] res (Some [task])) = [e]
    /\ Permutation (participants (assignment e)) [id a1; id a2]
    /\ cooperationRate (evaluateCooperation [e] [a1; a2]) == 1
    /\ exec_successProbability e == pair_probability P task a1 a2 res
    /\ (pair_draw rng a1 a2 < pair_probability P task a1 a2 res ->
        outcome (assignment e) = success /\ reward (assignment e) == 8
        /\ exists v1 v2,
            rec_get (rewards e) (id a1) = Some v1 /\ v1 == 4
            /\ rec_get (rewards e) (id a2) = Some v2 /\ v2 == 4)
    /\ (pair_probability P task a1 a2 res <= pair_draw rng a1 a2 ->
        outcome (assignment e) = failure /\ reward (assignment e) == 0
        /\ rec_get (rewards e) (id a1) = Some 0 /\ rec_get (rewards e) (id a2) = Some 0).
Proof.
  intros Hid Hcat Hnorm Hyield Hprob Hmin Hrec.
  unfold assignTasks, assignLoop, pair_draw. cbn [orElse].
  pose proof (shuffle_perm rng [a1; a2]) as Hperm.
  destruct (shuffle rng [a1; a2]) as [shuffled rng1]. cbn [fst snd] in *.
  apply Permutation_sym, Permutation_length_2_inv in Hperm.
  assert (Hxy : exists x y, shuffled = [x; y] /\ id x <> id y
                            /\ Permutation [id x; id y] [id a1; id a2]
                            /\ In a1 [x; y] /\ In a2 [x; y]
                            /\ pair_probability P task x y res
                               == pair_probability P task a1 a2 res).
  { destruct Hperm as [-> | ->].
    - exists a1, a2. split; [reflexivity | ]. split; [exact Hid | ].
      split; [apply Permutation_refl | ]. split; [left; reflexivity | ].
      split; [right; left; reflexivity | reflexivity].
    - exists a2, a1. split; [reflexivity | ]. split; [congruence | ].
      split; [apply perm_swap | ]. split; [right; left; reflexivity | ].
      split; [left; reflexivity | apply pair_probability_sym]. }
  destruct Hxy as [x [y [-> [Hxy [Hpxy [Hin1 [Hin2 Hsym]]]]]]].
  cbn [map fold_left]. rewrite (set_of_list_pair Hxy).
  destruct (@assignTask_pair P config rng1 x y res task Hxy Hcat Hyield Hmin Hrec)
    as [e [Hav [Hex [Hparts [Hsp [Hout [Hrwd Hrew]]]]]]].
  destruct (assignTask P config [x; y] res _ task) as [av ex rg].
  cbn [availableAgents executions] in Hav, Hex. subst av ex.
  unfold idleFallback. cbn [availableAgents set_size length executions fst].
  assert (Hp : exec_successProbability e == pair_probability P task a1 a2 res).
  { rewrite Hsp, (@computeSuccessProbability_pair P task x y res Hcat Hprob). exact Hsym. }
  exists e. split; [reflexivity | ].
  split; [rewrite Hparts; exact Hpxy | ].
  split; [apply cooperationRate_single with (p := id x) (q := id y); exact Hparts | ].
  split; [exact Hp | ].
  split.
  - intros Hu. rewrite <- Hp in Hu. apply Qltb_lt in Hu. rewrite Hu in Hout, Hrwd.
    split; [exact Hout | ]. split; [rewrite Hrwd; reflexivity | ].
    assert (H8 : 0 <= 4 * ofNat 2) by (change (ofNat 2) with 2; lra).
    destruct (@computeShare_equal_share task [x; y] (4 * ofNat 2) a1 Hnorm Hin1 H8)
      as [v1 [Hv1 Hq1]].
    destruct (@computeShare_equal_share task [x; y] (4 * ofNat 2) a2 Hnorm Hin2 H8)
      as [v2 [Hv2 Hq2]].
    exists v1, v2. rewrite Hrew, Hrwd.
    split; [exact Hv1 | ]. split; [rewrite Hq1; reflexivity | ].
    split; [exact Hv2 | rewrite Hq2; reflexivity].
  - intros Hu. rewrite <- Hp in Hu. apply Qltb_ge in Hu. rewrite Hu in Hout, Hrwd.
    split; [exact Hout | ]. split; [rewrite Hrwd; reflexivity | ].
    rewrite Hrew, Hrwd.
    split; apply computeShare_nonpositive; try assumption; lra.
Qed.

(** C5 (as amended).  Under the norm equal_share every participant of a
    non-empty participant list receives [T / |P|] when the total reward [T]
    is not negative, and 0 when it is not positive.  For two agents with
    different ids and one foraging task with equal_share,
    [yieldPerParticipant = 4], [successProbability = 1], at most two
    participants required and at least two recommended, the day has one
    execution with both agents and the cooperation rate is 1.  The success
    probability of the execution is the computed one: the configured 1.0
    plus the participant, skill and resource terms, clamped to [0, 1].  The
    task succeeds exactly when the draw that follows the shuffle is below
    it: then the reward is 8 and both agents receive the share 4; otherwise
    the reward and both shares are 0.  It succeeds for every seed when
    the gathering skills of the two add up to 1 at least and the plants
    are positive with a logarithm term that is not negative. *)
Theorem equal_share_is_fair :
  (forall (task : ScenarioTask) (agents : list AgentState) (T : Q) (a : AgentState),
      norm task = equal_share -> In a agents ->
      (0 <= T ->
       exists v, rec_get (computeShare task agents T) (id a) = Some v
                 /\ v == T / ofNat (length agents))
      /\ (T <= 0 -> rec_get (computeShare task agents T) (id a) = Some 0))
  /\ (forall (P : Platform) (config : ScenarioConfig) (rng : SeededRandom)
             (a1 a2 : AgentState) (res : ResourceLevel) (task : ScenarioTask),
         id a1 <> id a2 -> category task = foraging -> norm task = equal_share ->
         yieldPerParticipant task = Some 4 -> successProbability task == 1 ->
         minParticipants task <= 2 -> 2 <= recommendedParticipants task ->
         exists e,
           fst (assignTasks P config rng [a1; a2] res (Some [task])) = [e]
           /\ Permutation (participants (assignment e)) [id a1; id a2]
           /\ cooperationRate (evaluateCooperation [e] [a1; a2]) == 1
           /\ exec_successProbability e == pair_probability P task a1 a2 res
           /\ (pair_draw rng a1 a2 < pair_probability P task a1 a2 res ->
               outcome (assignment e) = success /\ reward (assignment e) == 8
               /\ exists v1 v2,
                   rec_get (rewards e) (id a1) = Some v1 /\ v1 == 4
                   /\ rec_get (rewards e) (id a2) = Some v2 /\ v2 == 4)
           /\ (pair_probability P task a1 a2 res <= pair_draw rng a1 a2 ->
               outcome (assignment e) = failure /\ reward (assignment e) == 0
               /\ rec_get (rewards e) (id a1) = Some 0
               /\ rec_get (rewards e) (id a2) = Some 0)
           /\ (1 <= skill a1 "gathering" + skill a2 "gathering" ->
               0 < plants res -> 0 <= Math_log P (1 + plants res) ->
               exec_successProbability e == 1
               /\ outcome (assignment e) = success
               /\ exists v1 v2,
                   rec_get (rewards e) (id a1) = Some v1 /\ v1 == 4
                   /\ rec_get (rewards e) (id a2) = Some v2 /\ v2 == 4)).
Proof.
  split.
  - intros task agents T a Hnorm Hin. split.
    + intros HT. apply computeShare_equal_share; assumption.
    + intros HT. apply computeShare_nonpositive; assumption.
  - intros P config rng a1 a2 res task Hid Hcat Hnorm Hyield Hprob Hmin Hrec.
    destruct (@assignTasks_pair P config rng a1 a2 res task Hid Hcat Hnorm Hyield Hprob
                Hmin Hrec) as (e & A & B & C & D & E & F).
    exists e. split; [exact A | ]. split; [exact B | ]. split; [exact C | ].
    split; [exact D | ]. split; [exact E | ]. split; [exact F | ].
    intros Hskill Hplants Hlog.
    assert (Hone : pair_probability P task a1 a2 res == 1).
    { unfold pair_probability. apply clamp01_one.
      apply Qltb_lt in Hplants. rewrite Hplants.
      pose proof (Math_max_r (2 - minParticipants task) 0) as Hm.
      assert (Hhalf : 0.5 <= (skill a1 "gathering" + skill a2 "gathering") / 2)
        by (apply Qle_shift_div_l; [reflexivity | lra]).
      set (m := Math_max (2 - minParticipants task) 0) in *.
      set (s := (skill a1 "gathering" + skill a2 "gathering") / 2) in *.
      set (l := Math_log P (1 + plants res)) in *.
      lra. }
    pose proof (next_unit_interval (snd (shuffle rng [a1; a2]))) as [_ Hu].
    fold (pair_draw rng a1 a2) in Hu.
    assert (Hlt : pair_draw rng a1 a2 < pair_probability P task a1 a2 res)
      by (rewrite Hone; exact Hu).
    destruct (E Hlt) as (E1 & _ & E3).
    split; [rewrite D; exact Hone | ]. split; [exact E1 | exact E3].
Qed.

Lemma equal_share_is_fair_witness :
  (exists v, rec_get (computeShare forage foragers 8) "ada" = Some v /\ v == 8 / ofNat 2)
  /\ exists e,
      fst (assignTasks Ref.platform demo (SeededRandom_new 1) foragers fertile (Some [forage]))
      = [e]
      /\ Permutation (participants (assignment e)) ["ada"; "bo"]
      /\ cooperationRate (evaluateCooperation [e] foragers) == 1
      /\ exec_successProbability e == 1
      /\ outcome (assignment e) = success
      /\ exists v1 v2,
          rec_get (rewards e) "ada" = Some v1 /\ v1 == 4
          /\ rec_get (rewards e) "bo" = Some v2 /\ v2 == 4.
Proof.
  split.
  - apply (proj1 (proj1 equal_share_is_fair forage foragers 8
                        (villager "ada" "gathering" 0.5) eq_refl (or_introl eq_refl))).
    unfold Qle. cbn. lia.
  - destruct (proj2 equal_share_is_fair Ref.platform demo (SeededRandom_new 1)
                    (villager "ada" "gathering" 0.5) (villager "bo" "gathering" 0.5)
                    fertile forage)
      as (e & A & B & C & _ & _ & _ & G).
    + cbn. discriminate.
    + reflexivity.
    + reflexivity.
    + reflexivity.
    + reflexivity.
    + unfold Qle. cbn. lia.
    + unfold Qle. cbn. lia.
    + exists e. split; [exact A | ]. split; [exact B | ]. split; [exact C | ].
      apply G; vm_compute; (reflexivity || discriminate).
Defined.

(** C5 (counterexample).  A negative total reward is shared as 0, not as
    [T / |P|]; and two foragers of average skill on barren ground, on the
    foraging task of the scenario, succeed with probability 0.9 only: with
    seed 10 the task fails and both shares are 0. *)
Lemma equal_share_scenario_can_fail :
  rec_get (computeShare forage foragers (-(4))) "ada" = Some 0
  /\ Qeqb 0 (-(4) / ofNat (length foragers)) = false
  /\ map (fun e => (participants (assignment e), outcome (assignment e), rewards e,
                    Qeqb (exec_successProbability e) 0.9))
         (forage_executions 10 barren)
     = [(["ada"; "bo"], failure, [("ada", 0); ("bo", 0)], true)].
Proof.
  split; [vm_compute; reflexivity | ].
  split; vm_compute; reflexivity.
Qed.

(** ** Sets of strings *)

Lemma set_has_In (s : list string) (k : string) : set_has s k = true <-> In k s.
Proof.
  unfold set_has. rewrite existsb_exists. split.
  - intros [x [Hin Heq]]. apply String.eqb_eq in Heq. subst x. exact Hin.
  - intros Hin. exists k. split; [exact Hin | apply String.eqb_refl].
Qed.

Lemma set_has_not_In (s : list string) (k : string) : set_has s k = false <-> ~ In k s.
Proof.
  rewrite <- set_has_In. destruct (set_has s k); split; intros H; congruence.
Qed.

Lemma set_add_In (s : list string) (k x : string) : In x (set_add s k) <-> In x s \/ x = k.
Proof.
  unfold set_add. destruct (set_has s k) eqn:E.
  - apply set_has_In in E. split; [auto | intros [H | ->]; assumption].
  - rewrite in_app_iff. cbn [In]. split; intros [H | H]; auto.
    + destruct H as [<- | []]. auto.
Qed.

Lemma set_add_NoDup (s : list string) (k : string) : NoDup s -> NoDup (set_add s k).
Proof.
  intros H. unfold set_add. destruct (set_has s k) eqn:E; [exact H | ].
  apply set_has_not_In in E. apply NoDup_app.
  - exact H.
  - constructor; [intros [] | constructor].
  - intros a Ha [<- | []]. contradiction.
Qed.

Lemma set_delete_In (s : list string) (k x : string) :
  In x (set_delete s k) <-> In x s /\ x <> k.
Proof.
  unfold set_delete. rewrite filter_In. rewrite negb_true_iff, String.eqb_neq. reflexivity.
Qed.

Lemma set_delete_NoDup (s : list string) (k : string) : NoDup s -> NoDup (set_delete s k).
Proof. intros H. apply NoDup_filter. exact H. Qed.

Lemma fold_set_add_In (l s : list string) (x : string) :
  In x (fold_left set_add l s) <-> In x s \/ In x l.
Proof.
  revert s. induction l as [| k l IH]; intros s; cbn [fold_left In].
  - tauto.
  - rewrite IH, set_add_In. intuition congruence.
Qed.

Lemma fold_set_add_NoDup (l s : list string) : NoDup s -> NoDup (fold_left set_add l s).
Proof.
  revert s. induction l as [| k l IH]; intros s H; cbn [fold_left]; [exact H | ].
  apply IH, set_add_NoDup, H.
Qed.

Lemma set_of_list_In (l : list string) (x : string) : In x (set_of_list l) <-> In x l.
Proof. unfold set_of_list. rewrite fold_set_add_In. cbn [In]. tauto. Qed.

Lemma set_of_list_NoDup (l : list string) : NoDup (set_of_list l).
Proof. apply fold_set_add_NoDup. constructor. Qed.

Lemma considerCandidate_ok (task : ScenarioTask) (need : Q) (shuffled : list AgentState)
      (avail0 : list string) (acc : list AgentState * list string) (agent : AgentState) :
  In agent shuffled -> collect_ok task shuffled avail0 acc ->
  collect_ok task shuffled avail0 (considerCandidate task need acc agent).
Proof.
  intros Hin Hok. pose proof Hok as [Hparts [Havail Hnd]]. unfold considerCandidate.
  destruct (Qleb need (ofNat (length (fst acc)))); [exact Hok | ].
  destruct (set_has (snd acc) (id agent)) eqn:Ehas; cbn [negb]; [ | exact Hok].
  destruct (andb (is_hunting task) (Qltb (skill agent "hunting") 0.3)) eqn:Egate;
    [exact Hok | ].
  apply set_has_In in Ehas.
  split; [ | split]; cbn [fst snd].
  - intros a Ha. apply in_app_iff in Ha. destruct Ha as [Ha | [<- | []]]; [auto | ].
    split; [exact Hin | ]. split; [apply Havail; exact Ehas | ].
    intros Hh. rewrite Hh in Egate. exact Egate.
  - intros k. rewrite set_delete_In, Havail, map_app, in_app_iff. cbn [map In].
    intuition congruence.
  - intros H. apply set_delete_NoDup. auto.
Qed.

Lemma collect_fold_ok (task : ScenarioTask) (need : Q) (shuffled : list AgentState)
      (avail0 : list string) (l : list AgentState) (acc : list AgentState * list string) :
  incl l shuffled -> collect_ok task shuffled avail0 acc ->
  collect_ok task shuffled avail0 (fold_left (considerCandidate task need) l acc).
Proof.
  revert acc. induction l as [| a l IH]; intros acc Hincl Hok; cbn [fold_left]; [exact Hok | ].
  apply IH.
  - intros x Hx. apply Hincl. right. exact Hx.
  - apply considerCandidate_ok; [apply Hincl; left; reflexivity | exact Hok].
Qed.

Lemma collectParticipants_ok (task : ScenarioTask) (need : Q) (shuffled : list AgentState)
      (avail0 : list string) :
  collect_ok task shuffled avail0 (collectParticipants task need shuffled avail0).
Proof.
  unfold collectParticipants. apply collect_fold_ok; [apply incl_refl | ].
  split; [intros a [] | ]. split; [ | auto].
  intros k. cbn [fst snd map In]. tauto.
Qed.


(** ** C7: a skipped task leaves the pool untouched *)




Lemma assignTask_available_NoDup (P : Platform) (config : ScenarioConfig)
      (shuffled : list AgentState) (res : ResourceLevel) (st : AssignState)
      (task : ScenarioTask) :
  NoDup (availableAgents st) ->
  NoDup (availableAgents (assignTask P config shuffled res st task)).
Proof.
  intros Hnd. unfold assignTask.
  set (need := Math_min (recommendedParticipants task) (ofNat (set_size (availableAgents st)))).
  destruct (Qltb need (minParticipants task)); [exact Hnd | ].
  pose proof (collectParticipants_ok task need shuffled (availableAgents st))
    as [_ [_ Hnd']].
  destruct (collectParticipants task need shuffled (availableAgents st)) as [parts avail].
  cbn [fst snd] in *.
  destruct (Qltb (ofNat (length parts)) (minParticipants task)).
  - cbn [availableAgents]. rewrite <- (fold_left_over_map set_add id parts avail).
    apply fold_set_add_NoDup. auto.
  - destruct (next (assign_rng st)) as [u rng1].
    destruct (sampleInjuries config task _ parts rng1) as [inj rng2].
    cbn [availableAgents]. auto.
Qed.

(** The pool of available agents is a set at every turn of the loop. *)
Lemma assignLoop_available_NoDup (P : Platform) (config : ScenarioConfig)
      (rng : SeededRandom) (agents : list AgentState) (res : ResourceLevel)
      (taskList : list ScenarioTask) :
  NoDup (availableAgents (snd (assignLoop P config rng agents res taskList))).
Proof.
  unfold assignLoop. destruct (shuffle rng agents) as [shuffled rng1]. cbn [snd].
  assert (H : forall l st, NoDup (availableAgents st) ->
                           NoDup (availableAgents
                                    (fold_left (assignTask P config shuffled res) l st))).
  { induction l as [| t l IH]; intros st Hst; cbn [fold_left]; [exact Hst | ].
    apply IH. apply assignTask_available_NoDup. exact Hst. }
  apply H. cbn [availableAgents]. apply set_of_list_NoDup.
Qed.


(** ** C6: the hunting gate *)

Lemma assignTask_executions (P : Platform) (config : ScenarioConfig)
      (shuffled : list AgentState) (res : ResourceLevel) (st : AssignState)
      (task : ScenarioTask) :
  executions (assignTask P config shuffled res st task) = executions st
  \/ exists e,
      executions (assignTask P config shuffled res st task) = executions st ++ [e]
      /\ gate_passed shuffled task e.
Proof.
  unfold assignTask.
  set (need := Math_min (recommendedParticipants task) (ofNat (set_size (availableAgents st)))).
  destruct (Qltb need (minParticipants task)); [left; reflexivity | ].
  pose proof (collectParticipants_ok task need shuffled (availableAgents st))
    as [Hparts _].
  destruct (collectParticipants task need shuffled (availableAgents st)) as [parts avail].
  cbn [fst snd] in *.
  destruct (Qltb (ofNat (length parts)) (minParticipants task)); [left; reflexivity | ].
  destruct (next (assign_rng st)) as [u rng1].
  destruct (sampleInjuries config task _ parts rng1) as [inj rng2].
  right. cbn [executions]. eexists. split; [reflexivity | ].
  split; [reflexivity | ].
  cbn [assignment participants]. intros Hcat pid Hpid.
  apply in_map_iff in Hpid. destruct Hpid as [a [<- Ha]].
  destruct (Hparts a Ha) as [Hin [_ Hgate]].
  exists a. split; [exact Hin | ]. split; [reflexivity | ].
  apply Qltb_ge. apply Hgate. unfold is_hunting. rewrite Hcat. reflexivity.
Qed.

Lemma assign_fold_gate (P : Platform) (config : ScenarioConfig) (shuffled : list AgentState)
      (res : ResourceLevel) (taskList l : list ScenarioTask) (st : AssignState) :
  incl l taskList ->
  (forall e, In e (executions st) ->
             exists task, In task taskList /\ gate_passed shuffled task e) ->
  forall e, In e (executions (fold_left (assignTask P config shuffled res) l st)) ->
            exists task, In task taskList /\ gate_passed shuffled task e.
Proof.
  revert st. induction l as [| t l IH]; intros st Hincl Hst; cbn [fold_left]; [exact Hst | ].
  apply IH.
  - intros x Hx. apply Hincl. right. exact Hx.
  - intros e He.
    destruct (assignTask_executions P config shuffled res st t) as [Heq | [e' [Heq Hg]]];
      rewrite Heq in He.
    + apply Hst. exact He.
    + apply in_app_iff in He. destruct He as [He | [<- | []]].
      * apply Hst. exact He.
      * exists t. split; [apply Hincl; left; reflexivity | exact Hg].
Qed.

(** C6 (as amended).  The executions of [assignTasks] are those of the
    per-task loop followed by at most one execution of the idle fallback,
    for the task [camp_maintenance].  Every execution of the loop was made
    for a task of the sequence, and when that task is a hunt every
    participant is an agent whose hunting skill (0.5 when unset) is at least
    0.3; the fallback takes every remaining agent. *)
Theorem hunting_gate_outside_idle_fallback :
  forall (P : Platform) (config : ScenarioConfig) (rng : SeededRandom)
         (agents : list AgentState) (res : ResourceLevel)
         (taskSequence : option (list ScenarioTask)),
  exists loopExecutions fallbackExecutions,
    fst (assignTasks P config rng agents res taskSequence)
    = loopExecutions ++ fallbackExecutions
    /\ loopExecutions
       = executions (snd (assignLoop P config rng agents res
                                     (orElse taskSequence (tasks config))))
    /\ (forall e, In e loopExecutions ->
          exists task,
            In task (orElse taskSequence (tasks config))
            /\ taskId (assignment e) = task_id task
            /\ (category task = hunting ->
                forall pid, In pid (participants (assignment e)) ->
                            exists a, In a agents /\ id a = pid /\ 0.3 <= skill a "hunting"))
    /\ (fallbackExecutions = []
        \/ exists e, fallbackExecutions = [e]
                     /\ taskId (assignment e) = "camp_maintenance"
                     /\ notes (assignment e) = "fallback maintenance duty").
Proof.
  intros P config rng agents res taskSequence.
  set (taskList := orElse taskSequence (tasks config)).
  exists (executions (snd (assignLoop P config rng agents res taskList))).
  assert (Hgate : forall e,
             In e (executions (snd (assignLoop P config rng agents res taskList))) ->
             exists task,
               In task taskList
               /\ taskId (assignment e) = task_id task
               /\ (category task = hunting ->
                   forall pid, In pid (participants (assignment e)) ->
                               exists a, In a agents /\ id a = pid
                                         /\ 0.3 <= skill a "hunting")).
  { intros e He. unfold assignLoop in He.
    pose proof (shuffle_perm rng agents) as Hperm.
    destruct (shuffle rng agents) as [shuffled rng1]. cbn [fst snd] in *.
    apply (@assign_fold_gate P config shuffled res taskList) in He;
      [ | apply incl_refl | cbn [executions]; intros e0 [] ].
    destruct He as [task [Hin [Hid Hg]]].
    exists task. split; [exact Hin | ]. split; [exact Hid | ].
    intros Hcat pid Hpid. destruct (Hg Hcat pid Hpid) as [a [Ha Hrest]].
    exists a. split; [ | exact Hrest].
    apply (Permutation_in _ Hperm). exact Ha. }
  unfold assignTasks. fold taskList.
  destruct (assignLoop P config rng agents res taskList) as [shuffled st].
  cbn [fst snd] in *. unfold idleFallback.
  destruct (set_size (availableAgents st)).
  { exists []. rewrite app_nil_r. split; [reflexivity | ]. split; [reflexivity | ].
    split; [exact Hgate | left; reflexivity]. }
  destruct (find is_camp_maintenance taskList) as [t |] eqn:E1.
  { eexists. split; [reflexivity | ]. split; [reflexivity | ]. split; [exact Hgate | ].
    right. eexists. split; [reflexivity | ]. cbn [assignment taskId notes].
    apply find_some in E1. destruct E1 as [_ E1]. apply String.eqb_eq in E1.
    split; [exact E1 | reflexivity]. }
  destruct (find is_camp_maintenance (tasks config)) as [t |] eqn:E2.
  { eexists. split; [reflexivity | ]. split; [reflexivity | ]. split; [exact Hgate | ].
    right. eexists. split; [reflexivity | ]. cbn [assignment taskId notes].
    apply find_some in E2. destruct E2 as [_ E2]. apply String.eqb_eq in E2.
    split; [exact E2 | reflexivity]. }
  exists []. rewrite app_nil_r. split; [reflexivity | ]. split; [reflexivity | ].
  split; [exact Hgate | left; reflexivity].
Qed.

(** C6 (counterexample).  With the tasks [hunt] and a camp watch filed as
    [camp_maintenance] with category hunting, the hunt takes the two skilled
    agents, and the idle fallback assigns the third, whose hunting skill is
    0.1, to the camp watch. *)
Lemma idle_fallback_ignores_hunting_gate :
  map (fun e => (taskId (assignment e), participants (assignment e))) watch_executions
  = [("hunt", ["cy"; "bo"]); ("camp_maintenance", ["ada"])]
  /\ category camp_watch = hunting
  /\ map (fun a => (id a, Qltb (skill a "hunting") 0.3)) hunters
     = [("ada", true); ("bo", false); ("cy", false)].
Proof.
  split; [vm_compute; reflexivity | ].
  split; [reflexivity | vm_compute; reflexivity].
Qed.

(** ** Maps keyed by strings *)

Section MapLemmas.
Variable V : Type.

Lemma rec_set_keys (r : list (string * V)) (k : string) (v : V) :
  map fst (rec_set r k v) = if in_dec string_dec k (map fst r) then map fst r else map fst r ++ [k].
Proof.
  induction r as [| [k' v'] r IH]; cbn [rec_set map fst app].
  - destruct (in_dec string_dec k []) as [[] | _]. reflexivity.
  - destruct (String.eqb k' k) eqn:E; cbn [map fst].
    + apply String.eqb_eq in E. subst k'.
      destruct (in_dec string_dec k (k :: map fst r)) as [_ | Hn]; [reflexivity | ].
      exfalso. apply Hn. left. reflexivity.
    + apply String.eqb_neq in E. rewrite IH.
      destruct (in_dec string_dec k (map fst r)) as [Hin | Hn];
        destruct (in_dec string_dec k (k' :: map fst r)) as [Hin' | Hn']; try reflexivity.
      * exfalso. apply Hn'. right. exact Hin.
      * destruct Hin' as [Heq | Hin']; [congruence | contradiction].
Qed.

Lemma rec_set_NoDup (r : list (string * V)) (k : string) (v : V) :
  NoDup (map fst r) -> NoDup (map fst (rec_set r k v)).
Proof.
  intros H. rewrite rec_set_keys. destruct (in_dec string_dec k (map fst r)) as [_ | Hn]; [exact H | ].
  apply NoDup_app; [exact H | constructor; [intros [] | constructor] | ].
  intros a Ha [<- | []]. contradiction.
Qed.

Lemma rec_set_In (r : list (string * V)) (k k' : string) (v v' : V) :
  NoDup (map fst r) ->
  In (k', v') (rec_set r k v) -> (k' = k /\ v' = v) \/ (k' <> k /\ In (k', v') r).
Proof.
  induction r as [| [k0 v0] r IH]; cbn [rec_set map fst]; intros Hnd Hin.
  - destruct Hin as [Heq | []]. injection Heq as <- <-. left. split; reflexivity.
  - inversion Hnd as [| x l Hnotin Hnd' Heq]; subst.
    destruct (String.eqb k0 k) eqn:E.
    + apply String.eqb_eq in E. subst k0.
      destruct Hin as [Heq | Hin].
      * injection Heq as <- <-. left. split; reflexivity.
      * right. split; [ | right; exact Hin].
        intros ->. apply Hnotin. apply (in_map fst) in Hin. exact Hin.
    + apply String.eqb_neq in E. destruct Hin as [Heq | Hin].
      * injection Heq as <- <-. right. split; [exact E | left; reflexivity].
      * destruct (IH Hnd' Hin) as [H | [H1 H2]]; [left; exact H | right].
        split; [exact H1 | right; exact H2].
Qed.

Lemma map_delete_In (m : list (string * V)) (k k' : string) (v' : V) :
  In (k', v') (map_delete m k) <-> In (k', v') m /\ k' <> k.
Proof.
  unfold map_delete. rewrite filter_In. cbn [fst].
  rewrite negb_true_iff, String.eqb_neq. reflexivity.
Qed.

Lemma map_delete_NoDup (m : list (string * V)) (k : string) :
  NoDup (map fst m) -> NoDup (map fst (map_delete m k)).
Proof.
  unfold map_delete. induction m as [| [k0 v0] m IH]; cbn [filter map fst]; intros H; [exact H | ].
  inversion H as [| x l Hnotin Hnd Heq]; subst.
  destruct (negb (String.eqb k0 k)); cbn [map fst]; [ | apply IH; exact Hnd].
  constructor; [ | apply IH; exact Hnd].
  intros Hin. apply Hnotin. apply in_map_iff in Hin. destruct Hin as [[k1 v1] [Hk Hin]].
  cbn [fst] in Hk. subst k1. apply filter_In in Hin. destruct Hin as [Hin _].
  apply (in_map fst) in Hin. exact Hin.
Qed.

Lemma rec_get_In (r : list (string * V)) (k : string) (v : V) :
  rec_get r k = Some v -> In (k, v) r.
Proof.
  induction r as [| [k0 v0] r IH]; cbn [rec_get]; [discriminate | ].
  destruct (String.eqb k0 k) eqn:E.
  - apply String.eqb_eq in E. subst k0. intros H. injection H as ->. left. reflexivity.
  - intros H. right. apply IH. exact H.
Qed.
End MapLemmas.

(** ** The network *)

Lemma applyDecay_fold_ok (decay : Q) (l m : list (string * NetworkEdge)) :
  (forall k e, In (k, e) l -> k = makeKey (source e) (target e)) ->
  edges_wf m ->
  (forall k e, In (k, e) m -> 0.01 <= weight e \/ In k (map fst l)) ->
  let m' :=
    fold_left
      (fun m entry =>
         let '(key, edge) := entry in
         let newWeight := weight edge * decay in
         if Qltb newWeight 0.01 then map_delete m key
         else map_set m key (set_weight edge newWeight))
      l m in
  edges_wf m' /\ edges_heavy m'.
Proof.
  revert m. induction l as [| [k0 e0] l IH]; intros m Hl [Hnd Hkeys] Hm; cbn [fold_left].
  - split; [split; assumption | ].
    intros k e Hin. destruct (Hm k e Hin) as [H | []]. exact H.
  - apply IH.
    + intros k e Hin. apply Hl. right. exact Hin.
    + destruct (Qltb (weight e0 * decay) 0.01).
      * split; [apply map_delete_NoDup; exact Hnd | ].
        intros k e Hin. apply map_delete_In in Hin. apply Hkeys. tauto.
      * split; [apply rec_set_NoDup; exact Hnd | ].
        intros k e Hin. apply rec_set_In in Hin; [ | exact Hnd].
        destruct Hin as [[-> ->] | [_ Hin]]; [ | apply Hkeys; exact Hin].
        cbn [set_weight source target]. apply Hl. left. reflexivity.
    + destruct (Qltb (weight e0 * decay) 0.01) eqn:E.
      * intros k e Hin. apply map_delete_In in Hin. destruct Hin as [Hin Hne].
        destruct (Hm k e Hin) as [H | [H | H]]; [left; exact H | | right; exact H].
        cbn [fst] in H. congruence.
      * apply Qltb_ge in E.
        intros k e Hin. apply rec_set_In in Hin; [ | exact Hnd].
        destruct Hin as [[-> ->] | [Hne Hin]]; [left; exact E | ].
        destruct (Hm k e Hin) as [H | [H | H]]; [left; exact H | | right; exact H].
        cbn [fst] in H. congruence.
Qed.

Lemma applyDecay_ok (n : SocialNetwork) :
  edges_wf (edges n) ->
  edges_wf (edges (applyDecay n)) /\ edges_heavy (edges (applyDecay n)).
Proof.
  intros Hwf. unfold applyDecay. cbn [set_edges edges].
  apply applyDecay_fold_ok.
  - apply Hwf.
  - exact Hwf.
  - intros k e Hin. right. apply (in_map fst) in Hin. exact Hin.
Qed.

Lemma reinforceInteraction_ok (n : SocialNetwork) (src tgt : string) (delta : Q) :
  0.01 <= delta ->
  edges_wf (edges n) -> edges_heavy (edges n) ->
  edges_wf (edges (reinforceInteraction n src tgt delta))
  /\ edges_heavy (edges (reinforceInteraction n src tgt delta)).
Proof.
  intros Hd [Hnd Hkeys] Hheavy. unfold reinforceInteraction. cbn [set_edges edges].
  unfold map_set, map_get.
  destruct (rec_get (edges n) (makeKey src tgt)) as [existing |] eqn:Eget.
  - apply rec_get_In in Eget.
    split; [split; [apply rec_set_NoDup; exact Hnd | ] | ].
    + intros k e Hin. apply rec_set_In in Hin; [ | exact Hnd].
      destruct Hin as [[-> ->] | [_ Hin]]; [ | apply Hkeys; exact Hin].
      cbn [set_weight source target]. apply Hkeys. exact Eget.
    + intros k e Hin. apply rec_set_In in Hin; [ | exact Hnd].
      destruct Hin as [[-> ->] | [_ Hin]]; [ | apply (Hheavy _ _ Hin)].
      cbn [set_weight weight]. pose proof (Hheavy _ _ Eget). lra.
  - split; [split; [apply rec_set_NoDup; exact Hnd | ] | ].
    + intros k e Hin. apply rec_set_In in Hin; [ | exact Hnd].
      destruct Hin as [[-> ->] | [_ Hin]]; [reflexivity | apply Hkeys; exact Hin].
    + intros k e Hin. apply rec_set_In in Hin; [ | exact Hnd].
      destruct Hin as [[-> ->] | [_ Hin]]; [exact Hd | apply (Hheavy _ _ Hin)].
Qed.

Lemma reinforceInteraction_frame (n : SocialNetwork) (src tgt : string) (delta : Q) :
  forgetFactor (reinforceInteraction n src tgt delta) = forgetFactor n
  /\ campMembership (reinforceInteraction n src tgt delta) = campMembership n.
Proof. split; reflexivity. Qed.

(** Rebuilding the map from its edges gives the map back. *)
Lemma rec_set_fresh (V : Type) (r : list (string * V)) (k : string) (v : V) :
  ~ In k (map fst r) -> rec_set r k v = r ++ [(k, v)].
Proof.
  induction r as [| [k0 v0] r IH]; cbn [rec_set map fst app]; intros H; [reflexivity | ].
  destruct (String.eqb k0 k) eqn:E.
  - apply String.eqb_eq in E. exfalso. apply H. left. exact E.
  - rewrite IH; [reflexivity | ]. intros Hin. apply H. right. exact Hin.
Qed.

Lemma rebuild_edges (l2 l1 : list (string * NetworkEdge)) :
  edges_wf (l1 ++ l2) ->
  fold_left (fun m edge => map_set m (makeKey (source edge) (target edge)) edge)
            (map snd l2) l1
  = l1 ++ l2.
Proof.
  revert l1. induction l2 as [| [k e] l2 IH]; intros l1 [Hnd Hkeys]; cbn [map snd fold_left].
  - rewrite app_nil_r. reflexivity.
  - assert (Hk : k = makeKey (source e) (target e)).
    { apply Hkeys. apply in_app_iff. right. left. reflexivity. }
    rewrite <- Hk. unfold map_set. rewrite rec_set_fresh.
    + replace (l1 ++ (k, e) :: l2) with ((l1 ++ [(k, e)]) ++ l2)
        by (rewrite <- app_assoc; reflexivity).
      apply IH. rewrite <- app_assoc. split; assumption.
    + rewrite map_app in Hnd. cbn [map fst] in Hnd.
      apply NoDup_remove_2 in Hnd. intros Hin. apply Hnd. apply in_app_iff. left. exact Hin.
Qed.

Lemma SocialNetwork_roundtrip (n : SocialNetwork) :
  edges_wf (edges n) -> SocialNetwork_new (toState n) = n.
Proof.
  intros Hwf. unfold SocialNetwork_new, toState. cbn [ns_edges ns_forgetFactor ns_campMembership].
  rewrite (rebuild_edges (edges n) []); [destruct n; reflexivity | exact Hwf].
Qed.

Lemma edges_wf_one_per_pair (n : SocialNetwork) :
  edges_wf (edges n) -> one_edge_per_pair (ns_edges (toState n)).
Proof.
  intros [Hnd Hkeys] i j e1 e2 H1 H2 Hs Ht. cbn [toState ns_edges] in H1, H2.
  rewrite nth_error_map in H1, H2.
  destruct (nth_error (edges n) i) as [[k1 e1'] |] eqn:E1; [ | discriminate].
  destruct (nth_error (edges n) j) as [[k2 e2'] |] eqn:E2; [ | discriminate].
  cbn [option_map snd] in H1, H2. injection H1 as ->. injection H2 as ->.
  pose proof (Hkeys _ _ (nth_error_In _ _ E1)) as Hk1.
  pose proof (Hkeys _ _ (nth_error_In _ _ E2)) as Hk2.
  assert (Hk : k1 = k2) by (rewrite Hk1, Hk2, Hs, Ht; reflexivity).
  apply (proj1 (NoDup_nth_error (map fst (edges n))) Hnd).
  - rewrite length_map. apply nth_error_Some. rewrite E1. discriminate.
  - rewrite !nth_error_map, E1, E2. cbn [option_map fst]. rewrite Hk. reflexivity.
Qed.

(** ** Social memory *)

Lemma updateSocialMemory_ok (memory : list SocialMemoryEntry) (partner : string)
      (day rd given received sd window : Q) :
  NoDup (map partnerId memory) ->
  NoDup (map partnerId (updateSocialMemory memory partner day rd given received sd window))
  /\ fresh_behind_head window
       (updateSocialMemory memory partner day rd given received sd window).
Proof.
  intros Hnd. unfold updateSocialMemory.
  set (keep := fun entry : SocialMemoryEntry =>
                 andb (Qleb (day - lastInteractionDay entry) window)
                      (negb (String.eqb (partnerId entry) partner))).
  split.
  - cbn [map partnerId]. constructor.
    + intros Hin. apply in_map_iff in Hin. destruct Hin as [e [He Hin]].
      apply filter_In in Hin. destruct Hin as [_ Hk]. unfold keep in Hk.
      apply andb_true_iff in Hk. destruct Hk as [_ Hk].
      apply negb_true_iff, String.eqb_neq in Hk. contradiction.
    + clear -Hnd. induction memory as [| e m IH]; cbn [filter map]; [constructor | ].
      inversion Hnd as [| x l Hnotin Hnd' Heq]; subst.
      destruct (keep e); cbn [map]; [ | apply IH; exact Hnd'].
      constructor; [ | apply IH; exact Hnd'].
      intros Hin. apply Hnotin. apply in_map_iff in Hin. destruct Hin as [e' [He' Hin]].
      apply filter_In in Hin. destruct Hin as [Hin _].
      rewrite <- He'. apply in_map. exact Hin.
  - cbn [fresh_behind_head lastInteractionDay]. intros e Hin.
    apply filter_In in Hin. destruct Hin as [_ Hk]. unfold keep in Hk.
    apply andb_true_iff in Hk. destruct Hk as [Hk _]. apply Qleb_le in Hk. exact Hk.
Qed.

Lemma registerInteraction_ok (config : ScenarioConfig) (agent : AgentState) (partner : string)
      (day rd given received sd : Q) :
  agent_ok config agent ->
  agent_ok config (registerInteraction config agent partner day rd given received sd)
  /\ id (registerInteraction config agent partner day rd given received sd) = id agent.
Proof.
  intros [Hs [Hnd _]]. split; [ | reflexivity]. split; [exact Hs | ].
  unfold memory_ok, registerInteraction. cbn [set_socialMemory socialMemory].
  apply updateSocialMemory_ok. exact Hnd.
Qed.

Lemma applyStimulus_ok (config : ScenarioConfig) (agent : AgentState) (day : Q)
      (stimulus : EmotionStimulus) :
  agent_ok config agent ->
  agent_ok config (applyStimulus config agent day stimulus)
  /\ id (applyStimulus config agent day stimulus) = id agent.
Proof. intros H. split; [exact H | reflexivity]. Qed.

Lemma reflect_ok (P : Platform) (config : ScenarioConfig) (agent : AgentState) (day : Q) :
  agent_ok config agent -> agent_ok config (fst (reflect P config agent day)).
Proof.
  intros H. unfold reflect.
  destruct (Qltb (day - lastReflectionDay agent) (reflectionIntervalDays (cognition config)));
    exact H.
Qed.

(** ** Applying an execution to the agents and the network *)

Lemma core_refl (a : AgentState) : same_core a a.
Proof. repeat split. Qed.

Lemma core_if (c : bool) (x y b : AgentState) :
  same_core x b -> same_core y b -> same_core (if c then x else y) b.
Proof. destruct c; auto. Qed.

Lemma core_set_energy (a b : AgentState) (v : Q) : same_core a b -> same_core (set_energy a v) b.
Proof. intros H. exact H. Qed.

Lemma core_set_hungerDebt (a b : AgentState) (v : Q) :
  same_core a b -> same_core (set_hungerDebt a v) b.
Proof. intros H. exact H. Qed.

Lemma core_set_reputation (a b : AgentState) (v : Q) :
  same_core a b -> same_core (set_reputation a v) b.
Proof. intros H. exact H. Qed.

Lemma core_set_lastActions (a b : AgentState) (v : list string) :
  same_core a b -> same_core (set_lastActions a v) b.
Proof. intros H. exact H. Qed.

Lemma core_applyStimulus (config : ScenarioConfig) (a b : AgentState) (day : Q)
      (s : EmotionStimulus) :
  same_core a b -> same_core (applyStimulus config a day s) b.
Proof. intros H. exact H. Qed.

Lemma core_agent_ok (config : ScenarioConfig) (a b : AgentState) :
  same_core a b -> agent_ok config b -> agent_ok config a.
Proof.
  intros [_ [Hs Hm]] [H1 H2]. unfold agent_ok, skills_nonneg, memory_ok in *.
  rewrite Hs, Hm. split; assumption.
Qed.

Ltac core :=
  repeat first
    [ apply core_set_lastActions | apply core_set_reputation | apply core_applyStimulus
    | apply core_set_hungerDebt | apply core_set_energy | apply core_if | apply core_refl ].

Lemma share_nonneg (e : TaskExecution) (key : string) :
  rewards_nonneg e -> 0 <= orElse (rec_get (rewards e) key) 0.
Proof.
  intros H. destruct (rec_get (rewards e) key) as [v |] eqn:E; cbn [orElse]; [ | lra].
  apply (H key v). apply rec_get_In. exact E.
Qed.

Lemma partners_fold_ok (config : ScenarioConfig) (day rd share sd : Q) (e : TaskExecution)
      (partnerIds : list string) (agent : AgentState) (net : SocialNetwork) :
  0 <= share ->
  agent_ok config agent -> edges_wf (edges net) -> edges_heavy (edges net) ->
  let r :=
    fold_left
      (fun acc partner =>
         let '(agent, net) := acc in
         if String.eqb partner (id agent) then acc
         else
           (registerInteraction config agent partner day rd share
              (orElse (rec_get (rewards e) partner) 0) sd,
            reinforceInteraction net (id agent) partner (0.2 + share * 0.05)))
      partnerIds (agent, net) in
  agent_ok config (fst r) /\ edges_wf (edges (snd r)) /\ edges_heavy (edges (snd r))
  /\ id (fst r) = id agent.
Proof.
  intros Hshare. revert agent net.
  induction partnerIds as [| p l IH]; intros agent net Ha Hwf Hheavy; cbn [fold_left].
  - cbn [fst snd]. auto.
  - destruct (String.eqb p (id agent)).
    + apply IH; assumption.
    + destruct (@registerInteraction_ok config agent p day rd share
                  (orElse (rec_get (rewards e) p) 0) sd Ha) as [Ha' Hid].
      assert (Hd : 0.01 <= 0.2 + share * 0.05) by lra.
      destruct (@reinforceInteraction_ok net (id agent) p _ Hd Hwf Hheavy) as [Hwf' Hheavy'].
      specialize (IH _ _ Ha' Hwf' Hheavy').
      cbn zeta in IH. destruct IH as [H1 [H2 [H3 H4]]]. cbn zeta.
      split; [exact H1 | ]. split; [exact H2 | ]. split; [exact H3 | ].
      rewrite H4. exact Hid.
Qed.

Lemma applyParticipant_ok (P : Platform) (config : ScenarioConfig) (day : Q)
      (e : TaskExecution) (baseShare : Q) (partnerIds : list string) (agent : AgentState)
      (net : SocialNetwork) :
  rewards_nonneg e ->
  agent_ok config agent -> edges_wf (edges net) -> edges_heavy (edges net) ->
  agent_ok config (fst (applyParticipant P config day e baseShare partnerIds agent net))
  /\ edges_wf (edges (snd (applyParticipant P config day e baseShare partnerIds agent net)))
  /\ edges_heavy (edges (snd (applyParticipant P config day e baseShare partnerIds agent net))).
Proof.
  intros Hr Ha Hwf Hheavy. unfold applyParticipant.
  lazymatch goal with
  | |- context [fold_left ?f partnerIds (?a0, net)] => set (agent1 := a0)
  end.
  assert (Hcore : same_core agent1 agent) by (unfold agent1; core).
  pose proof (@core_agent_ok config agent1 agent Hcore Ha) as Ha1.
  assert (Hid : id agent1 = id agent) by apply Hcore.
  pose proof (@share_nonneg e (id agent) Hr) as Hshare.
  pose proof (@partners_fold_ok config day
                (if match outcome (assignment e) with success => true | failure => false end
                 then 0.2 else -(0.1))
                (orElse (rec_get (rewards e) (id agent)) 0)
                (if Qeqb baseShare 0 then 0
                 else (orElse (rec_get (rewards e) (id agent)) 0 - baseShare)
                      / Math_max baseShare 0.001)
                e partnerIds agent1 net Hshare Ha1 Hwf Hheavy) as Hfold.
  cbn zeta in Hfold.
  lazymatch goal with
  | |- context [fold_left ?f partnerIds (agent1, net)] =>
      lazymatch type of Hfold with
      | context [fold_left ?g partnerIds (agent1, net)] =>
          change (fold_left f partnerIds (agent1, net))
            with (fold_left g partnerIds (agent1, net))
      end
  end.
  destruct Hfold as [H1 [H2 [H3 _]]].
  destruct (fold_left _ partnerIds (agent1, net)) as [agent2 net2].
  cbn [fst snd] in *. split; [exact H1 | split; assumption].
Qed.

Lemma list_set_Forall (T : Type) (Pr : T -> Prop) (l : list T) (i : nat) (x : T) :
  Forall Pr l -> Pr x -> Forall Pr (list_set l i x).
Proof.
  revert i. induction l as [| y l IH]; intros i Hl Hx; cbn [list_set].
  - destruct i; constructor.
  - inversion Hl as [| y' l' Hy Hl' Heq]; subst.
    destruct i as [| i]; constructor; auto.
Qed.

Lemma record_flags (l : SimulationLogger) (log : SimulationLogEntry) :
  enabled_events (record l log) = enabled_events l
  /\ enabled_causal (record l log) = enabled_causal l.
Proof. unfold record. destruct (enabled_events l) eqn:E; cbn; auto. Qed.

Lemma participants_fold_ok (P : Platform) (config : ScenarioConfig) (day : Q)
      (e : TaskExecution) (baseShare : Q) (partnerIds : list string) (positions : list nat)
      (agents : list AgentState) (net : SocialNetwork) :
  rewards_nonneg e ->
  Forall (agent_ok config) agents -> edges_wf (edges net) -> edges_heavy (edges net) ->
  let r :=
    fold_left
      (fun acc p =>
         let '(agents, net) := acc in
         match nth_error agents p with
         | None => acc
         | Some agent =>
             let '(agent, net) :=
               applyParticipant P config day e baseShare partnerIds agent net in
             (list_set agents p agent, net)
         end)
      positions (agents, net) in
  Forall (agent_ok config) (fst r) /\ edges_wf (edges (snd r)) /\ edges_heavy (edges (snd r)).
Proof.
  intros Hr. revert agents net.
  induction positions as [| p l IH]; intros agents net Ha Hwf Hheavy; cbn [fold_left].
  - cbn [fst snd]. auto.
  - destruct (nth_error agents p) as [agent |] eqn:E; [ | apply IH; assumption].
    assert (Hagent : agent_ok config agent).
    { apply (proj1 (Forall_forall _ _) Ha). apply (nth_error_In _ _ E). }
    destruct (@applyParticipant_ok P config day e baseShare partnerIds agent net
                Hr Hagent Hwf Hheavy) as [H1 [H2 H3]].
    destruct (applyParticipant P config day e baseShare partnerIds agent net)
      as [agent' net'].
    cbn [fst snd] in *. apply IH; [apply list_set_Forall | | ]; assumption.
Qed.

Lemma applyExecution_ok (P : Platform) (config : ScenarioConfig) (day : Q) (st : ApplyState)
      (e : TaskExecution) :
  rewards_nonneg e -> apply_ok config st -> apply_ok config (applyExecution P config day st e).
Proof.
  intros Hr Hst. pose proof Hst as [Ha [Hwf [Hheavy [Hev Hca]]]]. unfold applyExecution.
  destruct (flat_map _ (participants (assignment e))) as [| p0 positions] eqn:Epos;
    [exact Hst | ].
  lazymatch goal with
  | |- context [fold_left ?f (p0 :: positions) (ap_agents st, ap_network st)] =>
      pose proof (@participants_fold_ok P config day e
                    (match length (participants (assignment e)) with
                     | O => 0
                     | S n => reward (assignment e) / ofNat (S n)
                     end)
                    (flat_map (fun p => match nth_error (ap_agents st) p with
                                        | Some a => [id a]
                                        | None => []
                                        end) (p0 :: positions))
                    (p0 :: positions) (ap_agents st) (ap_network st) Hr Ha Hwf Hheavy)
        as Hfold
  end.
  cbn zeta in Hfold.
  lazymatch goal with
  | |- context [fold_left ?f (p0 :: positions) (ap_agents st, ap_network st)] =>
      lazymatch type of Hfold with
      | context [fold_left ?g (p0 :: positions) (ap_agents st, ap_network st)] =>
          change (fold_left f (p0 :: positions) (ap_agents st, ap_network st))
            with (fold_left g (p0 :: positions) (ap_agents st, ap_network st))
      end
  end.
  destruct (fold_left _ (p0 :: positions) (ap_agents st, ap_network st)) as [agents' net'].
  cbn [fst snd] in Hfold. destruct Hfold as [H1 [H2 H3]].
  unfold apply_ok. cbn [ap_agents ap_network ap_logger].
  split; [exact H1 | ]. split; [exact H2 | ]. split; [exact H3 | ].
  destruct (taskLog (logging config)); [ | split; assumption].
  match goal with
  | |- context [record (ap_logger st) ?log] =>
      destruct (record_flags (ap_logger st) log) as [-> ->]
  end.
  split; assumption.
Qed.

Lemma applyExecution_fold_ok (P : Platform) (config : ScenarioConfig) (day : Q)
      (execs : list TaskExecution) (st : ApplyState) :
  Forall rewards_nonneg execs -> apply_ok config st ->
  apply_ok config (fold_left (applyExecution P config day) execs st).
Proof.
  revert st. induction execs as [| e l IH]; intros st He Hst; cbn [fold_left]; [exact Hst | ].
  inversion He as [| e' l' He1 He2 Heq]; subst.
  apply IH; [exact He2 | apply applyExecution_ok; assumption].
Qed.

Lemma reflectAll_ok (P : Platform) (config : ScenarioConfig) (day : Q)
      (agents : list AgentState) (logger : SimulationLogger) :
  Forall (agent_ok config) agents ->
  Forall (agent_ok config) (fst (reflectAll P config day agents logger))
  /\ enabled_events (snd (reflectAll P config day agents logger)) = enabled_events logger
  /\ enabled_causal (snd (reflectAll P config day agents logger)) = enabled_causal logger.
Proof.
  unfold reflectAll.
  assert (H : forall l done lg,
             Forall (agent_ok config) l -> Forall (agent_ok config) done ->
             let r :=
               fold_left
                 (fun acc agent =>
                    let '(done, logger) := acc in
                    let '(agent, reflection) := reflect P config agent day in
                    (done ++ [agent],
                     match reflection with
                     | Some (String c s) =>
                         record logger {| log_day := day; log_agentId := Some (id agent);
                                          log_type := log_reflection;
                                          log_summary := String c s;
                                          log_detail := DetailText (String c s) |}
                     | _ => logger
                     end))
                 l (done, lg) in
             Forall (agent_ok config) (fst r)
             /\ enabled_events (snd r) = enabled_events lg
             /\ enabled_causal (snd r) = enabled_causal lg).
  { induction l as [| a l IH]; intros done lg Hl Hd; cbn [fold_left].
    - cbn [fst snd]. auto.
    - inversion Hl as [| a' l' Ha Hl' Heq]; subst.
      pose proof (@reflect_ok P config a day Ha) as Hra.
      destruct (reflect P config a day) as [a1 reflection]. cbn [fst] in Hra.
      cbn zeta.
      match goal with
      | |- context [fold_left _ l (done ++ [a1], ?lg')] =>
          assert (Hflags : enabled_events lg' = enabled_events lg
                           /\ enabled_causal lg' = enabled_causal lg)
      end.
      { destruct reflection as [[| c s] |]; try (split; reflexivity). apply record_flags. }
      destruct Hflags as [Hf1 Hf2]. rewrite <- Hf1, <- Hf2.
      apply IH; [exact Hl' | ].
      apply Forall_app. split; [exact Hd | constructor; [exact Hra | constructor]]. }
  intros Ha. apply (H agents [] logger Ha). constructor.
Qed.

Lemma applyExecutions_ok (P : Platform) (config : ScenarioConfig)
      (execs : list TaskExecution) (day : Q) (agents : list AgentState)
      (net : SocialNetwork) (logger : SimulationLogger) :
  Forall rewards_nonneg execs ->
  Forall (agent_ok config) agents -> edges_wf (edges net) ->
  enabled_events logger = eventLog (logging config) ->
  enabled_causal logger = causalGraph (logging config) ->
  apply_ok config (applyExecutions P config execs day agents net logger).
Proof.
  intros He Ha Hwf Hev Hca. unfold applyExecutions.
  destruct (applyDecay_ok net Hwf) as [Hwf' Hheavy'].
  assert (Hst : apply_ok config
                  (fold_left (applyExecution P config day) execs
                             {| ap_agents := agents; ap_network := applyDecay net;
                                ap_logger := logger |})).
  { apply applyExecution_fold_ok; [exact He | ].
    unfold apply_ok. cbn [ap_agents ap_network ap_logger]. auto. }
  destruct Hst as [H1 [H2 [H3 [H4 H5]]]].
  destruct (fold_left (applyExecution P config day) execs _) as [agents' net' logger'].
  cbn [ap_agents ap_network ap_logger] in *.
  destruct (@reflectAll_ok P config day agents' logger' H1) as [R1 [R2 R3]].
  destruct (reflectAll P config day agents' logger') as [agents'' logger''].
  cbn [fst snd] in *. unfold apply_ok. cbn [ap_agents ap_network ap_logger].
  split; [exact R1 | ]. split; [exact H2 | ]. split; [exact H3 | ].
  split; congruence.
Qed.

(** ** Reward shares are never negative *)

Lemma rec_set_In_weak (V : Type) (r : list (string * V)) (k k' : string) (v v' : V) :
  In (k', v') (rec_set r k v) -> v' = v \/ In (k', v') r.
Proof.
  induction r as [| [k0 v0] r IH]; cbn [rec_set]; intros Hin.
  - destruct Hin as [Heq | []]. injection Heq as <- <-. left. reflexivity.
  - destruct (String.eqb k0 k).
    + destruct Hin as [Heq | Hin]; [injection Heq as <- <-; left; reflexivity | ].
      right. right. exact Hin.
    + destruct Hin as [Heq | Hin]; [right; left; exact Heq | ].
      destruct (IH Hin) as [H | H]; [left; exact H | right; right; exact H].
Qed.

Lemma fold_rec_set_values (A V : Type) (key : A -> string) (val : A -> V) (Pv : V -> Prop)
      (l : list A) (r : list (string * V)) :
  (forall a, In a l -> Pv (val a)) ->
  (forall k v, In (k, v) r -> Pv v) ->
  forall k v, In (k, v) (fold_left (fun acc a => rec_set acc (key a) (val a)) l r) -> Pv v.
Proof.
  revert r. induction l as [| a l IH]; intros r Hl Hr; cbn [fold_left]; [exact Hr | ].
  apply IH.
  - intros b Hb. apply Hl. right. exact Hb.
  - intros k v Hin. apply rec_set_In_weak in Hin. destruct Hin as [-> | Hin].
    + apply Hl. left. reflexivity.
    + apply (Hr k v Hin).
Qed.

Lemma Qdiv_nonneg (a b : Q) : 0 <= a -> 0 <= b -> 0 <= a / b.
Proof.
  intros Ha Hb. unfold Qdiv. apply Qmult_le_0_compat; [exact Ha | ].
  apply Qinv_le_0_compat. exact Hb.
Qed.

Lemma skill_nonneg (a : AgentState) (key : string) : skills_nonneg a -> 0 <= skill a key.
Proof.
  intros H. unfold skill. destruct (rec_get (skillset a) key) as [v |] eqn:E; cbn [orElse].
  - apply (H key v). apply rec_get_In. exact E.
  - lra.
Qed.

Lemma fold_skill_nonneg (key : string) (l : list AgentState) (acc : Q) :
  (forall a, In a l -> skills_nonneg a) -> 0 <= acc ->
  0 <= fold_left (fun acc agent => acc + skill agent key) l acc.
Proof.
  revert acc. induction l as [| a l IH]; intros acc Hl Hacc; cbn [fold_left]; [exact Hacc | ].
  apply IH; [intros b Hb; apply Hl; right; exact Hb | ].
  pose proof (@skill_nonneg a key (Hl a (or_introl eq_refl))). lra.
Qed.

Lemma computeShare_nonneg (task : ScenarioTask) (agents : list AgentState) (T : Q) :
  (forall a, In a agents -> skills_nonneg a) ->
  forall k v, In (k, v) (computeShare task agents T) -> 0 <= v.
Proof.
  intros Hs. unfold computeShare.
  destruct (Nat.eqb (length agents) 0) eqn:E0; cbn [orb].
  { unfold fromEntries. rewrite fold_left_over_map. cbn [fst snd].
    apply fold_rec_set_values with (val := fun _ : AgentState => 0) (key := id);
      [intros; lra | intros k v []]. }
  destruct (Qleb T 0) eqn:ET.
  { unfold fromEntries. rewrite fold_left_over_map. cbn [fst snd].
    apply fold_rec_set_values with (val := fun _ : AgentState => 0) (key := id);
      [intros; lra | intros k v []]. }
  apply Qleb_gt in ET. apply Nat.eqb_neq in E0.
  assert (Hn : 0 < ofNat (length agents)) by (apply ofNat_pos; lia).
  destruct (norm task).
  - apply fold_rec_set_values
      with (val := fun _ : AgentState => T / ofNat (length agents)) (key := id);
      [ | intros k v []].
    intros a _. apply Qdiv_nonneg; lra.
  - set (key := skillKey task).
    set (total := fold_left (fun acc agent => acc + skill agent key) agents 0).
    assert (Htotal : 0 <= total) by (apply fold_skill_nonneg; [exact Hs | lra]).
    apply fold_rec_set_values
      with (val := fun agent : AgentState =>
                     T * (skill agent key
                          / (if truthy total then total else ofNat (length agents))))
           (key := id);
      [ | intros k v []].
    intros a Ha. apply Qmult_le_0_compat; [lra | ].
    apply Qdiv_nonneg; [apply skill_nonneg, Hs, Ha | ].
    destruct (truthy total); lra.
  - set (key := skillKey task).
    set (elite := elite_positions key agents).
    apply fold_rec_set_values
      with (val := fun ia : nat * AgentState =>
                     (T - T * 0.25) / ofNat (length agents)
                     + (if existsb (Nat.eqb (fst ia)) elite
                        then T * 0.25 / ofNat (length elite) else 0))
           (key := fun ia : nat * AgentState => id (snd ia));
      [ | intros k v []].
    intros ia _.
    assert (H1 : 0 <= (T - T * 0.25) / ofNat (length agents)) by (apply Qdiv_nonneg; lra).
    assert (H2 : 0 <= T * 0.25 / ofNat (length elite))
      by (apply Qdiv_nonneg; [lra | apply ofNat_nonneg]).
    destruct (existsb (Nat.eqb (fst ia)) elite); lra.
  - apply fold_rec_set_values with (val := fun _ : AgentState => 0) (key := id);
      [intros; lra | intros k v []].
Qed.

Lemma assignTask_rewards_nonneg (P : Platform) (config : ScenarioConfig)
      (shuffled : list AgentState) (res : ResourceLevel) (st : AssignState)
      (task : ScenarioTask) :
  (forall a, In a shuffled -> skills_nonneg a) ->
  Forall rewards_nonneg (executions st) ->
  Forall rewards_nonneg (executions (assignTask P config shuffled res st task)).
Proof.
  intros Hs Hst. unfold assignTask.
  set (need := Math_min (recommendedParticipants task) (ofNat (set_size (availableAgents st)))).
  destruct (Qltb need (minParticipants task)); [exact Hst | ].
  pose proof (collectParticipants_ok task need shuffled (availableAgents st))
    as [Hparts _].
  destruct (collectParticipants task need shuffled (availableAgents st)) as [parts avail].
  cbn [fst snd] in *.
  destruct (Qltb (ofNat (length parts)) (minParticipants task)); [exact Hst | ].
  destruct (next (assign_rng st)) as [u rng1].
  destruct (sampleInjuries config task _ parts rng1) as [inj rng2].
  cbn [executions]. apply Forall_app. split; [exact Hst | ].
  constructor; [ | constructor].
  unfold rewards_nonneg. cbn [rewards]. apply computeShare_nonneg.
  intros a Ha. apply Hs. apply Hparts. exact Ha.
Qed.

Lemma assignTasks_rewards_nonneg (P : Platform) (config : ScenarioConfig)
      (rng : SeededRandom) (agents : list AgentState) (res : ResourceLevel)
      (taskSequence : option (list ScenarioTask)) :
  (forall a, In a agents -> skills_nonneg a) ->
  Forall rewards_nonneg (fst (assignTasks P config rng agents res taskSequence)).
Proof.
  intros Hs. unfold assignTasks, assignLoop.
  pose proof (shuffle_perm rng agents) as Hperm.
  destruct (shuffle rng agents) as [shuffled rng1]. cbn [fst] in Hperm.
  assert (Hs' : forall a, In a shuffled -> skills_nonneg a).
  { intros a Ha. apply Hs. apply (Permutation_in _ Hperm). exact Ha. }
  set (taskList := orElse taskSequence (tasks config)).
  assert (Hloop : forall l st,
             Forall rewards_nonneg (executions st) ->
             Forall rewards_nonneg
                    (executions (fold_left (assignTask P config shuffled res) l st))).
  { induction l as [| t l IH]; intros st Hst; cbn [fold_left]; [exact Hst | ].
    apply IH. apply assignTask_rewards_nonneg; assumption. }
  specialize (Hloop taskList
                    {| availableAgents := set_of_list (map id shuffled);
                       executions := []; assign_rng := rng1 |} (Forall_nil _)).
  destruct (fold_left (assignTask P config shuffled res) taskList _) as [av ex rg].
  cbn [executions fst] in *. unfold idleFallback. cbn [availableAgents executions].
  destruct (set_size av); [exact Hloop | ].
  destruct (match find is_camp_maintenance taskList with
            | Some t => Some t
            | None => find is_camp_maintenance (tasks config)
            end) as [maintenance |]; [ | exact Hloop].
  apply Forall_app. split; [exact Hloop | ]. constructor; [ | constructor].
  unfold rewards_nonneg. cbn [rewards]. apply computeShare_nonneg.
  intros a Ha. apply filter_In in Ha. apply Hs'. apply Ha.
Qed.

(** ** C3 and C9: initialisation and steps keep the invariant *)

Lemma initializeAgent_ok (P : Platform) (config : ScenarioConfig) (i : nat)
      (rng : SeededRandom) :
  agent_ok config (fst (fst (initializeAgent P config i rng))).
Proof.
  unfold initializeAgent.
  assert (Hskills : forall l acc,
             (forall k v, In (k, v) (fst acc) -> 0 <= v) ->
             forall k v,
               In (k, v)
                  (fst (fold_left
                          (fun (acc : list (string * Q) * SeededRandom)
                               (entry : string * (Q * Q)) =>
                             let '(skills, rng) := acc in
                             let '(key, (mean, std)) := entry in
                             let '(raw, rng) := sampleNormal P rng mean std in
                             (rec_set skills key (clamp raw 0 1.2), rng))
                          l acc)) -> 0 <= v).
  { induction l as [| [key [mean std]] l IH]; intros [skills r] Hacc; cbn [fold_left];
      [exact Hacc | ].
    apply IH. destruct (sampleNormal P r mean std) as [raw r']. cbn [fst] in *.
    intros k v Hin. apply rec_set_In_weak in Hin. destruct Hin as [-> | Hin].
    - apply clamp_lower.
    - apply (Hacc k v Hin). }
  specialize (Hskills (skillProfiles (agentPopulation config)) ([], rng)
                      (fun k v (H : In (k, v) []) => match H with end)).
  destruct (fold_left _ (skillProfiles (agentPopulation config)) ([], rng)) as [skills rng0].
  repeat match goal with
         | |- context [sampleNormal P ?r ?m ?s] => destruct (sampleNormal P r m s)
         end.
  cbn [fst]. split.
  - exact Hskills.
  - split; [constructor | exact I].
Qed.

Lemma initializeAgents_ok (P : Platform) (config : ScenarioConfig) (rng : SeededRandom) :
  Forall (agent_ok config) (fst (fst (initializeAgents P config rng))).
Proof.
  unfold initializeAgents.
  assert (H : forall l acc,
             Forall (agent_ok config) (fst (fst acc)) ->
             Forall (agent_ok config)
                    (fst (fst (fold_left
                                 (fun (acc : list AgentState * list (string * string)
                                             * SeededRandom) (i : nat) =>
                                    let '(agents, membership, rng) := acc in
                                    let '(agent, camp, rng) := initializeAgent P config i rng in
                                    (agents ++ [agent], rec_set membership (id agent) camp, rng))
                                 l acc)))).
  { induction l as [| i l IH]; intros [[agents membership] r] Hacc; cbn [fold_left];
      [exact Hacc | ].
    apply IH. pose proof (initializeAgent_ok P config i r) as Hi.
    destruct (initializeAgent P config i r) as [[agent camp] r']. cbn [fst] in *.
    apply Forall_app. split; [exact Hacc | constructor; [exact Hi | constructor]]. }
  apply H. constructor.
Qed.

Lemma initialize_inv (P : Platform) (config : ScenarioConfig) (seed : Z)
      (sim : CooperationSimulation) :
  CooperationSimulation_initialize P config seed = Ok sim ->
  sim_inv sim /\ sim_config sim = config.
Proof.
  unfold CooperationSimulation_initialize.
  destruct (SeasonalEnvironment_initialize config) as [environment | |]; cbn [bind];
    try discriminate.
  pose proof (initializeAgents_ok P config (SeededRandom_new seed)) as Ha.
  destruct (initializeAgents P config (SeededRandom_new seed)) as [[agents membership] rng].
  cbn [fst] in Ha. intros H. injection H as <-.
  split; [ | reflexivity].
  unfold sim_inv. cbn [sim_network sim_logger sim_config sim_agents].
  split; [split; [constructor | intros k e []] | ].
  split; [intros k e [] | ].
  split; [reflexivity | exact Ha].
Qed.

Lemma stepDay_inv (P : Platform) (w : World) (fuel : nat) (sim sim' : CooperationSimulation)
      (r : SimulationStepResult) :
  sim_inv sim -> stepDay P w fuel sim = Ok (r, sim') ->
  sim_inv sim'
  /\ sim_config sim' = sim_config sim
  /\ st_network (newState r) = toState (sim_network sim')
  /\ st_agents (newState r) = sim_agents sim'.
Proof.
  intros [Hwf [_ [Hlog Ha]]]. unfold stepDay.
  destruct (createPlanRequest sim) as [request | |]; cbn [bind]; try discriminate.
  destruct (tick P fuel (sim_config sim) (sim_environment sim) (sim_rng sim))
    as [[envState rng] | |]; cbn [bind]; try discriminate.
  set (ordered := orderTasksByPlan (plan P w (sim_config sim) request) (tasks (sim_config sim))).
  pose proof (@assignTasks_rewards_nonneg P (sim_config sim) rng (sim_agents sim)
                (resourceLevel envState) (Some ordered)) as Hexecs.
  destruct (assignTasks P (sim_config sim) rng (sim_agents sim) (resourceLevel envState)
                        (Some ordered)) as [execs rng1].
  cbn [fst] in Hexecs.
  assert (Hskills : forall a, In a (sim_agents sim) -> skills_nonneg a).
  { intros a Hin. apply (proj1 (Forall_forall _ _) Ha a Hin). }
  specialize (Hexecs Hskills).
  assert (Hev : enabled_events (sim_logger sim) = eventLog (logging (sim_config sim)))
    by (rewrite Hlog; reflexivity).
  assert (Hca : enabled_causal (sim_logger sim) = causalGraph (logging (sim_config sim)))
    by (rewrite Hlog; reflexivity).
  pose proof (@applyExecutions_ok P (sim_config sim) execs (day envState) (sim_agents sim)
                (sim_network sim) (sim_logger sim) Hexecs Ha Hwf Hev Hca)
    as [A1 [A2 [A3 [A4 A5]]]].
  destruct (applyExecutions P (sim_config sim) execs (day envState) (sim_agents sim)
                            (sim_network sim) (sim_logger sim)) as [agents' net' logger'].
  cbn [ap_agents ap_network ap_logger] in *.
  unfold flush. destruct (drawSeed rng1) as [nextSeed rng2].
  intros H. injection H as <- <-.
  cbn [newState st_network st_agents sim_network sim_agents sim_config sim_logger].
  split; [ | split; [reflexivity | split; reflexivity]].
  unfold sim_inv. cbn [sim_network sim_agents sim_config sim_logger].
  split; [exact A2 | ]. split; [exact A3 | ]. split; [ | exact A1].
  unfold logger_idle, SimulationLogger_new. rewrite A4, A5. reflexivity.
Qed.

Lemma stepDays_inv (P : Platform) (ws : nat -> World) (fuel k : nat)
      (sim0 sim : CooperationSimulation) (rs : list SimulationStepResult) :
  sim_inv sim0 -> stepDays P ws fuel k sim0 = Ok (rs, sim) ->
  sim_inv sim /\ sim_config sim = sim_config sim0
  /\ forall r, In r rs -> snapshot_ok (sim_config sim0) r.
Proof.
  intros H0. revert rs sim. induction k as [| k IH]; intros rs sim; cbn [stepDays].
  - intros H. injection H as <- <-. split; [exact H0 | ]. split; [reflexivity | intros r []].
  - destruct (stepDays P ws fuel k sim0) as [[rs1 sim1] | |]; cbn [bind]; try discriminate.
    destruct (IH rs1 sim1 eq_refl) as [H1 [Hc1 Hrs1]].
    destruct (stepDay P (ws k) fuel sim1) as [[r sim2] | |] eqn:Estep; cbn [bind];
      try discriminate.
    intros H. injection H as <- <-.
    destruct (@stepDay_inv P (ws k) fuel sim1 sim2 r H1 Estep) as [H2 [Hc2 [Hn Hag]]].
    split; [exact H2 | ]. split; [congruence | ].
    intros r' Hin. apply in_app_iff in Hin. destruct Hin as [Hin | [<- | []]].
    + apply Hrs1. exact Hin.
    + exists sim2. split; [exact H2 | ]. split; [congruence | ]. split; assumption.
Qed.

Lemma run_inv (P : Platform) (ws : nat -> World) (fuel : nat) (config : ScenarioConfig)
      (seed : Z) (k : nat) (rs : list SimulationStepResult) (sim : CooperationSimulation) :
  run P ws fuel config seed k = Ok (rs, sim) ->
  sim_inv sim /\ sim_config sim = config /\ forall r, In r rs -> snapshot_ok config r.
Proof.
  unfold run.
  destruct (CooperationSimulation_initialize P config seed) as [sim0 | |] eqn:Einit;
    cbn [bind]; try discriminate.
  destruct (@initialize_inv P config seed sim0 Einit) as [H0 Hc0].
  intros H. destruct (@stepDays_inv P ws fuel k sim0 sim rs H0 H) as [H1 [Hc Hrs]].
  split; [exact H1 | ]. split; [congruence | ]. rewrite <- Hc0. exact Hrs.
Qed.

Lemma network_facts (sim : CooperationSimulation) :
  sim_inv sim ->
  one_edge_per_pair (ns_edges (toState (sim_network sim)))
  /\ forall e, In e (ns_edges (toState (sim_network sim))) -> 0.01 <= weight e.
Proof.
  intros [Hwf [Hheavy _]]. split; [apply edges_wf_one_per_pair; exact Hwf | ].
  intros e Hin. cbn [toState ns_edges] in Hin. apply in_map_iff in Hin.
  destruct Hin as [[k e'] [<- Hin]]. apply (Hheavy k e' Hin).
Qed.

(** C9.  After [initialize] and any number of [stepDay] calls, whatever
    the plans, the network holds at most one edge for an ordered pair
    (source, target), and every edge it holds weighs at least 0.01; the same
    is true of the network of every snapshot returned on the way. *)
Theorem network_edges_unique_and_heavy :
  forall (P : Platform) (ws : nat -> World) (fuel : nat) (config : ScenarioConfig)
         (seed : Z) (k : nat) (rs : list SimulationStepResult) (sim : CooperationSimulation),
    run P ws fuel config seed k = Ok (rs, sim) ->
    (one_edge_per_pair (ns_edges (toState (sim_network sim)))
     /\ forall e, In e (ns_edges (toState (sim_network sim))) -> 0.01 <= weight e)
    /\ forall r, In r rs ->
                 one_edge_per_pair (ns_edges (st_network (newState r)))
                 /\ forall e, In e (ns_edges (st_network (newState r))) -> 0.01 <= weight e.
Proof.
  intros P ws fuel config seed k rs sim Hrun.
  destruct (@run_inv P ws fuel config seed k rs sim Hrun) as [Hinv [_ Hrs]].
  split; [apply network_facts; exact Hinv | ].
  intros r Hr. destruct (Hrs r Hr) as [sim' [Hinv' [_ [Hn _]]]].
  rewrite Hn. apply network_facts. exact Hinv'.
Qed.

Lemma memory_facts (sim : CooperationSimulation) (agent : AgentState) :
  sim_inv sim -> In agent (sim_agents sim) ->
  NoDup (map partnerId (socialMemory agent))
  /\ fresh_behind_head (socialMemoryHorizonDays (cognition (sim_config sim)))
                       (socialMemory agent).
Proof.
  intros [_ [_ [_ Ha]]] Hin.
  apply (proj1 (Forall_forall _ _) Ha agent Hin).
Qed.

(** C3 (as amended).  After [initialize] and any number of [stepDay]
    calls, the social memory of every agent has at most one entry per
    partner, and every entry behind the first (the agent's latest
    interaction) satisfies [d - lastInteractionDay <= socialMemoryHorizonDays]
    for the day [d] of that latest interaction; the same holds in every
    snapshot returned on the way. *)
Theorem social_memory_one_entry_per_partner :
  forall (P : Platform) (ws : nat -> World) (fuel : nat) (config : ScenarioConfig)
         (seed : Z) (k : nat) (rs : list SimulationStepResult) (sim : CooperationSimulation),
    run P ws fuel config seed k = Ok (rs, sim) ->
    (forall agent, In agent (sim_agents sim) ->
                   NoDup (map partnerId (socialMemory agent))
                   /\ fresh_behind_head (socialMemoryHorizonDays (cognition config))
                                        (socialMemory agent))
    /\ forall r agent, In r rs -> In agent (st_agents (newState r)) ->
                       NoDup (map partnerId (socialMemory agent))
                       /\ fresh_behind_head (socialMemoryHorizonDays (cognition config))
                                            (socialMemory agent).
Proof.
  intros P ws fuel config seed k rs sim Hrun.
  destruct (@run_inv P ws fuel config seed k rs sim Hrun) as [Hinv [Hc Hrs]].
  split.
  - intros agent Hin. rewrite <- Hc. apply memory_facts; assumption.
  - intros r agent Hr Hin. destruct (Hrs r Hr) as [sim' [Hinv' [Hc' [_ Hag]]]].
    rewrite Hag in Hin. rewrite <- Hc'. apply memory_facts; assumption.
Qed.

Lemma fromState_serialize (sim : CooperationSimulation) :
  sim_inv sim ->
  fromState (sim_config sim) (fst (serialize sim))
  = set_rng sim (SeededRandom_new (rngSeed (fst (serialize sim)))).
Proof.
  intros [Hwf [_ [Hlog _]]]. unfold serialize.
  destruct (drawSeed (sim_rng sim)) as [nextSeed rng].
  cbn [fst rngSeed]. unfold fromState, set_rng.
  cbn [st_environment st_agents st_network rngSeed].
  rewrite (SocialNetwork_roundtrip _ Hwf). unfold logger_idle in Hlog. rewrite <- Hlog.
  reflexivity.
Qed.

Lemma demo_run_defined : exists rs sim, demo_run = Ok (rs, sim).
Proof. eexists. eexists. vm_compute. reflexivity. Qed.

Lemma network_edges_unique_and_heavy_witness :
  exists rs sim,
    demo_run = Ok (rs, sim)
    /\ (one_edge_per_pair (ns_edges (toState (sim_network sim)))
        /\ forall e, In e (ns_edges (toState (sim_network sim))) -> 0.01 <= weight e)
    /\ forall r, In r rs ->
                 one_edge_per_pair (ns_edges (st_network (newState r)))
                 /\ forall e, In e (ns_edges (st_network (newState r))) -> 0.01 <= weight e.
Proof.
  destruct demo_run_defined as [rs [sim E]]. exists rs, sim. split; [exact E | ].
  exact (network_edges_unique_and_heavy Ref.platform (fun _ => offline) 50 demo 1 3 E).
Defined.

Lemma social_memory_one_entry_per_partner_witness :
  exists rs sim,
    demo_run = Ok (rs, sim)
    /\ (forall agent, In agent (sim_agents sim) ->
                      NoDup (map partnerId (socialMemory agent))
                      /\ fresh_behind_head (socialMemoryHorizonDays (cognition demo))
                                           (socialMemory agent))
    /\ forall r agent, In r rs -> In agent (st_agents (newState r)) ->
                       NoDup (map partnerId (socialMemory agent))
                       /\ fresh_behind_head (socialMemoryHorizonDays (cognition demo))
                                            (socialMemory agent).
Proof.
  destruct demo_run_defined as [rs [sim E]]. exists rs, sim. split; [exact E | ].
  exact (social_memory_one_entry_per_partner Ref.platform (fun _ => offline) 50 demo 1 3 E).
Defined.

(** C3 (counterexample).  Three days of the demo scenario (three agents,
    one two-person task, horizon of one day) from seed 1: the pairs are
    (3, 2), (2, 1), (1, 3), so on day 3 agent_2, idle that day, still holds
    its entry for agent_3 of day 1, two days old. *)
Lemma idle_agent_keeps_stale_entry :
  exists rs sim,
    demo_run = Ok (rs, sim)
    /\ Qeqb (day (sim_environment sim)) 3 = true
    /\ Qeqb (socialMemoryHorizonDays (cognition demo)) 1 = true
    /\ map (fun r => map participants (assignments r)) rs
       = [[["agent_3"; "agent_2"]]; [["agent_2"; "agent_1"]]; [["agent_1"; "agent_3"]]]
    /\ map (fun a =>
              (id a,
               map (fun e =>
                      (partnerId e, Qred (lastInteractionDay e),
                       Qleb (day (sim_environment sim) - lastInteractionDay e)
                            (socialMemoryHorizonDays (cognition demo))))
                   (socialMemory a)))
           (sim_agents sim)
       = [("agent_1", [("agent_3", 3, true); ("agent_2", 2, true)]);
          ("agent_2", [("agent_1", 2, true); ("agent_3", 1, false)]);
          ("agent_3", [("agent_1", 3, true)])].
Proof.
  eexists. eexists. split; [vm_compute; reflexivity | ].
  split; [vm_compute; reflexivity | ].
  split; [vm_compute; reflexivity | ].
  split; vm_compute; reflexivity.
Qed.

(** ** C2: restoring a snapshot *)

(** C2 (as amended).  For every simulation reached by [initialize] and
    [stepDay] calls, the copy [fromState(config, serialize(sim))] is the
    original with its generator replaced by a fresh one seeded with the
    snapshot's [rngSeed = floor(next() * 1e9)]: environment, agents, network
    and logger are the same, and [stepDay] on the copy gives, in every
    world, the result [stepDay] gives on the original so re-seeded. *)
Theorem restored_copy_is_reseeded_original :
  forall (P : Platform) (ws : nat -> World) (fuel : nat) (config : ScenarioConfig)
         (seed : Z) (k : nat) (rs : list SimulationStepResult) (sim : CooperationSimulation),
    run P ws fuel config seed k = Ok (rs, sim) ->
    fromState config (fst (serialize sim))
    = set_rng sim (SeededRandom_new (rngSeed (fst (serialize sim))))
    /\ rngSeed (fst (serialize sim)) = Math_floor (fst (next (sim_rng sim)) * 1000000000)
    /\ forall (w : World) (fuel' : nat),
        stepDay P w fuel' (fromState config (fst (serialize sim)))
        = stepDay P w fuel' (set_rng sim (SeededRandom_new (rngSeed (fst (serialize sim))))).
Proof.
  intros P ws fuel config seed k rs sim Hrun.
  destruct (@run_inv P ws fuel config seed k rs sim Hrun) as [Hinv [Hc _]].
  pose proof (fromState_serialize Hinv) as Hcopy. rewrite Hc in Hcopy.
  split; [exact Hcopy | ]. split.
  - unfold serialize, drawSeed. destruct (next (sim_rng sim)); reflexivity.
  - intros w fuel'. rewrite Hcopy. reflexivity.
Qed.

Lemma restored_copy_is_reseeded_original_witness :
  exists rs sim,
    demo_run = Ok (rs, sim)
    /\ fromState demo (fst (serialize sim))
       = set_rng sim (SeededRandom_new (rngSeed (fst (serialize sim))))
    /\ rngSeed (fst (serialize sim)) = Math_floor (fst (next (sim_rng sim)) * 1000000000)
    /\ forall (w : World) (fuel' : nat),
        stepDay Ref.platform w fuel' (fromState demo (fst (serialize sim)))
        = stepDay Ref.platform w fuel'
                  (set_rng sim (SeededRandom_new (rngSeed (fst (serialize sim))))).
Proof.
  destruct demo_run_defined as [rs [sim E]]. exists rs, sim. split; [exact E | ].
  exact (restored_copy_is_reseeded_original Ref.platform (fun _ => offline) 50 demo 1 3 E).
Defined.

(** C2 (counterexample).  After [initialize(demo, 1)], with no adapter
    enabled: [stepDay] on the original returns a snapshot with [rngSeed]
    935894250; [stepDay] on the copy restored from [serialize] returns one
    with [rngSeed] 783541394; and [stepDay] on the original after that
    [serialize] call assigns other agents and returns [rngSeed] 704395367. *)
Lemma restored_copy_steps_differently :
  exists sim original copy later,
    CooperationSimulation_initialize Ref.platform demo 1 = Ok sim
    /\ stepDay Ref.platform offline 50 sim = Ok original
    /\ stepDay Ref.platform offline 50 (fromState demo (fst (serialize sim))) = Ok copy
    /\ stepDay Ref.platform offline 50 (snd (serialize sim)) = Ok later
    /\ rngSeed (fst (serialize sim)) = 834421864%Z
    /\ (map participants (assignments (fst original)), rngSeed (newState (fst original)))
       = ([["agent_3"; "agent_2"]], 935894250%Z)
    /\ (map participants (assignments (fst copy)), rngSeed (newState (fst copy)))
       = ([["agent_3"; "agent_2"]], 783541394%Z)
    /\ (map participants (assignments (fst later)), rngSeed (newState (fst later)))
       = ([["agent_2"; "agent_1"]], 704395367%Z).
Proof.
  eexists. eexists. eexists. eexists.
  split; [vm_compute; reflexivity | ].
  split; [vm_compute; reflexivity | ].
  split; [vm_compute; reflexivity | ].
  split; [vm_compute; reflexivity | ].
  split; [vm_compute; reflexivity | ].
  split; [vm_compute; reflexivity | ].
  split; vm_compute; reflexivity.
Qed.

(** ** C1: runs on the heuristic path are reproducible *)

Lemma stepDay_unavailable (P : Platform) (w1 w2 : World) (fuel : nat)
      (sim : CooperationSimulation) :
  llm_unavailable w1 -> llm_unavailable w2 ->
  stepDay P w1 fuel sim = stepDay P w2 fuel sim.
Proof.
  intros H1 H2. unfold stepDay.
  destruct (createPlanRequest sim) as [request | msg |]; cbn [bind]; try reflexivity.
  rewrite (plan_unavailable P (sim_config sim) request H1).
  rewrite (plan_unavailable P (sim_config sim) request H2).
  reflexivity.
Qed.

Lemma stepDays_unavailable (P : Platform) (ws1 ws2 : nat -> World) (fuel k : nat)
      (sim : CooperationSimulation) :
  (forall i, llm_unavailable (ws1 i)) -> (forall i, llm_unavailable (ws2 i)) ->
  stepDays P ws1 fuel k sim = stepDays P ws2 fuel k sim.
Proof.
  intros H1 H2. induction k as [| k IH]; cbn [stepDays]; [reflexivity | ].
  rewrite IH. destruct (stepDays P ws2 fuel k sim) as [[rs sim1] | |]; cbn [bind];
    try reflexivity.
  rewrite (@stepDay_unavailable P (ws1 k) (ws2 k) fuel sim1 (H1 k) (H2 k)). reflexivity.
Qed.

(** C1.  For every platform, configuration, seed, loop budget and number
    of steps, two runs of [initialize] followed by [k] calls of [stepDay]
    on the heuristic plan path (in each run and at each step no adapter is
    enabled, or every enabled adapter fails) give the same results and the
    same sequence of snapshots, whatever else the two outside worlds are. *)
Theorem heuristic_runs_are_deterministic :
  forall (P : Platform) (ws1 ws2 : nat -> World) (fuel : nat) (config : ScenarioConfig)
         (seed : Z) (k : nat),
    (forall i, llm_unavailable (ws1 i)) -> (forall i, llm_unavailable (ws2 i)) ->
    run P ws1 fuel config seed k = run P ws2 fuel config seed k
    /\ trajectory P ws1 fuel config seed k = trajectory P ws2 fuel config seed k.
Proof.
  intros P ws1 ws2 fuel config seed k H1 H2.
  assert (Hrun : run P ws1 fuel config seed k = run P ws2 fuel config seed k).
  { unfold run. destruct (CooperationSimulation_initialize P config seed); cbn [bind];
      try reflexivity.
    apply stepDays_unavailable; assumption. }
  split; [exact Hrun | ]. unfold trajectory. rewrite Hrun. reflexivity.
Qed.

Lemma broken_unavailable : llm_unavailable broken.
Proof.
  intros a [<- | [<- | [<- | []]]].
  - right. intros request prompt. reflexivity.
  - left. reflexivity.
  - left. reflexivity.
Defined.

Lemma heuristic_runs_are_deterministic_witness :
  run Ref.platform (fun _ => offline) 50 demo 1 3 = run Ref.platform (fun _ => broken) 50 demo 1 3
  /\ trajectory Ref.platform (fun _ => offline) 50 demo 1 3
     = trajectory Ref.platform (fun _ => broken) 50 demo 1 3.
Proof.
  apply (heuristic_runs_are_deterministic Ref.platform (fun _ => offline) (fun _ => broken)
                                          50 demo 1 3).
  - intros i. exact offline_unavailable.
  - intros i. exact broken_unavailable.
Defined.

(** * Further properties of the code *)

(** The first day of the demo scenario from seed 1 runs to its end. *)
Lemma demo_step_defined :
  exists sim r sim',
    CooperationSimulation_initialize Ref.platform demo 1 = Ok sim
    /\ stepDay Ref.platform offline 50 sim = Ok (r, sim').
Proof.
  eexists. eexists. eexists. split; [vm_compute; reflexivity | vm_compute; reflexivity].
Qed.

(** ** random.ts : the generator *)

Lemma ToInt32_range (x : Z) : (-2147483648 <= ToInt32 x < 2147483648)%Z.
Proof. unfold ToInt32. pose proof (Z.mod_pos_bound (x + 2147483648) 4294967296). lia. Qed.

Lemma Qfloor_mul_below (u m : Q) :
  0 <= u -> u < 1 -> 0 < m ->
  (0 <= Qfloor (u * m))%Z /\ inject_Z (Qfloor (u * m)) < m.
Proof.
  intros H0 H1 Hm. split.
  - assert (H : (Qfloor 0 <= Qfloor (u * m))%Z) by (apply Qfloor_resp_le; nra).
    exact H.
  - apply Qle_lt_trans with (u * m); [apply Qfloor_le | nra].
Qed.

(** X1.  A draw of the generator is a unit fraction k / 2^32 with
    0 <= k < 2^32, so it lies in [0, 1) and never reaches 1; the state it
    leaves is a signed 32-bit integer (the [| 0] of [next]). *)
Theorem next_is_a_unit_fraction :
  forall rng : SeededRandom,
    (exists k, (0 <= k < 4294967296)%Z /\ fst (next rng) = ofZ k / 4294967296)
    /\ 0 <= fst (next rng) /\ fst (next rng) < 1
    /\ (-2147483648 <= state (snd (next rng)) < 2147483648)%Z.
Proof.
  intros rng. split; [ | split; [ | split ] ].
  - exists (next_word (state rng)). split; [apply next_word_range | reflexivity].
  - apply next_unit_interval.
  - apply next_unit_interval.
  - cbn. apply ToInt32_range.
Qed.

Lemma integer_bounds (rng : SeededRandom) (max : Q) :
  0 < max ->
  (0 <= fst (integer rng max))%Z /\ ofZ (fst (integer rng max)) < max
  /\ snd (integer rng max) = snd (next rng).
Proof.
  intros Hm. unfold integer.
  destruct (next rng) as [u r] eqn:E. cbn [fst snd].
  pose proof (next_unit_interval rng) as [H0 H1]. rewrite E in H0, H1. cbn [fst] in H0, H1.
  destruct (Qfloor_mul_below H0 H1 Hm) as [A B]. unfold Math_floor, ofZ. auto.
Qed.

(** X2.  For a positive bound, [integer(max)] returns a whole number
    i with 0 <= i < max (the bound itself is never returned, also when it
    is not whole) and consumes exactly one draw. *)
Theorem integer_below_max :
  forall (rng : SeededRandom) (max : Q),
    0 < max ->
    (0 <= fst (integer rng max))%Z /\ ofZ (fst (integer rng max)) < max
    /\ snd (integer rng max) = snd (next rng).
Proof. intros rng max Hm. apply integer_bounds. exact Hm. Qed.

Lemma integer_below_max_witness :
  (0 <= fst (integer (SeededRandom_new 1) 6))%Z /\ ofZ (fst (integer (SeededRandom_new 1) 6)) < 6
  /\ snd (integer (SeededRandom_new 1) 6) = snd (next (SeededRandom_new 1)).
Proof. apply (@integer_below_max (SeededRandom_new 1) 6). reflexivity. Defined.

(** X3.  For min <= max, [range(min, max)] returns a number in
    [min, max] and consumes exactly one draw. *)
Theorem range_within_bounds :
  forall (rng : SeededRandom) (min max : Q),
    min <= max ->
    min <= fst (range rng min max) /\ fst (range rng min max) <= max
    /\ snd (range rng min max) = snd (next rng).
Proof.
  intros rng lo hi Hle. unfold range.
  destruct (next rng) as [u r] eqn:E. cbn [fst snd].
  pose proof (next_unit_interval rng) as [H0 H1]. rewrite E in H0, H1. cbn [fst] in H0, H1.
  repeat split; nra.
Qed.

Lemma range_within_bounds_witness :
  -(1) <= fst (range (SeededRandom_new 1) (-(1)) 1) /\ fst (range (SeededRandom_new 1) (-(1)) 1) <= 1
  /\ snd (range (SeededRandom_new 1) (-(1)) 1) = snd (next (SeededRandom_new 1)).
Proof. apply (@range_within_bounds (SeededRandom_new 1) (-(1)) 1). vm_compute. discriminate. Defined.

(** X4.  [pick] throws "Cannot pick from empty list" on the empty list
    and, on a non-empty list, returns one of its elements after exactly
    one draw: the index it computes is never out of range. *)
Theorem pick_returns_member :
  forall (T : Type) (rng : SeededRandom) (items : list T),
    (items = [] -> pick rng items = Throw "Cannot pick from empty list")
    /\ (items <> [] ->
        exists x, pick rng items = Ok (x, snd (next rng)) /\ In x items).
Proof.
  intros T rng items. split.
  - intros ->. reflexivity.
  - intros Hne. destruct items as [|a l]; [congruence|].
    unfold pick.
    assert (Hpos : 0 < ofNat (length (a :: l))) by (apply ofNat_pos; cbn; lia).
    destruct (integer_bounds rng Hpos) as (A & B & C).
    destruct (integer rng (ofNat (length (a :: l)))) as [i r] eqn:E. cbn [fst snd] in A, B, C.
    assert (Hi : (Z.to_nat i < length (a :: l))%nat).
    { unfold ofZ, ofNat in B. rewrite <- Zlt_Qlt in B. lia. }
    destruct (nth_error (a :: l) (Z.to_nat i)) as [x|] eqn:N.
    + exists x. subst r. split; [reflexivity | eapply nth_error_In; eauto].
    + apply nth_error_None in N. lia.
Qed.

Lemma pick_returns_member_witness :
  pick (SeededRandom_new 1) (@nil string) = Throw "Cannot pick from empty list"
  /\ exists x, pick (SeededRandom_new 1) ["a"; "b"; "c"] = Ok (x, snd (next (SeededRandom_new 1)))
               /\ In x ["a"; "b"; "c"].
Proof.
  split.
  - apply (proj1 (pick_returns_member (SeededRandom_new 1) (@nil string))). reflexivity.
  - apply (proj2 (pick_returns_member (SeededRandom_new 1) ["a"; "b"; "c"])). discriminate.
Defined.

Lemma drawn_state (n : N) (rng : SeededRandom) :
  ToUint32 (state (drawn n rng)) = ToUint32 (state rng + Z.of_N n * 1831565813).
Proof.
  unfold drawn. induction n as [|n IH] using N.peano_ind.
  - cbn. f_equal. lia.
  - rewrite N.iter_succ.
    remember (N.iter n (fun r => snd (next r)) rng) as r eqn:Er.
    change (state (snd (next r))) with (next_state (state r)).
    rewrite ToUint32_next_state, IH. unfold ToUint32.
    rewrite Zplus_mod_idemp_l. f_equal. lia.
Qed.

Lemma odd_step_invertible (d : Z) :
  ((d * 1831565813) mod 4294967296 = 0 -> d mod 4294967296 = 0)%Z.
Proof.
  intros H.
  apply Z.mod_divide in H; [|lia]. apply Z.mod_divide; [lia|].
  apply Z.gauss with 1831565813%Z.
  - rewrite Z.mul_comm. exact H.
  - vm_compute. reflexivity.
Qed.

(** X5.  The state after n draws is the start state plus n times
    0x6D2B79F5, modulo 2^32: the generator returns to its state after
    exactly 2^32 draws, and within fewer than 2^32 draws no two states (as
    unsigned 32-bit words) are equal. *)
Theorem generator_has_full_period :
  forall (rng : SeededRandom) (i j : N),
    ToUint32 (state (drawn i rng)) = ToUint32 (state rng + Z.of_N i * 1831565813)
    /\ ToUint32 (state (drawn (i + 4294967296) rng)) = ToUint32 (state (drawn i rng))
    /\ ((i < j)%N -> (j < i + 4294967296)%N ->
        ToUint32 (state (drawn i rng)) <> ToUint32 (state (drawn j rng))).
Proof.
  intros rng i j. split; [apply drawn_state | split].
  - rewrite !drawn_state. unfold ToUint32.
    rewrite N2Z.inj_add. change (Z.of_N 4294967296) with 4294967296%Z.
    replace (state rng + (Z.of_N i + 4294967296) * 1831565813)%Z
      with (state rng + Z.of_N i * 1831565813 + 1831565813 * 4294967296)%Z by lia.
    apply Z_mod_plus_full.
  - intros Hij Hj E. rewrite !drawn_state in E. unfold ToUint32 in E.
    assert (H : (((Z.of_N j - Z.of_N i) * 1831565813) mod 4294967296 = 0)%Z).
    { replace ((Z.of_N j - Z.of_N i) * 1831565813)%Z
        with ((state rng + Z.of_N j * 1831565813) - (state rng + Z.of_N i * 1831565813))%Z by lia.
      rewrite Zminus_mod, E, Z.sub_diag. reflexivity. }
    apply odd_step_invertible in H.
    rewrite Z.mod_small in H by lia. lia.
Qed.

Lemma generator_has_full_period_witness :
  ToUint32 (state (drawn 0 (SeededRandom_new 7))) <> ToUint32 (state (drawn 3 (SeededRandom_new 7))).
Proof.
  apply (proj2 (proj2 (generator_has_full_period (SeededRandom_new 7) 0 3))); reflexivity.
Defined.

Lemma ToUint32_small (x : Z) : (0 <= x < 4294967296)%Z -> ToUint32 x = x.
Proof. intros H. unfold ToUint32. apply Z.mod_small. exact H. Qed.

Lemma drawSeed_range (rng : SeededRandom) : (0 <= fst (drawSeed rng) < 1000000000)%Z.
Proof.
  unfold drawSeed. destruct (next rng) as [u r] eqn:E. cbn [fst].
  pose proof (next_unit_interval rng) as [H0 H1]. rewrite E in H0, H1. cbn [fst] in H0, H1.
  unfold Math_floor. split.
  - change 0%Z with (Qfloor 0). apply Qfloor_resp_le. nra.
  - assert (H : inject_Z (Qfloor (u * 1000000000)) < inject_Z 1000000000).
    { apply Qle_lt_trans with (u * 1000000000); [apply Qfloor_le|].
      change (inject_Z 1000000000) with 1000000000. nra. }
    rewrite <- Zlt_Qlt in H. exact H.
Qed.

(** X6.  The constructor reduces the seed to an unsigned 32-bit word
    ([>>> 0]): seeds that differ by a multiple of 2^32 give the same
    generator, hence the same initial simulation and the same restored
    simulation. *)
Theorem seeds_are_taken_modulo_2_32 :
  forall (P : Platform) (config : ScenarioConfig) (seed k : Z),
    SeededRandom_new (seed + k * 4294967296) = SeededRandom_new seed
    /\ (0 <= state (SeededRandom_new seed) < 4294967296)%Z
    /\ CooperationSimulation_initialize P config (seed + k * 4294967296)
       = CooperationSimulation_initialize P config seed
    /\ forall st : SimulationState,
        fromState config
          {| st_environment := st_environment st; st_agents := st_agents st;
             st_network := st_network st; rngSeed := rngSeed st + k * 4294967296;
             environmentRngSeed := environmentRngSeed st |}
        = fromState config st.
Proof.
  intros P config seed k.
  assert (E : forall s, SeededRandom_new (s + k * 4294967296) = SeededRandom_new s).
  { intros s. unfold SeededRandom_new, ToUint32. f_equal. apply Z_mod_plus_full. }
  split; [apply E | split; [ | split ] ].
  - cbn. apply Z.mod_pos_bound. lia.
  - unfold CooperationSimulation_initialize. rewrite E. reflexivity.
  - intros st. unfold fromState. cbn [rngSeed st_environment st_agents st_network]. rewrite E. reflexivity.
Qed.

(** X7.  The seed that [serialize] stores, and the one in the snapshot
    of every completed [stepDay], is a whole number in [0, 10^9); the
    snapshot's environmentRngSeed is the same number; [fromState] starts
    the restored generator at exactly that number (the constructor's
    reduction modulo 2^32 does not change it). *)
Theorem resume_seed_survives_the_constructor :
  forall (P : Platform) (sim : CooperationSimulation),
    (0 <= rngSeed (fst (serialize sim)) < 1000000000)%Z
    /\ sim_rng (fromState (sim_config sim) (fst (serialize sim)))
       = {| state := rngSeed (fst (serialize sim)) |}
    /\ forall w fuel r sim',
        stepDay P w fuel sim = Ok (r, sim') ->
        (0 <= rngSeed (newState r) < 1000000000)%Z
        /\ environmentRngSeed (newState r) = rngSeed (newState r)
        /\ sim_rng (fromState (sim_config sim) (newState r))
           = {| state := rngSeed (newState r) |}.
Proof.
  intros P sim.
  assert (A : (0 <= rngSeed (fst (serialize sim)) < 1000000000)%Z).
  { unfold serialize. pose proof (drawSeed_range (sim_rng sim)) as H.
    destruct (drawSeed (sim_rng sim)) as [s r]. exact H. }
  split; [exact A | split].
  - unfold fromState. cbn [sim_rng]. unfold SeededRandom_new. rewrite ToUint32_small by lia. reflexivity.
  - intros w fuel r sim' H. unfold stepDay in H.
    destruct (createPlanRequest sim) as [req| |]; cbn [bind] in H; try discriminate.
    destruct (tick P fuel (sim_config sim) (sim_environment sim) (sim_rng sim)) as [[env rng]| |];
      cbn [bind] in H; try discriminate.
    destruct (assignTasks P (sim_config sim) rng (sim_agents sim) (resourceLevel env) _) as [execs rng2].
    destruct (flush _) as [[entries links] logger].
    pose proof (drawSeed_range rng2) as B.
    destruct (drawSeed rng2) as [s r3]. cbn [fst] in B.
    injection H as <- <-. cbn [newState rngSeed environmentRngSeed].
    split; [exact B | split; [reflexivity|] ].
    unfold fromState. cbn [sim_rng rngSeed]. unfold SeededRandom_new. rewrite ToUint32_small by lia. reflexivity.
Qed.

Lemma resume_seed_survives_the_constructor_witness :
  exists sim r sim',
    stepDay Ref.platform offline 50 sim = Ok (r, sim')
    /\ (0 <= rngSeed (newState r) < 1000000000)%Z
    /\ environmentRngSeed (newState r) = rngSeed (newState r)
    /\ sim_rng (fromState (sim_config sim) (newState r)) = {| state := rngSeed (newState r) |}.
Proof.
  destruct demo_step_defined as (sim & r & sim' & _ & E). exists sim, r, sim'.
  split; [exact E|].
  exact (proj2 (proj2 (resume_seed_survives_the_constructor Ref.platform sim))
               offline 50%nat r sim' E).
Defined.

(** ** environment.ts *)

Lemma clamp01_probability (v : Q) : probability (clamp01 v).
Proof. unfold probability, clamp01, Math_max, Math_min. qcases; split; lra. Qed.

Lemma clampRisk_probability (v : Q) : probability (clampRisk v).
Proof. exact (clamp01_probability v). Qed.

Lemma index_mod_some (T : Type) (arr : list T) (i : Z) :
  arr <> [] -> (0 <= i)%Z -> exists x, index_mod arr i = Some x /\ In x arr.
Proof.
  intros Hne Hi. destruct arr as [|a l]; [congruence|].
  unfold index_mod.
  set (n := Z.of_nat (length (a :: l))).
  assert (Hn : (0 < n)%Z) by (subst n; cbn [length]; lia).
  pose proof (Z.rem_bound_pos i n Hi Hn) as B.
  destruct (Z.rem i n <? 0)%Z eqn:E; [apply Z.ltb_lt in E; lia|].
  destruct (nth_error (a :: l) (Z.to_nat (Z.rem i n))) as [x|] eqn:N.
  - exists x. split; [reflexivity | eapply nth_error_In; eauto].
  - apply nth_error_None in N. subst n. lia.
Qed.

Lemma index_mod_inv (T : Type) (arr : list T) (i : Z) (x : T) :
  index_mod arr i = Some x ->
  (0 <= Z.rem i (Z.of_nat (length arr)) < Z.of_nat (length arr))%Z
  /\ nth_error arr (Z.to_nat (Z.rem i (Z.of_nat (length arr)))) = Some x.
Proof.
  unfold index_mod. destruct arr as [|a l]; [discriminate|].
  set (n := Z.of_nat (length (a :: l))).
  destruct (Z.rem i n <? 0)%Z eqn:E; [discriminate|]. apply Z.ltb_ge in E.
  intros N. split; [|exact N]. split; [exact E|].
  assert (H : nth_error (a :: l) (Z.to_nat (Z.rem i n)) <> None) by congruence.
  apply nth_error_Some in H. subst n. lia.
Qed.

Lemma clampRisk_plus_0 (v : Q) : clampRisk (v + 0) == clampRisk v.
Proof. change (clamp01 (v + 0) == clamp01 v). apply clamp01_proper. ring. Qed.

(** The rates of a composed hazard are probabilities. *)
Lemma composeHazard_probability (config : ScenarioConfig) (i : Z) (h : HazardRates) :
  composeHazard config i = Ok h ->
  probability (injury h) /\ probability (hypothermia h) /\ probability (predator h).
Proof.
  unfold composeHazard.
  destruct (match hazards_seasonal (hazards config) with Some _ => _ | None => _ end)
    as [seasonal| |]; cbn [bind]; try discriminate.
  intros H. injection H as <-. cbn [injury hypothermia predator].
  repeat split; apply clampRisk_probability.
Qed.

(** X8.  Without a table of seasonal hazards [composeHazard] returns the
    clamped base rates for every season index, also when the configuration
    has no season; with a table it fails with a TypeError when the
    configuration has no season; with a season it returns for every
    season index from 0 on.  Every rate it returns (injury, hypothermia,
    predator) lies in [0, 1], whatever the configured base rates and
    seasonal modifiers. *)
Theorem composeHazard_rates_are_probabilities :
  forall (config : ScenarioConfig) (i : Z),
    (hazards_seasonal (hazards config) = None ->
     exists h, composeHazard config i = Ok h
               /\ injury h == clampRisk (injury (hazards_base (hazards config)))
               /\ hypothermia h == clampRisk (hypothermia (hazards_base (hazards config)))
               /\ predator h == clampRisk (predator (hazards_base (hazards config))))
    /\ (hazards_seasonal (hazards config) <> None -> seasons config = [] ->
        composeHazard config i = Throw "TypeError: season is undefined")
    /\ (seasons config <> [] -> (0 <= i)%Z -> exists h, composeHazard config i = Ok h)
    /\ (forall h, composeHazard config i = Ok h ->
                  probability (injury h) /\ probability (hypothermia h)
                  /\ probability (predator h)).
Proof.
  intros config i. split; [ | split; [ | split ] ].
  - intros E. unfold composeHazard. rewrite E. cbn [bind]. eexists. split; [reflexivity|].
    cbn [injury hypothermia predator orElse p_injury p_hypothermia p_predator].
    repeat split; apply clampRisk_plus_0.
  - intros Ht Hs. unfold composeHazard. rewrite Hs.
    destruct (hazards_seasonal (hazards config)); [reflexivity | congruence].
  - intros Hne Hi. unfold composeHazard.
    destruct (index_mod_some Hne Hi) as (x & -> & _).
    destruct (hazards_seasonal (hazards config)); cbn [bind]; eexists; reflexivity.
  - apply composeHazard_probability.
Qed.

Lemma composeHazard_rates_are_probabilities_witness :
  (exists h, composeHazard seasonless 0 = Ok h
             /\ injury h == clampRisk (injury (hazards_base (hazards seasonless))))
  /\ composeHazard (without_seasons demo) 0 = Throw "TypeError: season is undefined"
  /\ exists h, composeHazard demo 5 = Ok h
               /\ probability (injury h) /\ probability (hypothermia h)
               /\ probability (predator h).
Proof.
  split; [ | split ].
  - destruct (proj1 (composeHazard_rates_are_probabilities seasonless 0) eq_refl)
      as (h & E & A & _).
    exists h. split; [exact E | exact A].
  - apply (proj1 (proj2 (composeHazard_rates_are_probabilities (without_seasons demo) 0)));
      [discriminate | reflexivity].
  - destruct (proj1 (proj2 (proj2 (composeHazard_rates_are_probabilities demo 5)))) as [h E];
      [discriminate | discriminate | ].
    exists h. split; [exact E|].
    exact (proj2 (proj2 (proj2 (composeHazard_rates_are_probabilities demo 5))) h E).
Defined.

Lemma range_bounds (rng : SeededRandom) (lo hi : Q) :
  lo <= hi -> lo <= fst (range rng lo hi) /\ fst (range rng lo hi) <= hi.
Proof.
  intros Hle. unfold range.
  destruct (next rng) as [u r] eqn:E. cbn [fst snd].
  pose proof (next_unit_interval rng) as [H0 H1]. rewrite E in H0, H1. cbn [fst] in H0, H1.
  split; nra.
Qed.

Lemma Qrem_bounds (a b : Q) : 0 <= a -> 0 < b -> 0 <= Qrem a b /\ Qrem a b < b.
Proof.
  intros Ha Hb. unfold Qrem, Qtrunc, ofZ.
  assert (Hq : 0 <= a / b) by (apply Qle_shift_div_l; lra).
  destruct (Qltb (a / b) 0) eqn:E; [apply Qltb_lt in E; lra|].
  pose proof (Qfloor_le (a / b)) as F1. pose proof (Qlt_floor (a / b)) as F2.
  rewrite inject_Z_plus in F2. change (inject_Z 1) with 1 in F2.
  set (f := inject_Z (Qfloor (a / b))) in *.
  assert (Ea : a == (a / b) * b) by (field; lra).
  split.
  - assert (b * f <= a / b * b) by nra. lra.
  - assert (a / b * b < (f + 1) * b) by nra. lra.
Qed.

(** X9.  A [tick] that returns advances the day by one, needs a season
    length other than 0, and leaves a season index that addresses a season
    of the configuration; for that season the climate shock lies within
    the season's noise, small and large game stay above the floor that the
    0.1 lower bound of the gamma term gives, the risk rates are in [0, 1],
    and the day of the season lies in [0, seasonLengthDays). *)
Theorem tick_moves_to_the_next_day :
  forall (P : Platform) (fuel : nat) (config : ScenarioConfig) (st st' : EnvironmentState)
         (rng rng' : SeededRandom),
    tick P fuel config st rng = Ok (st', rng') ->
    day st' = day st + 1
    /\ ~ seasonLengthDays config == 0
    /\ (0 <= seasonIndex st' < Z.of_nat (length (seasons config)))%Z
    /\ (exists season,
           nth_error (seasons config) (Z.to_nat (seasonIndex st')) = Some season
           /\ (0 <= climateNoise season ->
               - climateNoise season <= climateShock st'
               /\ climateShock st' <= climateNoise season)
           /\ (0 <= baseSmallGameRate (resources config) -> 0 <= resourceMultiplier season ->
               0.08 * baseSmallGameRate (resources config) * resourceMultiplier season
               <= smallGame (resourceLevel st'))
           /\ (0 <= baseLargeGameRate (resources config) -> 0 <= resourceMultiplier season ->
               0.1 * baseLargeGameRate (resources config) * resourceMultiplier season
               + orElse (season_lookup (seasonalLargeGameBonus (resources config))
                                       (season_name season)) 0
               <= largeGame (resourceLevel st')))
    /\ (probability (injury (riskModifier st'))
        /\ probability (hypothermia (riskModifier st'))
        /\ probability (predator (riskModifier st')))
    /\ (0 < seasonLengthDays config -> -(1) <= day st ->
        0 <= seasonDay st' /\ seasonDay st' < seasonLengthDays config).
Proof.
  intros P fuel config st st' rng rng' H. unfold tick in H.
  destruct (gammaSample P fuel rng _ _) as [[gamma rng1]| |]; cbn [bind] in H; try discriminate.
  destruct (Qeqb (seasonLengthDays config) 0) eqn:EL; [discriminate|].
  apply Qeqb_neq in EL.
  destruct (index_mod (seasons config) _) as [season|] eqn:ES; [|discriminate].
  apply index_mod_inv in ES. destruct ES as [Hidx Hnth].
  set (shock := if truthy (climateNoise season)
                then range rng1 (- climateNoise season) (climateNoise season)
                else (0, rng1)) in H.
  assert (Hshock : 0 <= climateNoise season ->
                   - climateNoise season <= fst shock /\ fst shock <= climateNoise season).
  { intros Hn. subst shock. destruct (truthy (climateNoise season)).
    - apply range_bounds. lra.
    - cbn [fst]. split; lra. }
  destruct shock as [climate rng2]. cbn [fst] in Hshock.
  destruct (match logGaussian (resources config) with
            | Some (mean, variance) => logGaussianSample P rng2 mean variance
            | None => (1, rng2) end) as [logG rng3].
  destruct (composeHazard config _) as [risk| |] eqn:ER; cbn [bind] in H; try discriminate.
  injection H as <- <-. cbn [day seasonIndex seasonDay resourceLevel climateShock riskModifier
                             smallGame largeGame].
  split; [reflexivity|]. split; [exact EL|]. split; [exact Hidx|]. split; [ | split].
  - exists season. split; [exact Hnth|]. split; [exact Hshock|].
    pose proof (Math_max_l 0.1 (gamma + climate)) as M.
    set (m := Math_max 0.1 (gamma + climate)) in *.
    split; intros Hb Hm.
    + assert (Hbm : 0 <= baseSmallGameRate (resources config) * resourceMultiplier season)
        by (apply Qmult_le_0_compat; assumption).
      assert (Hm1 : 0 <= m - 0.1) by lra.
      pose proof (Qmult_le_0_compat _ _ Hbm Hm1). lra.
    + assert (Hbm : 0 <= baseLargeGameRate (resources config) * resourceMultiplier season)
        by (apply Qmult_le_0_compat; assumption).
      assert (Hm1 : 0 <= m - 0.1) by lra.
      pose proof (Qmult_le_0_compat _ _ Hbm Hm1). lra.
  - exact (composeHazard_probability _ _ ER).
  - intros HL Hd. apply Qrem_bounds; lra.
Qed.

Lemma demo_tick_defined :
  exists st' rng', tick Ref.platform 50 demo day_zero (SeededRandom_new 1) = Ok (st', rng').
Proof. eexists. eexists. vm_compute. reflexivity. Qed.

Lemma tick_moves_to_the_next_day_witness :
  exists st' rng',
    tick Ref.platform 50 demo day_zero (SeededRandom_new 1) = Ok (st', rng')
    /\ day st' = day day_zero + 1
    /\ (0 <= seasonIndex st' < Z.of_nat (length (seasons demo)))%Z
    /\ (0 <= seasonDay st' /\ seasonDay st' < seasonLengthDays demo).
Proof.
  destruct demo_tick_defined as [st' [rng' E]]. exists st', rng'.
  destruct (tick_moves_to_the_next_day Ref.platform 50 demo day_zero (SeededRandom_new 1) E)
    as (A & _ & B & _ & _ & C).
  split; [exact E|]. split; [exact A|]. split; [exact B|].
  apply C; [reflexivity | vm_compute; discriminate].
Defined.

Lemma tick_needs_a_season (P : Platform) (fuel : nat) (config : ScenarioConfig)
      (st : EnvironmentState) (rng : SeededRandom) (r : EnvironmentState * SeededRandom) :
  seasons config = [] \/ seasonLengthDays config == 0 ->
  tick P fuel config st rng <> Ok r.
Proof.
  intros Hs. unfold tick.
  destruct (gammaSample P fuel rng _ _) as [[g r1]| |]; cbn [bind]; try discriminate.
  destruct Hs as [Hs|Hs].
  - rewrite Hs. destruct (Qeqb (seasonLengthDays config) 0); discriminate.
  - apply Qeqb_eq in Hs. rewrite Hs. discriminate.
Qed.

(** X10.  In a configuration without seasons no day passes: every
    [stepDay] fails with a TypeError, and with no season or with a season
    length of 0 neither [tick] nor [stepDay] ever returns a result.
    [initialize] fails with a TypeError as well when the configuration
    has a table of seasonal hazards, and returns a simulation at day 0
    when it has none. *)
Theorem no_season_no_step :
  forall (P : Platform) (config : ScenarioConfig),
    (seasons config = [] ->
     (hazards_seasonal (hazards config) <> None ->
      forall seed, CooperationSimulation_initialize P config seed
                   = Throw "TypeError: season is undefined")
     /\ (hazards_seasonal (hazards config) = None ->
         forall seed, exists sim,
             CooperationSimulation_initialize P config seed = Ok sim
             /\ sim_config sim = config /\ day (sim_environment sim) = 0)
     /\ (forall w fuel sim,
            sim_config sim = config ->
            stepDay P w fuel sim = Throw "TypeError: season is undefined"))
    /\ (seasons config = [] \/ seasonLengthDays config == 0 ->
        (forall fuel st rng r, tick P fuel config st rng <> Ok r)
        /\ (forall w fuel sim r, sim_config sim = config -> stepDay P w fuel sim <> Ok r)).
Proof.
  intros P config. split.
  - intros Hs. split; [ | split ].
    + intros Ht seed. unfold CooperationSimulation_initialize, SeasonalEnvironment_initialize,
                        composeHazard. rewrite Hs.
      destruct (hazards_seasonal (hazards config)); [reflexivity | congruence].
    + intros Ht seed. unfold CooperationSimulation_initialize, SeasonalEnvironment_initialize,
                        composeHazard. rewrite Ht. cbn [bind].
      destruct (initializeAgents P config (SeededRandom_new seed)) as [[agents membership] rng].
      eexists. split; [reflexivity|]. split; reflexivity.
    + intros w fuel sim <-. unfold stepDay, createPlanRequest. rewrite Hs. reflexivity.
  - intros Hs. split.
    + intros fuel st rng r. apply tick_needs_a_season. exact Hs.
    + intros w fuel sim r <- H. unfold stepDay in H.
      destruct (createPlanRequest sim); cbn [bind] in H; try discriminate.
      destruct (tick P fuel (sim_config sim) (sim_environment sim) (sim_rng sim))
        as [er| |] eqn:E; cbn [bind] in H; try discriminate.
      exact (@tick_needs_a_season P fuel (sim_config sim) (sim_environment sim) (sim_rng sim) er Hs E).
Qed.

Lemma no_season_no_step_witness :
  CooperationSimulation_initialize Ref.platform (without_seasons demo) 1
  = Throw "TypeError: season is undefined"
  /\ (exists sim,
         CooperationSimulation_initialize Ref.platform seasonless 1 = Ok sim
         /\ sim_config sim = seasonless
         /\ stepDay Ref.platform offline 50 sim = Throw "TypeError: season is undefined")
  /\ forall fuel st rng r, tick Ref.platform fuel seasonless st rng <> Ok r.
Proof.
  destruct (no_season_no_step Ref.platform (without_seasons demo)) as [A _].
  destruct (no_season_no_step Ref.platform seasonless) as [B C].
  split; [ | split ].
  - apply (proj1 (A eq_refl)). discriminate.
  - destruct (proj1 (proj2 (B eq_refl)) eq_refl 1%Z) as (sim & E & Ec & _).
    exists sim. split; [exact E | split; [exact Ec|] ].
    apply (proj2 (proj2 (B eq_refl))). exact Ec.
  - apply (proj1 (C (or_introl eq_refl))).
Defined.

Lemma gammaSample_normal_positive (P : Platform) (fuel : nat) (rng : SeededRandom) (c : Q) :
  match gammaSample_normal P fuel rng c with Ok (_, v, _) => 0 < v | _ => True end.
Proof.
  revert rng. induction fuel as [|fuel IH]; intros rng; cbn [gammaSample_normal]; [exact I|].
  destruct (next rng) as [u1 r1]. destruct (next r1) as [u2 r2].
  destruct (Qleb _ 0) eqn:E; [apply IH | apply Qleb_gt in E; exact E].
Qed.

Lemma gammaSample_loop_positive (P : Platform) (fuel : nat) (rng : SeededRandom)
      (d c scale : Q) :
  0 < d -> 0 < scale -> positive_result (gammaSample_loop P fuel rng d c scale).
Proof.
  intros Hd Hs. revert rng. induction fuel as [|fuel IH]; intros rng; cbn [gammaSample_loop];
    [exact I|].
  pose proof (gammaSample_normal_positive P (S fuel) rng c) as N.
  destruct (gammaSample_normal P (S fuel) rng c) as [[[x v] r1]| |]; cbn [bind];
    [ | exact I | exact I].
  destruct (next r1) as [u r2].
  assert (G : 0 < scale * d * (v * v * v)).
  { repeat apply Qmult_lt_0_compat; assumption. }
  destruct (Qltb u _); [exact G|]. destruct (Qltb _ _); [exact G | apply IH].
Qed.

(** X11.  For a shape of at least 1 and a positive scale every value
    that [gammaSample] returns is strictly positive, whatever the engine's
    [Math.log] and [Math.pow] are. *)
Theorem gammaSample_is_positive :
  forall (P : Platform) (fuel : nat) (rng rng' : SeededRandom) (shape scale g : Q),
    1 <= shape -> 0 < scale ->
    gammaSample P fuel rng shape scale = Ok (g, rng') -> 0 < g.
Proof.
  intros P fuel rng rng' shape scale g Hshape Hscale H.
  assert (G : positive_result (gammaSample P fuel rng shape scale)).
  { destruct fuel as [|fuel]; [exact I|]. cbn [gammaSample].
    destruct (Qltb shape 1) eqn:E; [apply Qltb_lt in E; lra|].
    apply gammaSample_loop_positive; [|exact Hscale].
    assert (H3 : 1 / 3 < 1) by reflexivity. lra. }
  rewrite H in G. exact G.
Qed.

Lemma demo_gamma_defined :
  exists g rng', gammaSample Ref.platform 50 (SeededRandom_new 1) 2 1 = Ok (g, rng').
Proof. eexists. eexists. vm_compute. reflexivity. Qed.

Lemma gammaSample_is_positive_witness :
  exists g rng', gammaSample Ref.platform 50 (SeededRandom_new 1) 2 1 = Ok (g, rng') /\ 0 < g.
Proof.
  destruct demo_gamma_defined as [g [rng' E]]. exists g, rng'. split; [exact E|].
  apply (@gammaSample_is_positive Ref.platform 50 (SeededRandom_new 1) rng' 2 1 g);
    [vm_compute; discriminate | reflexivity | exact E].
Defined.

(** ** cognition.ts *)

Lemma fold_excess_nonneg (f : Q -> Q) (l : list Q) (acc : Q) :
  0 <= acc -> 0 <= fold_left (fun acc share => acc + Math_max (f share) 0) l acc.
Proof.
  revert acc. induction l as [|x l IH]; intros acc H; cbn [fold_left]; [exact H|].
  apply IH. pose proof (Math_max_r (f x) 0). lra.
Qed.

Lemma fold_excess_zero (f : Q -> Q) (l : list Q) (acc : Q) :
  (forall x, In x l -> f x <= 0) ->
  fold_left (fun acc share => acc + Math_max (f share) 0) l acc == acc.
Proof.
  revert acc. induction l as [|x l IH]; intros acc H; cbn [fold_left]; [reflexivity|].
  rewrite IH by (intros y Hy; apply H; right; exact Hy).
  assert (E : Math_max (f x) 0 == 0).
  { unfold Math_max. pose proof (H x (or_introl eq_refl)). qcases; lra. }
  rewrite E. ring.
Qed.

(** X12.  With non-negative envy and guilt weights the Fehr-Schmidt
    utility never exceeds the own share; it equals the own share when all
    others receive the same, and also when nobody receives more and the
    guilt weight is 0. *)
Theorem fehrSchmidtUtility_never_exceeds_own_share :
  forall (ownShare : Q) (othersShares : list Q) (alpha beta : Q),
    (0 <= alpha -> 0 <= beta -> fehrSchmidtUtility ownShare othersShares alpha beta <= ownShare)
    /\ ((forall s, In s othersShares -> s == ownShare) ->
        fehrSchmidtUtility ownShare othersShares alpha beta == ownShare)
    /\ ((forall s, In s othersShares -> s <= ownShare) -> beta == 0 ->
        fehrSchmidtUtility ownShare othersShares alpha beta == ownShare).
Proof.
  intros own others a b. unfold fehrSchmidtUtility.
  destruct others as [|x l].
  - split; [intros; lra | split; intros; lra].
  - set (n := ofNat (length (x :: l))).
    assert (Hn : 0 < n) by (apply ofNat_pos; cbn; lia).
    set (up := fold_left (fun acc share => acc + Math_max (share - own) 0) (x :: l) 0).
    set (down := fold_left (fun acc share => acc + Math_max (own - share) 0) (x :: l) 0).
    split; [ | split].
    + intros Ha Hb.
      assert (0 <= up) by (apply (fold_excess_nonneg (fun s => s - own)); lra).
      assert (0 <= down) by (apply (fold_excess_nonneg (fun s => own - s)); lra).
      assert (0 <= up / n) by (apply Qle_shift_div_l; lra).
      assert (0 <= down / n) by (apply Qle_shift_div_l; lra).
      assert (0 <= a * (up / n)) by (apply Qmult_le_0_compat; assumption).
      assert (0 <= b * (down / n)) by (apply Qmult_le_0_compat; assumption).
      lra.
    + intros Heq.
      assert (E1 : up == 0).
      { apply (fold_excess_zero (fun s => s - own)). intros s Hs. rewrite (Heq s Hs). lra. }
      assert (E2 : down == 0).
      { apply (fold_excess_zero (fun s => own - s)). intros s Hs. rewrite (Heq s Hs). lra. }
      rewrite E1, E2. field. lra.
    + intros Hle Hb.
      assert (E1 : up == 0).
      { apply (fold_excess_zero (fun s => s - own)). intros s Hs. pose proof (Hle s Hs). lra. }
      rewrite E1, Hb. field. lra.
Qed.

Lemma fehrSchmidtUtility_never_exceeds_own_share_witness :
  fehrSchmidtUtility 4 [6; 2] 0.5 0.3 <= 4.
Proof.
  apply (proj1 (fehrSchmidtUtility_never_exceeds_own_share 4 [6; 2] 0.5 0.3));
    vm_compute; discriminate.
Defined.

(** ** network.ts *)

Lemma map_delete_absent (V : Type) (m : list (string * V)) (k : string) :
  ~ In k (map fst m) -> map_delete m k = m.
Proof.
  induction m as [|[k' v] m IH]; intros H; [reflexivity|].
  unfold map_delete in *. cbn [filter fst map] in *.
  destruct (String.eqb k' k) eqn:E.
  - apply String.eqb_eq in E. subst. exfalso. apply H. left. reflexivity.
  - cbn [negb]. f_equal. apply IH. intros Hin. apply H. right. exact Hin.
Qed.

Lemma map_delete_app (V : Type) (m1 m2 : list (string * V)) (k : string) :
  map_delete (m1 ++ m2) k = map_delete m1 k ++ map_delete m2 k.
Proof. unfold map_delete. apply filter_app. Qed.

Lemma rec_set_skip (V : Type) (l1 l2 : list (string * V)) (k : string) (v0 v : V) :
  ~ In k (map fst l1) -> rec_set (l1 ++ (k, v0) :: l2) k v = l1 ++ (k, v) :: l2.
Proof.
  induction l1 as [|[k' v'] l1 IH]; intros H; cbn [app rec_set].
  - rewrite String.eqb_refl. reflexivity.
  - destruct (String.eqb k' k) eqn:E.
    + apply String.eqb_eq in E. subst. exfalso. apply H. left. reflexivity.
    + f_equal. apply IH. intros Hin. apply H. right. exact Hin.
Qed.

Lemma decayed_keys (decay : Q) (l : list (string * NetworkEdge)) (k : string) :
  In k (map fst (flat_map (decayed decay) l)) -> In k (map fst l).
Proof.
  induction l as [|[k' e] l IH]; cbn [flat_map map]; [auto|].
  rewrite map_app. intros H. apply in_app_or in H. destruct H as [H|H].
  - unfold decayed in H. cbn [fst snd] in H. destruct (Qltb _ _); [destruct H|].
    destruct H as [<-|[]]. left. reflexivity.
  - right. apply IH. exact H.
Qed.

Lemma applyDecay_fold (decay : Q) (l2 l1 : list (string * NetworkEdge)) :
  NoDup (map fst (l1 ++ l2)) ->
  fold_left
    (fun m entry =>
       let '(key, edge) := entry in
       let newWeight := weight edge * decay in
       if Qltb newWeight 0.01 then map_delete m key
       else map_set m key (set_weight edge newWeight))
    l2 (flat_map (decayed decay) l1 ++ l2)
  = flat_map (decayed decay) (l1 ++ l2).
Proof.
  revert l1. induction l2 as [|[k e] l2 IH]; intros l1 Hnd; cbn [fold_left].
  - rewrite !app_nil_r. reflexivity.
  - rewrite map_app in Hnd. cbn [map fst] in Hnd.
    assert (H1 : ~ In k (map fst l1)).
    { intros Hin. apply NoDup_remove_2 in Hnd. apply Hnd. apply in_or_app. left. exact Hin. }
    assert (H2 : ~ In k (map fst l2)).
    { intros Hin. apply NoDup_remove_2 in Hnd. apply Hnd. apply in_or_app. right. exact Hin. }
    assert (H1' : ~ In k (map fst (flat_map (decayed decay) l1))).
    { intros Hin. apply H1. eapply decayed_keys. exact Hin. }
    assert (Hnd' : NoDup (map fst ((l1 ++ [(k, e)]) ++ l2))).
    { rewrite <- app_assoc. cbn [app]. rewrite map_app. exact Hnd. }
    specialize (IH (l1 ++ [(k, e)]) Hnd').
    replace (l1 ++ (k, e) :: l2) with ((l1 ++ [(k, e)]) ++ l2)
      by (rewrite <- app_assoc; reflexivity).
    rewrite <- IH. f_equal.
    rewrite flat_map_app. cbn [flat_map]. rewrite app_nil_r.
    change (decayed decay (k, e))
      with (if Qltb (weight e * decay) 0.01 then []
            else [(k, set_weight e (weight e * decay))]).
    destruct (Qltb (weight e * decay) 0.01).
    + rewrite app_nil_r.
      change ((k, e) :: l2) with ([(k, e)] ++ l2). rewrite !map_delete_app.
      rewrite (@map_delete_absent _ _ _ H1'), (@map_delete_absent _ _ _ H2).
      unfold map_delete. cbn [filter fst]. rewrite String.eqb_refl. reflexivity.
    + unfold map_set. rewrite rec_set_skip by exact H1'.
      rewrite <- app_assoc. reflexivity.
Qed.

(** X13.  On a network with one entry per key, [applyDecay] keeps the
    edges in their order, multiplies every weight by 1 - forgetFactor and
    drops exactly the edges whose new weight is below 0.01; it adds no
    edge and leaves the forget factor and the camp membership alone. *)
Theorem applyDecay_scales_and_prunes :
  forall n : SocialNetwork,
    NoDup (map fst (edges n)) ->
    edges (applyDecay n) = flat_map (decayed (1 - forgetFactor n)) (edges n)
    /\ (forall k e', In (k, e') (edges (applyDecay n)) <->
                     exists e, In (k, e) (edges n)
                               /\ 0.01 <= weight e * (1 - forgetFactor n)
                               /\ e' = set_weight e (weight e * (1 - forgetFactor n)))
    /\ (length (edges (applyDecay n)) <= length (edges n))%nat
    /\ forgetFactor (applyDecay n) = forgetFactor n
    /\ campMembership (applyDecay n) = campMembership n.
Proof.
  intros n Hnd.
  assert (E : edges (applyDecay n) = flat_map (decayed (1 - forgetFactor n)) (edges n)).
  { unfold applyDecay. cbn [set_edges edges].
    exact (@applyDecay_fold (1 - forgetFactor n) (edges n) [] Hnd). }
  split; [exact E|]. split; [ | split; [ | split; reflexivity ] ].
  - intros k e'. rewrite E, in_flat_map. split.
    + intros [[k0 e] [Hin Hd]]. unfold decayed in Hd. cbn [fst snd] in Hd.
      destruct (Qltb _ 0.01) eqn:EQ; [destruct Hd|]. destruct Hd as [Hd|[]].
      injection Hd as <- <-. apply Qltb_ge in EQ. exists e. auto.
    + intros (e & Hin & Hw & ->). exists (k, e). split; [exact Hin|].
      unfold decayed. cbn [fst snd]. apply Qltb_ge in Hw. rewrite Hw. left. reflexivity.
  - rewrite E. generalize (edges n). induction l as [|x l IH]; cbn [flat_map length]; [lia|].
    rewrite length_app. unfold decayed at 1. destruct (Qltb _ _); cbn [length]; lia.
Qed.

Lemma acquaintances_distinct : NoDup (map fst (edges (SocialNetwork_new acquaintances))).
Proof. vm_compute. repeat constructor; cbn; intuition discriminate. Qed.

Lemma applyDecay_scales_and_prunes_witness :
  edges (applyDecay (SocialNetwork_new acquaintances))
  = flat_map (decayed (1 - forgetFactor (SocialNetwork_new acquaintances)))
             (edges (SocialNetwork_new acquaintances))
  /\ (length (edges (applyDecay (SocialNetwork_new acquaintances)))
      <= length (edges (SocialNetwork_new acquaintances)))%nat.
Proof.
  destruct (@applyDecay_scales_and_prunes (SocialNetwork_new acquaintances) acquaintances_distinct) as (A & _ & B & _).
  split; [exact A | exact B].
Defined.

Lemma includes_bar_cons (c : ascii) (s : string) :
  includes (String c s) "|" = false -> c <> "|"%char /\ includes s "|" = false.
Proof.
  cbn [includes String.prefix]. destruct (ascii_dec "|" c) as [<-|Hne].
  - destruct s; discriminate.
  - intros H. split; [congruence | exact H].
Qed.

(** X14.  Edge keys of two pairs of ids are equal only for equal pairs,
    provided the source ids contain no bar: ids as [buildAgentId] makes
    them never share an edge by accident. *)
Theorem makeKey_separates_plain_ids :
  forall s1 t1 s2 t2 : string,
    includes s1 "|" = false -> includes s2 "|" = false ->
    makeKey s1 t1 = makeKey s2 t2 -> s1 = s2 /\ t1 = t2.
Proof.
  unfold makeKey. induction s1 as [|c1 s1 IH]; intros t1 s2 t2 H1 H2 E.
  - destruct s2 as [|c2 s2].
    + cbn in E. injection E as E. auto.
    + cbn in E. injection E as Ec _. apply includes_bar_cons in H2. destruct H2 as [H2 _].
      congruence.
  - destruct s2 as [|c2 s2].
    + cbn in E. injection E as Ec _. apply includes_bar_cons in H1. destruct H1 as [H1 _].
      congruence.
    + cbn [String.append] in E. injection E as Ec E.
      apply includes_bar_cons in H1. apply includes_bar_cons in H2.
      destruct (IH t1 s2 t2 (proj2 H1) (proj2 H2) E) as [-> ->]. subst. auto.
Qed.

Lemma makeKey_separates_plain_ids_witness :
  "agent_1" = "agent_1" /\ "agent_2" = "agent_2".
Proof.
  apply (@makeKey_separates_plain_ids "agent_1" "agent_2" "agent_1" "agent_2"); reflexivity.
Defined.

(** X15.  [reinforceInteraction] adds delta to the weight of the edge
    from source to target, or creates the edge with weight delta, and
    leaves every other key as it was; two reinforcements add up; the
    number of edges grows by at most one. *)
Theorem reinforceInteraction_adds_to_the_edge :
  forall (n : SocialNetwork) (src tgt : string) (delta delta2 : Q),
    map_get (edges (reinforceInteraction n src tgt delta)) (makeKey src tgt)
    = Some (match map_get (edges n) (makeKey src tgt) with
            | Some existing => set_weight existing (weight existing + delta)
            | None => {| source := src; target := tgt; weight := delta |}
            end)
    /\ (forall k, k <> makeKey src tgt ->
                  map_get (edges (reinforceInteraction n src tgt delta)) k
                  = map_get (edges n) k)
    /\ map_get (edges (reinforceInteraction (reinforceInteraction n src tgt delta)
                                            src tgt delta2)) (makeKey src tgt)
       = Some (match map_get (edges n) (makeKey src tgt) with
               | Some existing => set_weight existing (weight existing + delta + delta2)
               | None => {| source := src; target := tgt; weight := delta + delta2 |}
               end)
    /\ (length (edges n) <= length (edges (reinforceInteraction n src tgt delta))
        <= S (length (edges n)))%nat.
Proof.
  intros n src tgt delta delta2.
  assert (A : forall m d,
             map_get (edges (reinforceInteraction m src tgt d)) (makeKey src tgt)
             = Some (match map_get (edges m) (makeKey src tgt) with
                     | Some existing => set_weight existing (weight existing + d)
                     | None => {| source := src; target := tgt; weight := d |}
                     end)).
  { intros m d. unfold reinforceInteraction. cbn [set_edges edges].
    unfold map_get, map_set. apply rec_get_set_same. }
  split; [apply A | split; [ | split ] ].
  - intros k Hk. unfold reinforceInteraction. cbn [set_edges edges].
    unfold map_get, map_set. apply rec_get_set_other. congruence.
  - rewrite A, A. destruct (map_get (edges n) (makeKey src tgt)); reflexivity.
  - unfold reinforceInteraction. cbn [set_edges edges]. unfold map_set.
    rewrite <- !(length_map fst), rec_set_keys.
    destruct (in_dec string_dec _ _); [lia|]. rewrite length_app. cbn. lia.
Qed.

Lemma ratio_probability (c t : nat) :
  (c <= t)%nat -> probability (match t with O => 0 | _ => ofNat c / ofNat t end).
Proof.
  intros H. unfold probability. destruct t as [|t]; [split; lra|].
  assert (Ht : 0 < ofNat (S t)) by (apply ofNat_pos; lia).
  pose proof (ofNat_nonneg c) as Hc.
  assert (Hle : ofNat c <= ofNat (S t)).
  { unfold ofNat. rewrite <- Zle_Qle. lia. }
  split.
  - apply Qle_shift_div_l; lra.
  - apply Qle_shift_div_r; lra.
Qed.

Lemma triads_of_closed (adj : list (string * list string)) (arr : list string) :
  (snd (triads_of adj arr) <= fst (triads_of adj arr))%nat.
Proof.
  induction arr as [|a rest IH]; cbn [triads_of]; [cbn; lia|].
  destruct (triads_of adj rest) as [t c]. cbn [fst snd] in *.
  assert (H : (match map_get adj a with
               | Some ni => length (filter (fun b => set_has ni b) rest)
               | None => O
               end <= length rest)%nat).
  { destruct (map_get adj a); [apply filter_length_le | lia]. }
  lia.
Qed.

(** X16.  The three statistics of [computeStats] (reciprocity,
    assortativity, clustering) lie in [0, 1] for every network; for a
    network without edges they are 0, 0.5 and 0. *)
Theorem computeStats_are_ratios :
  forall n : SocialNetwork,
    probability (reciprocity_stat (computeStats n))
    /\ probability (assortativity (computeStats n))
    /\ probability (clustering (computeStats n))
    /\ (edges n = [] ->
        computeStats n = {| reciprocity_stat := 0; assortativity := 0.5; clustering := 0 |}).
Proof.
  intros n.
  assert (L : edges n = [] ->
              computeStats n
              = {| reciprocity_stat := 0; assortativity := 0.5; clustering := 0 |}).
  { intros E. unfold computeStats. rewrite E. reflexivity. }
  revert L. unfold computeStats.
  match goal with
  | |- context [fold_left ?f ?adj (O, O)] =>
      assert (F : forall l acc, (snd acc <= fst acc)%nat ->
                                (snd (fold_left f l acc) <= fst (fold_left f l acc))%nat);
      [ | pose proof (F adj (O, O) (Nat.le_refl _)) as Htri ]
  end.
  { induction l as [|entry l IH]; intros acc Hacc; cbn [fold_left]; [exact Hacc|].
    apply IH. pose proof (triads_of_closed
                            (fold_left (fun adj e => adjacency_add adj (source e) (target e))
                                       (map snd (edges n)) []) (snd entry)) as Ht.
    destruct (triads_of _ (snd entry)) as [t c]. cbn [fst snd] in *. lia. }
  destruct (fold_left _ _ (O, O)) as [triads closed]. cbn [fst snd] in Htri.
  cbn [reciprocity_stat assortativity clustering]. intros L.
  split; [ | split; [ | split ] ].
  - apply ratio_probability. apply filter_length_le.
  - match goal with
    | |- context [length (filter ?f (filter ?g ?l))] =>
        pose proof (filter_length_le f (filter g l)) as Hs;
        destruct (length (filter g l)) as [|k] eqn:Ek
    end.
    + split; vm_compute; discriminate.
    + apply (@ratio_probability _ (S k)). exact Hs.
  - apply ratio_probability. exact Htri.
  - exact L.
Qed.

Lemma rec_get_absent (V : Type) (r : list (string * V)) (k : string) :
  ~ In k (map fst r) -> rec_get r k = None.
Proof.
  induction r as [|[k' v] r IH]; intros H; cbn [rec_get]; [reflexivity|].
  destruct (String.eqb k' k) eqn:E.
  - apply String.eqb_eq in E. subst. exfalso. apply H. left. reflexivity.
  - apply IH. intros Hin. apply H. right. exact Hin.
Qed.

Lemma fold_rec_set_get (V : Type) (m base : list (string * V)) (k : string) :
  NoDup (map fst m) ->
  rec_get (fold_left (fun r kv => rec_set r (fst kv) (snd kv)) m base) k
  = match rec_get m k with Some c => Some c | None => rec_get base k end.
Proof.
  revert base. induction m as [|[k0 v0] m IH]; intros base Hnd; cbn [fold_left fst snd];
    [reflexivity|].
  inversion Hnd as [|x l Hx Hnd']; subst. rewrite IH by exact Hnd'.
  cbn [rec_get]. destruct (String.eqb k0 k) eqn:E.
  - apply String.eqb_eq in E. subst k0.
    rewrite (@rec_get_absent _ _ _ Hx). apply rec_get_set_same.
  - destruct (rec_get m k); [reflexivity|].
    apply rec_get_set_other. intros ->. rewrite String.eqb_refl in E. discriminate.
Qed.

(** X17.  After [mergeCampMembership] an agent listed in the new
    membership (each agent once) has the new camp, every other agent
    keeps the camp it had; edges and forget factor are unchanged. *)
Theorem mergeCampMembership_overrides :
  forall (n : SocialNetwork) (membership : list (string * string)) (k : string),
    NoDup (map fst membership) ->
    rec_get (campMembership (mergeCampMembership n membership)) k
    = match rec_get membership k with
      | Some camp => Some camp
      | None => rec_get (campMembership n) k
      end
    /\ edges (mergeCampMembership n membership) = edges n
    /\ forgetFactor (mergeCampMembership n membership) = forgetFactor n.
Proof.
  intros n membership k H. split; [|split; reflexivity].
  unfold mergeCampMembership. cbn [campMembership]. apply fold_rec_set_get. exact H.
Qed.

Lemma mergeCampMembership_overrides_witness :
  rec_get (campMembership (mergeCampMembership (SocialNetwork_new acquaintances)
                                               [("agent_2", "Camp-B")])) "agent_2"
  = Some "Camp-B".
Proof.
  apply (proj1 (@mergeCampMembership_overrides (SocialNetwork_new acquaintances)
                  [("agent_2", "Camp-B")] "agent_2"
                  (NoDup_cons _ (fun H : In "agent_2" [] => H) (NoDup_nil _)))).
Defined.

Lemma new_edges_wf (l : list NetworkEdge) (m : list (string * NetworkEdge)) :
  edges_wf m ->
  edges_wf (fold_left (fun m edge => map_set m (makeKey (source edge) (target edge)) edge) l m).
Proof.
  revert m. induction l as [|e l IH]; intros m H; cbn [fold_left]; [exact H|].
  apply IH. destruct H as [Hnd Hk]. split.
  - apply rec_set_NoDup. exact Hnd.
  - intros k e' Hin. unfold map_set in Hin. apply rec_set_In in Hin; [|exact Hnd].
    destruct Hin as [[-> ->] | [_ Hin]]; [reflexivity | apply Hk; exact Hin].
Qed.

Lemma new_edges_fresh (l2 l1 : list NetworkEdge) :
  NoDup (map edge_key (l1 ++ l2)) ->
  fold_left (fun m edge => map_set m (makeKey (source edge) (target edge)) edge) l2
            (map (fun e => (edge_key e, e)) l1)
  = map (fun e => (edge_key e, e)) (l1 ++ l2).
Proof.
  revert l1. induction l2 as [|e l2 IH]; intros l1 H; cbn [fold_left].
  - rewrite app_nil_r. reflexivity.
  - replace (l1 ++ e :: l2) with ((l1 ++ [e]) ++ l2) in * by (rewrite <- app_assoc; reflexivity).
    rewrite <- IH by exact H. f_equal. unfold map_set.
    rewrite rec_set_fresh.
    + rewrite map_app. reflexivity.
    + rewrite map_map. cbn [fst]. rewrite map_app, map_app in H.
      apply NoDup_app_remove_r in H. apply NoDup_remove_2 in H.
      rewrite app_nil_r in H. exact H.
Qed.

(** X18.  A network built from a state has one edge per key, each under
    the key of its endpoints; [toState] after the constructor gives the
    state back when its edges have distinct keys, and the constructor
    after [toState] gives such a network back. *)
Theorem network_state_round_trip :
  forall (st : NetworkState) (n : SocialNetwork),
    edges_wf (edges (SocialNetwork_new st))
    /\ (NoDup (map edge_key (ns_edges st)) -> toState (SocialNetwork_new st) = st)
    /\ (edges_wf (edges n) -> SocialNetwork_new (toState n) = n).
Proof.
  intros st n. split; [ | split ].
  - unfold SocialNetwork_new. cbn [edges]. apply new_edges_wf.
    split; [constructor | intros k e []].
  - intros H. unfold toState, SocialNetwork_new. cbn [edges forgetFactor campMembership].
    pose proof (@new_edges_fresh (ns_edges st) [] H) as E. cbn [map app] in E.
    rewrite E.
    rewrite map_map. cbn [snd]. rewrite map_id. destruct st. reflexivity.
  - apply SocialNetwork_roundtrip.
Qed.

Lemma network_state_round_trip_witness :
  toState (SocialNetwork_new acquaintances) = acquaintances
  /\ SocialNetwork_new (toState (SocialNetwork_new acquaintances)) = SocialNetwork_new acquaintances.
Proof.
  destruct (@network_state_round_trip acquaintances (SocialNetwork_new acquaintances))
    as (A & B & C).
  split; [apply B | apply C; exact A].
  repeat constructor; cbn; intuition discriminate.
Defined.

(** ** tasks.ts *)

Lemma sort_insert_perm (A : Type) (cmp : A -> A -> Q) (x : A) (l : list A) :
  Permutation (sort_insert cmp x l) (x :: l).
Proof.
  induction l as [|y l IH]; cbn [sort_insert]; [reflexivity|].
  destruct (Qltb (cmp x y) 0); [reflexivity|].
  rewrite IH. apply perm_swap.
Qed.

Lemma sort_perm (A : Type) (cmp : A -> A -> Q) (l : list A) : Permutation (sort cmp l) l.
Proof.
  unfold sort.
  assert (H : forall l acc, Permutation (fold_left (fun acc x => sort_insert cmp x acc) l acc)
                                        (acc ++ l)).
  { clear l. induction l as [|x l IH]; intros acc; cbn [fold_left].
    - rewrite app_nil_r. reflexivity.
    - rewrite IH, sort_insert_perm. apply Permutation_middle. }
  apply (H l []).
Qed.

Lemma Qsum_app (l1 l2 : list Q) : Qsum (l1 ++ l2) == Qsum l1 + Qsum l2.
Proof.
  unfold Qsum. rewrite fold_left_app, fold_left_Qplus.
  fold (Qsum l1). fold (Qsum l2). reflexivity.
Qed.

Lemma Qsum_perm (l l' : list Q) : Permutation l l' -> Qsum l == Qsum l'.
Proof.
  induction 1 as [ | x l l' H IH | x y l | l l' l'' H1 IH1 H2 IH2 ].
  - reflexivity.
  - rewrite !Qsum_cons, IH. reflexivity.
  - rewrite !Qsum_cons. ring.
  - rewrite IH1. exact IH2.
Qed.

Lemma Qsum_const (A : Type) (l : list A) (c : Q) :
  Qsum (map (fun _ => c) l) == ofNat (length l) * c.
Proof.
  induction l as [|x l IH]; cbn [map length].
  - change (Qsum []) with 0%Q. change (ofNat 0) with 0%Q. ring.
  - rewrite Qsum_cons, IH. unfold ofNat. rewrite Nat2Z.inj_succ, <- Z.add_1_r, inject_Z_plus.
    change (inject_Z 1) with 1. ring.
Qed.

Lemma Qsum_scale (A : Type) (f : A -> Q) (l : list A) (c : Q) :
  Qsum (map (fun a => c * f a) l) == c * Qsum (map f l).
Proof.
  induction l as [|x l IH]; cbn [map]; [change (Qsum []) with 0%Q; ring|].
  rewrite !Qsum_cons, IH. ring.
Qed.

Lemma Qsum_plus (A : Type) (f g : A -> Q) (l : list A) :
  Qsum (map (fun a => f a + g a) l) == Qsum (map f l) + Qsum (map g l).
Proof.
  induction l as [|x l IH]; cbn [map]; [change (Qsum []) with 0%Q; ring|].
  rewrite !Qsum_cons, IH. ring.
Qed.

Lemma Qsum_ext (A : Type) (f g : A -> Q) (l : list A) :
  (forall a, In a l -> f a == g a) -> Qsum (map f l) == Qsum (map g l).
Proof.
  induction l as [|x l IH]; intros H; cbn [map]; [reflexivity|].
  rewrite !Qsum_cons, IH by (intros a Ha; apply H; right; exact Ha).
  rewrite (H x (or_introl eq_refl)). reflexivity.
Qed.

(** A record filled key by key from a list with distinct keys lists the
    keys in the order of the list. *)
Lemma fold_rec_set_distinct (A V : Type) (key : A -> string) (val : A -> V) (l2 l1 : list A) :
  NoDup (map key (l1 ++ l2)) ->
  fold_left (fun r a => rec_set r (key a) (val a)) l2 (map (fun a => (key a, val a)) l1)
  = map (fun a => (key a, val a)) (l1 ++ l2).
Proof.
  revert l1. induction l2 as [|a l2 IH]; intros l1 H; cbn [fold_left].
  - rewrite app_nil_r. reflexivity.
  - replace (l1 ++ a :: l2) with ((l1 ++ [a]) ++ l2) in * by (rewrite <- app_assoc; reflexivity).
    rewrite <- IH by exact H. f_equal.
    rewrite rec_set_fresh.
    + rewrite map_app. reflexivity.
    + rewrite map_map. cbn [fst]. rewrite map_app, map_app in H.
      apply NoDup_app_remove_r in H. apply NoDup_remove_2 in H.
      rewrite app_nil_r in H. exact H.
Qed.

Lemma record_of_distinct (A V : Type) (key : A -> string) (val : A -> V) (l : list A) :
  NoDup (map key l) ->
  fold_left (fun r a => rec_set r (key a) (val a)) l [] = map (fun a => (key a, val a)) l.
Proof. intros H. exact (@fold_rec_set_distinct A V key val l [] H). Qed.

Lemma fold_skill_sum (key : string) (l : list AgentState) (acc : Q) :
  fold_left (fun acc agent => acc + skill agent key) l acc
  == acc + Qsum (map (fun a => skill a key) l).
Proof.
  revert acc. induction l as [|a l IH]; intros acc; cbn [fold_left map].
  - change (Qsum []) with 0%Q. ring.
  - rewrite IH, Qsum_cons. ring.
Qed.

Lemma combine_seq_fst (A : Type) (l : list A) (s : nat) :
  map fst (combine (seq s (length l)) l) = seq s (length l).
Proof.
  revert s. induction l as [|a l IH]; intros s; cbn; [reflexivity|]. f_equal. apply IH.
Qed.

Lemma combine_seq_snd (A : Type) (l : list A) (s : nat) :
  map snd (combine (seq s (length l)) l) = l.
Proof.
  revert s. induction l as [|a l IH]; intros s; cbn; [reflexivity|]. f_equal. apply IH.
Qed.

Lemma NoDup_app_apart (A : Type) (l1 l2 : list A) (x : A) :
  NoDup (l1 ++ l2) -> In x l1 -> In x l2 -> False.
Proof.
  induction l1 as [|a l1 IH]; intros H H1 H2; [destruct H1|].
  cbn [app] in H. inversion H as [|a' l' Ha Hl]; subst. destruct H1 as [->|H1].
  - apply Ha. apply in_or_app. right. exact H2.
  - exact (IH Hl H1 H2).
Qed.

(** The number of marked positions, weighted by [b]. *)
Lemma Qsum_marked (elite rest : list nat) (b : Q) :
  NoDup (elite ++ rest) ->
  Qsum (map (fun i => if existsb (Nat.eqb i) elite then b else 0) (elite ++ rest))
  == ofNat (length elite) * b.
Proof.
  intros Hnd. rewrite map_app, Qsum_app.
  assert (E1 : Qsum (map (fun i => if existsb (Nat.eqb i) elite then b else 0) elite)
               == Qsum (map (fun _ => b) elite)).
  { apply Qsum_ext. intros i Hi.
    assert (H : existsb (Nat.eqb i) elite = true).
    { apply existsb_exists. exists i. split; [exact Hi | apply Nat.eqb_refl]. }
    rewrite H. reflexivity. }
  assert (E2 : Qsum (map (fun i => if existsb (Nat.eqb i) elite then b else 0) rest)
               == Qsum (map (fun _ => 0) rest)).
  { apply Qsum_ext. intros i Hi.
    destruct (existsb (Nat.eqb i) elite) eqn:H; [|reflexivity].
    apply existsb_exists in H. destruct H as (j & Hj & Hij). apply Nat.eqb_eq in Hij. subst j.
    exfalso. exact (@NoDup_app_apart _ _ _ _ Hnd Hj Hi). }
  rewrite E1, E2, !Qsum_const. ring.
Qed.

Lemma truthy_false (q : Q) : truthy q = false <-> q == 0.
Proof.
  unfold truthy. destruct (Qeqb q 0) eqn:E; cbn [negb].
  - apply Qeqb_eq in E. split; [auto | reflexivity].
  - apply Qeqb_neq in E. split; [discriminate | contradiction].
Qed.

Lemma truthy_true (q : Q) : truthy q = true <-> ~ q == 0.
Proof.
  unfold truthy. destruct (Qeqb q 0) eqn:E; cbn [negb].
  - apply Qeqb_eq in E. split; [discriminate | contradiction].
  - apply Qeqb_neq in E. split; [auto | reflexivity].
Qed.

Lemma elite_positions_marked (key : string) (agents : list AgentState) (b : Q) :
  agents <> [] ->
  (0 < length (elite_positions key agents))%nat
  /\ Qsum (map (fun i => if existsb (Nat.eqb i) (elite_positions key agents) then b else 0)
               (seq 0 (length agents)))
     == ofNat (length (elite_positions key agents)) * b.
Proof.
  intros Hne. unfold elite_positions.
  set (indexed := combine (seq 0 (length agents)) agents).
  set (sorted := sort (fun a b => skill (snd b) key - skill (snd a) key) indexed).
  set (k := Nat.max 1 (length sorted / 3)).
  assert (Hperm : Permutation (map fst sorted) (seq 0 (length agents))).
  { unfold sorted. rewrite sort_perm. unfold indexed. rewrite combine_seq_fst. reflexivity. }
  assert (Hlen : length sorted = length agents).
  { rewrite <- (length_map fst), (Permutation_length Hperm), length_seq. reflexivity. }
  rewrite <- firstn_map.
  split.
  - rewrite length_firstn, length_map, Hlen. destruct agents; [congruence|]. cbn [length]. lia.
  - rewrite <- (Qsum_perm (Permutation_map _ Hperm)).
    assert (Hnd : NoDup (map fst sorted)).
    { apply (Permutation_NoDup (Permutation_sym Hperm)). apply seq_NoDup. }
    assert (Esplit : map fst sorted
                     = firstn k (map fst sorted) ++ skipn k (map fst sorted))
      by (symmetry; apply firstn_skipn).
    set (el := firstn k (map fst sorted)) in *.
    set (rest := skipn k (map fst sorted)) in *.
    rewrite Esplit. apply Qsum_marked. rewrite <- Esplit. exact Hnd.
Qed.

(** In exact arithmetic the shares of a positive reward [T] add up to [T]
    under equal_share and key_contributor_reward, to [T] under
    proportional_skill unless the skills add up to 0 (then to 0), and to 0
    under collective_penalty.  The code's doubles agree up to rounding. *)
Lemma shares_add_up_in_exact_arithmetic :
  forall (task : ScenarioTask) (agents : list AgentState) (T : Q),
    NoDup (map id agents) -> agents <> [] -> 0 < T ->
    Qsum (map snd (computeShare task agents T))
    == match norm task with
       | equal_share | key_contributor_reward => T
       | proportional_skill =>
           if truthy (Qsum (map (fun a => skill a (skillKey task)) agents)) then T else 0
       | collective_penalty => 0
       end.
Proof.
  intros task agents T Hnd.
  assert (Hpairs : NoDup (map (fun ia : nat * AgentState => id (snd ia))
                              (combine (seq 0 (length agents)) agents))).
  { rewrite <- (map_map snd id), combine_seq_snd. exact Hnd. }
  intros Hne HT. unfold computeShare.
  assert (Hn : (0 < length agents)%nat) by (destruct agents; [congruence | cbn; lia]).
  assert (Hq : 0 < ofNat (length agents)) by (apply ofNat_pos; exact Hn).
  assert (G : orb (Nat.eqb (length agents) 0) (Qleb T 0) = false).
  { apply orb_false_iff. split; [apply Nat.eqb_neq; lia | apply Qleb_gt; exact HT]. }
  rewrite G. destruct (norm task).
  + rewrite (@record_of_distinct _ _ id (fun _ => T / ofNat (length agents)) agents Hnd).
    rewrite map_map. cbn [snd]. rewrite Qsum_const. field. lra.
  + match goal with
    | |- context [fold_left (fun result agent => rec_set result (id agent) (@?v agent))
                            agents []] =>
        rewrite (@record_of_distinct _ _ id v agents Hnd)
    end.
    rewrite map_map. cbn [snd].
    pose proof (fold_skill_sum (skillKey task) agents 0) as Htot.
    set (total := fold_left (fun acc agent => acc + skill agent (skillKey task)) agents 0) in *.
    set (S := Qsum (map (fun a => skill a (skillKey task)) agents)) in *.
    assert (Etot : total == S) by (rewrite Htot; ring).
    set (d := if truthy total then total else ofNat (length agents)).
    assert (Hsum : Qsum (map (fun a => T * (skill a (skillKey task) / d)) agents)
                   == T * (/ d * S)).
    { rewrite (Qsum_scale (fun a => skill a (skillKey task) / d)).
      rewrite (@Qsum_ext _ (fun a => skill a (skillKey task) / d)
                         (fun a => / d * skill a (skillKey task)))
        by (intros a _; unfold Qdiv; ring).
      rewrite (Qsum_scale (fun a => skill a (skillKey task))). reflexivity. }
    rewrite Hsum. subst d.
    destruct (truthy total) eqn:Et.
    * assert (Et' : truthy S = true).
      { apply truthy_true. apply truthy_true in Et. rewrite <- Etot. exact Et. }
      rewrite Et'. apply truthy_true in Et. rewrite <- Etot. field. exact Et.
    * assert (Et' : truthy S = false).
      { apply truthy_false. apply truthy_false in Et. rewrite <- Etot. exact Et. }
      rewrite Et'. apply truthy_false in Et'. rewrite Et'. ring.
  + match goal with
    | |- context [fold_left (fun result ia => rec_set result (id (snd ia)) (@?v ia)) ?l []] =>
        rewrite (@record_of_distinct _ _ (fun ia => id (snd ia)) v l Hpairs)
    end.
    rewrite map_map. cbn [snd].
    destruct (@elite_positions_marked (skillKey task) agents
                (T * 0.25 / ofNat (length (elite_positions (skillKey task) agents))) Hne)
      as [He Hm].
    set (elite := elite_positions (skillKey task) agents) in *.
    assert (Hel : 0 < ofNat (length elite)) by (apply ofNat_pos; exact He).
    rewrite <- (map_map fst (fun i => (T - T * 0.25) / ofNat (length agents)
                                      + (if existsb (Nat.eqb i) elite
                                         then T * 0.25 / ofNat (length elite) else 0))).
    rewrite combine_seq_fst.
    rewrite (Qsum_plus (fun _ => (T - T * 0.25) / ofNat (length agents))
                       (fun i => if existsb (Nat.eqb i) elite
                                 then T * 0.25 / ofNat (length elite) else 0)).
    rewrite Hm, Qsum_const, length_seq. field. split; lra.
  + rewrite (@record_of_distinct _ _ id (fun _ => 0) agents Hnd).
    rewrite map_map. cbn [snd]. rewrite Qsum_const. ring.
Qed.

Lemma rec_get_entries (A V : Type) (key : A -> string) (val : A -> V) (l : list A) (a : A) :
  NoDup (map key l) -> In a l ->
  rec_get (map (fun x => (key x, val x)) l) (key a) = Some (val a).
Proof.
  induction l as [|x l IH]; intros Hnd Hin; [destruct Hin|].
  cbn [map] in *. inversion Hnd as [|k ks Hx Hl]; subst. cbn [rec_get].
  destruct Hin as [-> | Hin]; [rewrite String.eqb_refl; reflexivity|].
  destruct (String.eqb (key x) (key a)) eqn:E; [|apply IH; assumption].
  apply String.eqb_eq in E. exfalso. apply Hx. rewrite E. apply in_map. exact Hin.
Qed.

Lemma combine_seq_nth (A : Type) (l : list A) (s i : nat) (a : A) :
  nth_error l i = Some a -> In ((s + i)%nat, a) (combine (seq s (length l)) l).
Proof.
  revert s i. induction l as [|x l IH]; intros s i H; [destruct i; discriminate|].
  cbn [length seq combine]. destruct i as [|i]; cbn [nth_error] in H.
  - injection H as ->. left. f_equal. lia.
  - right. replace (s + S i)%nat with (S s + i)%nat by lia. apply IH. exact H.
Qed.

Lemma fold_zero_skills (key : string) (l : list AgentState) (acc : Q) :
  (forall a, In a l -> skill a key == 0) ->
  fold_left (fun acc agent => acc + skill agent key) l acc == acc.
Proof.
  revert acc. induction l as [|x l IH]; intros acc H; cbn [fold_left]; [reflexivity|].
  rewrite IH by (intros a Ha; apply H; right; exact Ha).
  rewrite (H x (or_introl eq_refl)). ring.
Qed.

Lemma elite_positions_count (key : string) (agents : list AgentState) :
  agents <> [] ->
  length (elite_positions key agents) = Nat.max 1 (length agents / 3)
  /\ NoDup (elite_positions key agents)
  /\ (forall i, In i (elite_positions key agents) -> (i < length agents)%nat).
Proof.
  intros Hne. unfold elite_positions.
  set (indexed := combine (seq 0 (length agents)) agents).
  set (sorted := sort (fun a b => skill (snd b) key - skill (snd a) key) indexed).
  assert (Hperm : Permutation (map fst sorted) (seq 0 (length agents))).
  { unfold sorted. rewrite sort_perm. unfold indexed. rewrite combine_seq_fst. reflexivity. }
  assert (Hlen : length sorted = length agents).
  { rewrite <- (length_map fst), (Permutation_length Hperm), length_seq. reflexivity. }
  assert (Hnd : NoDup (map fst sorted)).
  { apply (Permutation_NoDup (Permutation_sym Hperm)). apply seq_NoDup. }
  rewrite <- firstn_map. split; [ | split ].
  - rewrite length_firstn, length_map, Hlen.
    destruct agents as [|a l]; [congruence|]. cbn [length].
    pose proof (Nat.Div0.div_le_upper_bound (S (length l)) 3 (S (length l))). lia.
  - rewrite <- (firstn_skipn (Nat.max 1 (length sorted / 3)) (map fst sorted)) in Hnd.
    apply NoDup_app_remove_r in Hnd. exact Hnd.
  - intros i Hi.
    assert (Hi' : In i (map fst sorted)).
    { rewrite <- (firstn_skipn (Nat.max 1 (length sorted / 3)) (map fst sorted)).
      apply in_or_app. left. exact Hi. }
    apply (Permutation_in _ Hperm) in Hi'. rename Hi' into Hj. clear Hi. rename Hj into Hi.
    apply in_seq in Hi. lia.
Qed.

Lemma trio_distinct : NoDup (map id trio).
Proof. repeat constructor; cbn; intuition discriminate. Qed.

(** X19.  For participants with distinct ids the record that
    [computeShare] returns has exactly the participants' ids as keys.  For
    a reward T <= 0 every participant's share is 0.  For T > 0 the share of
    a participant is T / n under equal_share; T times the participant's
    part of the summed skills under proportional_skill (of n when the
    skills add up to 0, so that the shares are all 0 when every skill is
    0); 0.75 T / n, plus 0.25 T divided by the number of key contributors
    for a key contributor, under key_contributor_reward; and 0 under
    collective_penalty.  The key contributors are max(1, floor(n / 3))
    different participants. *)
Theorem computeShare_gives_every_participant_a_share :
  forall (task : ScenarioTask) (agents : list AgentState) (T : Q),
    NoDup (map id agents) ->
    (forall k, In k (map fst (computeShare task agents T)) <-> In k (map id agents))
    /\ (T <= 0 -> forall a, In a agents ->
                  rec_get (computeShare task agents T) (id a) = Some 0)
    /\ (0 < T -> forall i a, nth_error agents i = Some a ->
                 rec_get (computeShare task agents T) (id a)
                 = Some (share_of task agents T i a))
    /\ (0 < T -> norm task = proportional_skill ->
        (forall a, In a agents -> skill a (skillKey task) == 0) ->
        forall i a, nth_error agents i = Some a -> share_of task agents T i a == 0)
    /\ (agents <> [] ->
        length (elite_positions (skillKey task) agents) = Nat.max 1 (length agents / 3)
        /\ NoDup (elite_positions (skillKey task) agents)
        /\ forall i, In i (elite_positions (skillKey task) agents) -> (i < length agents)%nat).
Proof.
  intros task agents T Hnd.
  assert (Hpairs : NoDup (map (fun ia : nat * AgentState => id (snd ia))
                              (combine (seq 0 (length agents)) agents))).
  { rewrite <- (map_map snd id), combine_seq_snd. exact Hnd. }
  assert (Hentries :
            exists val : nat * AgentState -> Q,
              computeShare task agents T
              = map (fun ia => (id (snd ia), val ia)) (combine (seq 0 (length agents)) agents)
              /\ (T <= 0 -> forall ia, val ia = 0)
              /\ (0 < T -> agents <> [] ->
                  forall ia, val ia = share_of task agents T (fst ia) (snd ia))).
  { assert (Hplain : forall v : AgentState -> Q,
               fold_left (fun result agent => rec_set result (id agent) (v agent)) agents []
               = map (fun ia : nat * AgentState => (id (snd ia), v (snd ia)))
                     (combine (seq 0 (length agents)) agents)).
    { intros v. rewrite (@record_of_distinct _ _ id v agents Hnd).
      rewrite <- (combine_seq_snd agents 0) at 1. rewrite map_map. reflexivity. }
    unfold computeShare.
    destruct (orb (Nat.eqb (length agents) 0) (Qleb T 0)) eqn:G.
    - exists (fun _ => 0). split; [ | split ].
      + unfold fromEntries. rewrite fold_left_over_map. cbn [fst snd].
        apply (Hplain (fun _ => 0)).
      + reflexivity.
      + intros HT Hne. apply orb_true_iff in G. destruct G as [G|G].
        * apply Nat.eqb_eq in G. destruct agents; [congruence | discriminate].
        * apply Qleb_le in G. lra.
    - exists (fun ia => share_of task agents T (fst ia) (snd ia)).
      split; [ | split; [ | reflexivity ] ].
      + unfold share_of. destruct (norm task).
        * apply (Hplain (fun _ => T / ofNat (length agents))).
        * match goal with
          | |- fold_left (fun result agent => rec_set result (id agent) (@?v agent)) _ _ = _ =>
              apply (Hplain v)
          end.
        * match goal with
          | |- fold_left (fun result ia => rec_set result (id (snd ia)) (@?v ia)) ?l [] = _ =>
              apply (@record_of_distinct _ _ (fun ia => id (snd ia)) v l Hpairs)
          end.
        * apply (Hplain (fun _ => 0)).
      + intros HT. apply orb_false_iff in G. destruct G as [_ G]. apply Qleb_gt in G. lra. }
  destruct Hentries as (val & E & Hzero & Hpos).
  assert (Hlook : forall i a, nth_error agents i = Some a ->
                              rec_get (computeShare task agents T) (id a) = Some (val (i, a))).
  { intros i a Hn. rewrite E.
    apply (@rec_get_entries _ _ (fun ia : nat * AgentState => id (snd ia)) val
                            (combine (seq 0 (length agents)) agents) (i, a) Hpairs).
    apply (@combine_seq_nth _ agents 0 i a Hn). }
  split; [ | split; [ | split; [ | split ] ] ].
  - intros k. rewrite E, map_map. cbn [fst].
    rewrite <- (map_map snd id), combine_seq_snd. tauto.
  - intros HT a Ha. apply In_nth_error in Ha. destruct Ha as [i Hi].
    rewrite (Hlook i a Hi), (Hzero HT). reflexivity.
  - intros HT i a Hi. rewrite (Hlook i a Hi), Hpos; [reflexivity | exact HT | ].
    intros ->. destruct i; discriminate.
  - intros HT Hn Hskills i a Hi. unfold share_of. rewrite Hn.
    assert (Ha : In a agents) by (eapply nth_error_In; eauto).
    cbn zeta. rewrite (Hskills a Ha).
    assert (Et : truthy (fold_left (fun acc agent => acc + skill agent (skillKey task)) agents 0)
                 = false).
    { apply truthy_false. apply fold_zero_skills. exact Hskills. }
    rewrite Et. unfold Qdiv. ring.
  - apply elite_positions_count.
Qed.

Lemma computeShare_gives_every_participant_a_share_witness :
  rec_get (computeShare gather trio 9) "bob" = Some (9 / 3)
  /\ rec_get (computeShare gather trio (-(1))) "bob" = Some 0.
Proof.
  destruct (@computeShare_gives_every_participant_a_share gather trio 9 trio_distinct)
    as (_ & _ & A & _).
  destruct (@computeShare_gives_every_participant_a_share gather trio (-(1)) trio_distinct)
    as (_ & B & _).
  split.
  - apply (A eq_refl 1%nat (villager "bob" "gathering" 0.6) eq_refl).
  - assert (H : -(1) <= 0) by (vm_compute; discriminate).
    apply (B H (villager "bob" "gathering" 0.6)). right. left. reflexivity.
Defined.

Lemma assigned_app (l1 l2 : list TaskExecution) : assigned (l1 ++ l2) = assigned l1 ++ assigned l2.
Proof. unfold assigned. apply flat_map_app. Qed.

Lemma collect_distinct (task : ScenarioTask) (need : Q) (shuffled : list AgentState)
      (avail0 : list string) (l : list AgentState) (acc : list AgentState * list string) :
  incl l shuffled -> collect_ok task shuffled avail0 acc ->
  NoDup (map id (fst acc)) ->
  (length (fst acc) = O \/ ofNat (length (fst acc)) - 1 < need) ->
  NoDup (map id (fst (fold_left (considerCandidate task need) l acc)))
  /\ (length (fst (fold_left (considerCandidate task need) l acc)) = O
      \/ ofNat (length (fst (fold_left (considerCandidate task need) l acc))) - 1 < need).
Proof.
  revert acc. induction l as [|a l IH]; intros acc Hincl Hok Hnd Hlen; cbn [fold_left];
    [split; assumption|].
  assert (Ha : In a shuffled) by (apply Hincl; left; reflexivity).
  apply IH.
  - intros x Hx. apply Hincl. right. exact Hx.
  - apply considerCandidate_ok; assumption.
  - unfold considerCandidate.
    destruct (Qleb need (ofNat (length (fst acc)))); [exact Hnd|].
    destruct (set_has (snd acc) (id a)) eqn:Ehas; cbn [negb]; [|exact Hnd].
    destruct (andb _ _); [exact Hnd|]. cbn [fst].
    rewrite map_app. cbn [map]. apply NoDup_app; [exact Hnd | repeat constructor; auto | ].
    intros k Hk [<-|[]]. destruct Hok as [_ [Havail _]].
    apply set_has_In in Ehas. apply Havail in Ehas. destruct Ehas as [_ Hno]. exact (Hno Hk).
  - unfold considerCandidate.
    destruct (Qleb need (ofNat (length (fst acc)))) eqn:E; [exact Hlen|].
    destruct (set_has (snd acc) (id a)); cbn [negb]; [|exact Hlen].
    destruct (andb _ _); [exact Hlen|]. cbn [fst]. right.
    apply Qleb_gt in E. rewrite length_app. cbn [length].
    replace (length (fst acc) + 1)%nat with (S (length (fst acc))) by lia.
    unfold ofNat in *. rewrite Nat2Z.inj_succ, <- Z.add_1_r, inject_Z_plus.
    change (inject_Z 1) with 1. lra.
Qed.

Lemma fold_collect (A S : Type) (step : list string * S -> A -> list string * S) (key : A -> string) :
  (forall acc a, fst (step acc a) = fst acc \/ fst (step acc a) = fst acc ++ [key a]) ->
  forall l acc, incl (fst (fold_left step l acc)) (fst acc ++ map key l).
Proof.
  intros Hs. induction l as [|a l IH]; intros acc; cbn [fold_left map].
  - rewrite app_nil_r. apply incl_refl.
  - intros k Hk. apply IH in Hk. apply in_app_or in Hk. apply in_or_app.
    destruct Hk as [Hk|Hk].
    + destruct (Hs acc a) as [E|E]; rewrite E in Hk.
      * left; exact Hk.
      * apply in_app_or in Hk. destruct Hk as [Hk|[Hk|[]]]; [left; exact Hk|right; left; exact Hk].
    + right; right; exact Hk.
Qed.

Lemma sampleInjuries_among (config : ScenarioConfig) (task : ScenarioTask) (succeeded : bool)
      (parts : list AgentState) (rng : SeededRandom) :
  incl (fst (sampleInjuries config task succeeded parts rng)) (map id parts).
Proof.
  unfold sampleInjuries.
  change (map id parts) with (fst (@nil string, rng) ++ map id parts).
  apply (@fold_collect _ SeededRandom _ id).
  intros [inj r] a. cbn [fst].
  destruct (next r) as [u r']. destruct (Qltb u _); [right|left]; reflexivity.
Qed.

Lemma zero_shares (task : ScenarioTask) (parts : list AgentState) (k : string) (v : Q) :
  In (k, v) (computeShare task parts 0) -> v = 0.
Proof.
  unfold computeShare.
  replace (Qleb 0 0) with true by reflexivity. rewrite orb_true_r.
  unfold fromEntries. rewrite fold_left_over_map. cbn [fst snd].
  apply (@fold_rec_set_values AgentState Q id (fun _ => 0) (fun v => v = 0) parts []).
  - reflexivity.
  - intros k' v' [].
Qed.

(** One turn of the loop of [assignTasks]. *)
Lemma assignTask_step (P : Platform) (config : ScenarioConfig) (shuffled : list AgentState)
      (res : ResourceLevel) (st : AssignState) (task : ScenarioTask) :
  NoDup (availableAgents st) ->
  let st' := assignTask P config shuffled res st task in
  (executions st' = executions st
   /\ NoDup (availableAgents st')
   /\ forall k, In k (availableAgents st') <-> In k (availableAgents st))
  \/ exists e parts,
      executions st' = executions st ++ [e]
      /\ made_for task parts e /\ consistent e
      /\ notes (assignment e) <> "fallback maintenance duty"
      /\ NoDup (map id parts)
      /\ (forall a, In a parts -> In (id a) (availableAgents st))
      /\ NoDup (availableAgents st')
      /\ (forall k, In k (availableAgents st')
                    <-> In k (availableAgents st) /\ ~ In k (map id parts)).
Proof.
  intros Hnd. cbn zeta. unfold assignTask.
  set (need := Math_min (recommendedParticipants task) (ofNat (set_size (availableAgents st)))).
  destruct (Qltb need (minParticipants task)) eqn:Eneed.
  { left. split; [reflexivity|]. split; [exact Hnd | tauto]. }
  pose proof (collectParticipants_ok task need shuffled (availableAgents st)) as Hok.
  assert (Hmore : NoDup (map id (fst (collectParticipants task need shuffled (availableAgents st))))
                  /\ (length (fst (collectParticipants task need shuffled (availableAgents st))) = O
                      \/ ofNat (length (fst (collectParticipants task need shuffled
                                                                 (availableAgents st)))) - 1
                         < need)).
  { unfold collectParticipants. apply (@collect_distinct task need shuffled (availableAgents st)).
    - apply incl_refl.
    - split; [intros a [] | ]. split; [ | auto]. intros k. cbn [fst snd map In]. tauto.
    - constructor.
    - left. reflexivity. }
  destruct Hok as [Hparts [Havail Hnd']]. destruct Hmore as [Hdist Hsize].
  destruct (collectParticipants task need shuffled (availableAgents st)) as [parts avail].
  cbn [fst snd] in *.
  destruct (Qltb (ofNat (length parts)) (minParticipants task)) eqn:Efew.
  - left. cbn [executions availableAgents].
    rewrite <- (fold_left_over_map set_add id parts avail).
    split; [reflexivity|]. split; [apply fold_set_add_NoDup; auto|].
    intros k. rewrite fold_set_add_In, Havail. split.
    + intros [[H _] | H]; [exact H | ].
      apply in_map_iff in H. destruct H as [a [<- Ha]]. apply Hparts. exact Ha.
    + intros H. destruct (in_dec string_dec k (map id parts)); auto.
  - right. apply Qltb_ge in Efew.
    destruct (next (assign_rng st)) as [u rng1].
    match goal with
    | |- context [sampleInjuries config task ?s parts rng1] =>
        pose proof (fun k => @sampleInjuries_among config task s parts rng1 k) as Hinj;
        destruct (sampleInjuries config task s parts rng1) as [inj rng2]
    end.
    cbn [fst] in Hinj. cbn [executions availableAgents].
    eexists. exists parts. split; [reflexivity|].
    split; [ | split; [ | split; [ | split; [exact Hdist | split; [ | split; [auto | exact Havail] ] ] ] ] ].
    + unfold made_for. cbn [assignment taskId participants rewards exec_energyCost reward].
      split; [reflexivity|]. split; [reflexivity|]. split; [exact Efew|].
      split; [|split; reflexivity].
      destruct Hsize as [H|H]; [left; exact H | right].
      pose proof (Math_min_r (ofNat (set_size (availableAgents st)))
                             (recommendedParticipants task)) as Hmin.
      assert (need <= recommendedParticipants task).
      { unfold need, Math_min. qcases; lra. }
      lra.
    + unfold consistent.
      cbn [assignment injuries participants exec_successProbability outcome reward rewards].
      split; [exact Hinj|]. split; [apply clamp01_probability|].
      destruct (Qltb u _); [discriminate|]. intros _. split; [reflexivity|].
      intros k v. apply zero_shares.
    + cbn [assignment notes]. destruct (Qltb u _); discriminate.
    + intros a Ha. apply Hparts. exact Ha.
Qed.

Lemma assign_fold_pool (P : Platform) (config : ScenarioConfig) (shuffled : list AgentState)
      (res : ResourceLevel) (taskList l : list ScenarioTask) (st : AssignState) :
  incl l taskList ->
  pool_ok (map id shuffled) st ->
  (forall e, In e (executions st) ->
             consistent e /\ notes (assignment e) <> "fallback maintenance duty"
             /\ exists task parts, In task taskList /\ made_for task parts e) ->
  pool_ok (map id shuffled) (fold_left (assignTask P config shuffled res) l st)
  /\ (forall e, In e (executions (fold_left (assignTask P config shuffled res) l st)) ->
                consistent e /\ notes (assignment e) <> "fallback maintenance duty"
                /\ exists task parts, In task taskList /\ made_for task parts e).
Proof.
  revert st. induction l as [|task l IH]; intros st Hincl Hpool Hex; cbn [fold_left];
    [split; assumption|].
  destruct Hpool as (Hnd & Hna & Hall & Hapart).
  apply IH; [intros x Hx; apply Hincl; right; exact Hx | | ];
    destruct (@assignTask_step P config shuffled res st task Hnd)
      as [(E & Hnd' & Hav) | (e & parts & E & Hmade & Hcons & Hnotes & Hdist & Hin & Hnd' & Hav)].
  - unfold pool_ok. rewrite E. split; [exact Hnd'|]. split; [exact Hna|]. split.
    + intros k. rewrite Hall, Hav. tauto.
    + intros k Hk Hk'. apply Hav in Hk'. exact (Hapart k Hk Hk').
  - assert (Hp : participants (assignment e) = map id parts) by apply Hmade.
    assert (Ea : assigned (executions st ++ [e]) = assigned (executions st) ++ map id parts).
    { rewrite assigned_app. unfold assigned at 2. cbn [flat_map]. rewrite app_nil_r, Hp.
      reflexivity. }
    assert (Hsub : forall k, In k (map id parts) -> In k (availableAgents st)).
    { intros k Hk. apply in_map_iff in Hk. destruct Hk as (a & <- & Ha). apply Hin. exact Ha. }
    unfold pool_ok. rewrite E, Ea. split; [exact Hnd'|]. split; [ | split ].
    + apply NoDup_app; [exact Hna | exact Hdist | ].
      intros k Hk Hk'. exact (Hapart k Hk (Hsub k Hk')).
    + intros k. rewrite Hall, Hav, in_app_iff.
      destruct (in_dec string_dec k (map id parts)) as [Hk|Hk]; [|tauto].
      pose proof (Hsub k Hk). tauto.
    + intros k Hk Hk'. apply Hav in Hk'. destruct Hk' as [Hk1 Hk2].
      apply in_app_or in Hk. destruct Hk as [Hk|Hk]; [exact (Hapart k Hk Hk1) | exact (Hk2 Hk)].
  - rewrite E. exact Hex.
  - rewrite E. intros e' He'. apply in_app_or in He'. destruct He' as [He'|[<-|[]]].
    + apply Hex. exact He'.
    + split; [exact Hcons|]. split; [exact Hnotes|]. exists task, parts.
      split; [apply Hincl; left; reflexivity | exact Hmade].
Qed.

(** Filtering a list keeps its keys distinct. *)
Lemma NoDup_map_filter (A K : Type) (key : A -> K) (keep : A -> bool) (items : list A) :
  NoDup (map key items) -> NoDup (map key (filter keep items)).
Proof.
  intros H. induction items as [|a items IH]; cbn [filter map]; [constructor|].
  cbn [map] in H. inversion H as [|x l' Hx Hl]; subst.
  destruct (keep a); [|apply IH; exact Hl]. cbn [map]. constructor; [|apply IH; exact Hl].
  intros Hin. apply Hx. apply in_map_iff in Hin. destruct Hin as (b & E & Hb).
  apply filter_In in Hb. apply in_map_iff. exists b. split; [exact E | apply Hb].
Qed.

Lemma find_maintenance (l : list ScenarioTask) :
  (exists task, In task l /\ task_id task = "camp_maintenance") ->
  exists task, find is_camp_maintenance l = Some task.
Proof.
  intros (t & Ht & E). destruct (find is_camp_maintenance l) as [t'|] eqn:F; [eauto|].
  exfalso. apply (find_none _ _ F) in Ht. unfold is_camp_maintenance in Ht.
  rewrite E in Ht. discriminate.
Qed.

(** The executions of a day: the state of the loop and what the idle
    fallback adds. *)
Lemma assignTasks_digest (P : Platform) (config : ScenarioConfig) (rng : SeededRandom)
      (agents : list AgentState) (res : ResourceLevel)
      (taskSequence : option (list ScenarioTask)) :
  NoDup (map id agents) ->
  let execs := fst (assignTasks P config rng agents res taskSequence) in
  let taskList := orElse taskSequence (tasks config) in
  NoDup (assigned execs)
  /\ (forall k, In k (assigned execs) -> In k (map id agents))
  /\ (has_maintenance config taskList ->
      forall k, In k (map id agents) -> In k (assigned execs))
  /\ (forall e, In e execs ->
                consistent e
                /\ (notes (assignment e) <> "fallback maintenance duty" ->
                    exists task parts, In task taskList /\ made_for task parts e)).
Proof.
  intros Hnd. cbn zeta. unfold assignTasks, assignLoop.
  set (taskList := orElse taskSequence (tasks config)).
  pose proof (shuffle_perm rng agents) as Hperm.
  destruct (shuffle rng agents) as [shuffled rng1]. cbn [fst] in Hperm.
  assert (Hids : Permutation (map id shuffled) (map id agents))
    by (apply Permutation_map; exact Hperm).
  assert (Hnds : NoDup (map id shuffled))
    by (apply (Permutation_NoDup (Permutation_sym Hids)); exact Hnd).
  destruct (@assign_fold_pool P config shuffled res taskList taskList
              {| availableAgents := set_of_list (map id shuffled); executions := [];
                 assign_rng := rng1 |}) as [Hpool Hex].
  { apply incl_refl. }
  { unfold pool_ok. cbn [availableAgents executions assigned flat_map].
    split; [apply set_of_list_NoDup|]. split; [constructor|]. split.
    - intros k. rewrite set_of_list_In. cbn [In]. tauto.
    - intros k []. }
  { intros e []. }
  set (st := fold_left (assignTask P config shuffled res) taskList _) in *.
  destruct Hpool as (Hna & Hnas & Hall & Hapart). cbn [fst].
  assert (Hloop : NoDup (assigned (executions st))
                  /\ (forall k, In k (assigned (executions st)) -> In k (map id agents))
                  /\ (forall e, In e (executions st) ->
                                consistent e
                                /\ (notes (assignment e) <> "fallback maintenance duty" ->
                                    exists task parts, In task taskList /\ made_for task parts e))).
  { split; [exact Hnas|]. split.
    - intros k Hk. apply (Permutation_in _ Hids). apply Hall. left. exact Hk.
    - intros e He. destruct (Hex e He) as (A & _ & B). split; [exact A | intros _; exact B]. }
  destruct Hloop as (L1 & L2 & L3).
  unfold idleFallback.
  destruct (set_size (availableAgents st)) as [|n] eqn:Esize.
  { split; [exact L1|]. split; [exact L2|]. split; [|exact L3].
    intros _ k Hk. apply (Permutation_in _ (Permutation_sym Hids)) in Hk.
    apply Hall in Hk. destruct Hk as [Hk|Hk]; [exact Hk|].
    unfold set_size in Esize. destruct (availableAgents st); [destruct Hk | discriminate]. }
  destruct (match find is_camp_maintenance taskList with
            | Some t => Some t
            | None => find is_camp_maintenance (tasks config)
            end) as [maintenance|] eqn:Em.
  2:{ split; [exact L1|]. split; [exact L2|]. split; [|exact L3].
      intros (t & [Ht|Ht] & Et); exfalso.
      - destruct (@find_maintenance _ (ex_intro _ t (conj Ht Et))) as [t' F].
        rewrite F in Em. discriminate.
      - destruct (find is_camp_maintenance taskList); [discriminate|].
        destruct (@find_maintenance _ (ex_intro _ t (conj Ht Et))) as [t' F].
        rewrite F in Em. discriminate. }
  set (parts := filter (fun agent => set_has (availableAgents st) (id agent)) shuffled).
  assert (Hparts : forall k, In k (map id parts) <-> In k (availableAgents st)).
  { intros k. unfold parts. split.
    - intros H. apply in_map_iff in H. destruct H as (a & <- & Ha).
      apply filter_In in Ha. apply set_has_In. apply Ha.
    - intros H. assert (Hk : In k (map id shuffled)) by (apply Hall; right; exact H).
      apply in_map_iff in Hk. destruct Hk as (a & <- & Ha).
      apply in_map. apply filter_In. split; [exact Ha | apply set_has_In; exact H]. }
  rewrite assigned_app. unfold assigned at 2 4 6. cbn [flat_map assignment participants].
  rewrite app_nil_r.
  split; [ | split; [ | split ] ].
  - apply NoDup_app; [exact L1 | apply NoDup_map_filter; exact Hnds | ].
    intros k Hk Hk'. apply Hparts in Hk'. exact (Hapart k Hk Hk').
  - intros k Hk. apply in_app_or in Hk. destruct Hk as [Hk|Hk]; [apply L2; exact Hk|].
    apply (Permutation_in _ Hids). apply Hall. right. apply Hparts. exact Hk.
  - intros _ k Hk. apply (Permutation_in _ (Permutation_sym Hids)) in Hk.
    apply Hall in Hk. apply in_or_app. destruct Hk as [Hk|Hk]; [left; exact Hk|].
    right. apply Hparts. exact Hk.
  - intros e He. apply in_app_or in He. destruct He as [He|[<-|[]]]; [apply L3; exact He|].
    split.
    + unfold consistent.
      cbn [assignment injuries participants exec_successProbability outcome].
      split; [intros k []|]. split; [split; vm_compute; discriminate | discriminate].
    + cbn [assignment notes]. congruence.
Qed.

(** X20.  For agents with distinct ids, no agent takes part in two
    executions of one [assignTasks] call or twice in one; every
    participant is one of the agents; and when a task with the id
    camp_maintenance exists, every agent takes part in an execution. *)
Theorem assignTasks_uses_each_agent_once :
  forall (P : Platform) (config : ScenarioConfig) (rng : SeededRandom)
         (agents : list AgentState) (res : ResourceLevel)
         (taskSequence : option (list ScenarioTask)),
    NoDup (map id agents) ->
    NoDup (assigned (fst (assignTasks P config rng agents res taskSequence)))
    /\ incl (assigned (fst (assignTasks P config rng agents res taskSequence))) (map id agents)
    /\ (has_maintenance config (orElse taskSequence (tasks config)) ->
        incl (map id agents) (assigned (fst (assignTasks P config rng agents res taskSequence)))).
Proof.
  intros P config rng agents res taskSequence Hnd.
  destruct (@assignTasks_digest P config rng agents res taskSequence Hnd) as (A & B & C & _).
  split; [exact A | split; [exact B | exact C]].
Qed.

Lemma assignTasks_uses_each_agent_once_witness :
  NoDup (assigned (fst (assignTasks Ref.platform demo (SeededRandom_new 1) trio barren None)))
  /\ incl (assigned (fst (assignTasks Ref.platform demo (SeededRandom_new 1) trio barren None)))
          (map id trio).
Proof.
  destruct (@assignTasks_uses_each_agent_once Ref.platform demo (SeededRandom_new 1) trio barren
              None trio_distinct) as (A & B & _).
  split; [exact A | exact B].
Defined.

(** X21.  Every execution that [assignTasks] returns injures only its
    own participants, has a success probability in [0, 1], and on failure
    has reward 0 and only zero shares; unless it is the maintenance
    fallback it belongs to a task of the list, has at least
    minParticipants and fewer than recommendedParticipants + 1
    participants, and holds the shares and energy costs that
    [computeShare] and [computeEnergyCost] give. *)
Theorem assignTasks_executions_are_consistent :
  forall (P : Platform) (config : ScenarioConfig) (rng : SeededRandom)
         (agents : list AgentState) (res : ResourceLevel)
         (taskSequence : option (list ScenarioTask)) (e : TaskExecution),
    NoDup (map id agents) ->
    In e (fst (assignTasks P config rng agents res taskSequence)) ->
    consistent e
    /\ (notes (assignment e) <> "fallback maintenance duty" ->
        exists task parts,
          In task (orElse taskSequence (tasks config)) /\ made_for task parts e).
Proof.
  intros P config rng agents res taskSequence e Hnd He.
  destruct (@assignTasks_digest P config rng agents res taskSequence Hnd) as (_ & _ & _ & D).
  exact (D e He).
Qed.

Lemma demo_assignment_defined :
  exists e, In e (fst (assignTasks Ref.platform demo (SeededRandom_new 1) trio barren None)).
Proof. eexists. vm_compute. left. reflexivity. Qed.

Lemma assignTasks_executions_are_consistent_witness :
  exists e,
    In e (fst (assignTasks Ref.platform demo (SeededRandom_new 1) trio barren None))
    /\ consistent e.
Proof.
  destruct demo_assignment_defined as [e He]. exists e. split; [exact He|].
  exact (proj1 (@assignTasks_executions_are_consistent Ref.platform demo (SeededRandom_new 1)
                  trio barren None e trio_distinct He)).
Defined.

Lemma fraction_probability (c t : nat) :
  (c <= S t)%nat -> probability (ofNat c / ofNat (S t)).
Proof. intros H. exact (@ratio_probability c (S t) H). Qed.

Lemma ofNat_plus (a b : nat) : ofNat (a + b) == ofNat a + ofNat b.
Proof. unfold ofNat. rewrite Nat2Z.inj_add, inject_Z_plus. reflexivity. Qed.

Lemma evaluateCooperation_incidents_from
      (step : Q * list Q * Q -> TaskExecution -> Q * list Q * Q) (execs : list TaskExecution) :
  (forall acc e, snd (step acc e) = snd acc + ofNat (length (injuries (assignment e)))) ->
  forall acc,
    snd (fold_left step execs acc)
    == snd acc + ofNat (length (flat_map (fun e => injuries (assignment e)) execs)).
Proof.
  intros Hstep. induction execs as [|e execs IH]; intros acc; cbn [fold_left flat_map].
  - change (ofNat (length [])) with 0%Q. ring.
  - rewrite IH, Hstep, length_app, ofNat_plus. ring.
Qed.

(** X22.  [evaluateCooperation] returns a cooperation rate in [0, 1],
    which is 0 when no execution has two participants, and risk incidents
    equal to the number of injuries of all executions; for no execution
    every metric is 0. *)
Theorem cooperation_metrics_count :
  forall (execs : list TaskExecution) (agents : list AgentState),
    probability (cooperationRate (evaluateCooperation execs agents))
    /\ riskIncidents (evaluateCooperation execs agents)
       == ofNat (length (flat_map (fun e => injuries (assignment e)) execs))
    /\ ((forall e, In e execs -> (length (participants (assignment e)) <= 1)%nat) ->
        cooperationRate (evaluateCooperation execs agents) == 0)
    /\ evaluateCooperation [] agents
       = {| cooperationRate := 0; energyBalance := 0; riskIncidents := 0;
            inequalityIndex := 0; networkAssortativity := 0; metrics_reciprocity := 0 |}.
Proof.
  intros execs agents. split; [ | split; [ | split; [ | reflexivity ] ] ].
  - unfold evaluateCooperation.
    destruct (fold_left _ execs (0, [], 0)) as [[b s] r]. cbn [cooperationRate].
    pose proof (filter_length_le
                  (fun e => (1 <? length (participants (assignment e)))%nat) execs) as Hle.
    destruct (length execs) as [|n]; [split; lra|].
    apply fraction_probability. exact Hle.
  - unfold evaluateCooperation.
    match goal with
    | |- context [fold_left ?f execs ?a] =>
        pose proof (evaluateCooperation_incidents_from f execs) as H;
        destruct (fold_left f execs a) as [[b s] r] eqn:Hfold
    end.
    cbn [riskIncidents].
    replace r with (snd (b, s, r)) by reflexivity. rewrite <- Hfold, H.
    + cbn [snd]. ring.
    + intros [[b0 s0] r0] e. reflexivity.
  - intros Hsolo. unfold evaluateCooperation.
    destruct (fold_left _ execs (0, [], 0)) as [[b s] r]. cbn [cooperationRate].
    assert (E : filter (fun e => (1 <? length (participants (assignment e)))%nat) execs = []).
    { clear - Hsolo. induction execs as [|e l IH]; [reflexivity|]. cbn [filter].
      pose proof (Hsolo e (or_introl eq_refl)) as H.
      destruct (1 <? length (participants (assignment e)))%nat eqn:E.
      - apply Nat.ltb_lt in E. lia.
      - apply IH. intros e' He'. apply Hsolo. right. exact He'. }
    rewrite E. destruct (length execs); [reflexivity|].
    change (ofNat (length [])) with 0%Q. unfold Qdiv. ring.
Qed.

(** ** llmAdapters.ts and logging.ts *)

Lemma plan_from_silent (P : Platform) (w : World) (a : Adapter) (rest : list Adapter)
      (request : PlanRequest) (prompt : string) :
  silent a w request prompt ->
  plan_from P w (a :: rest) request prompt = plan_from P w rest request prompt.
Proof.
  intros [H|H]; cbn [plan_from]; rewrite H; [reflexivity|].
  destruct (negb (isEnabled a w)); reflexivity.
Qed.

(** X23.  [plan] returns the answer of the first adapter, in the order
    OpenAI, Bedrock, Ollama, that is enabled and does not fail, rendered
    as that adapter renders it; an adapter that is disabled or fails is
    passed over; when all three are, the heuristic plan is returned.  The
    plan returned is never empty. *)
Theorem plan_takes_the_first_answer :
  forall (P : Platform) (w : World) (config : ScenarioConfig) (request : PlanRequest),
    let prompt := buildPrompt P config request in
    (forall text,
        isEnabled OpenAIResponsesAdapter w = true -> openai_responses w prompt = Some text ->
        plan P w config request = openai_plan text)
    /\ (forall text,
           silent OpenAIResponsesAdapter w request prompt ->
           isEnabled BedrockConverseAdapter w = true ->
           bedrock_converse w prompt = Some text ->
           plan P w config request = bedrock_plan text)
    /\ (forall text,
           silent OpenAIResponsesAdapter w request prompt ->
           silent BedrockConverseAdapter w request prompt ->
           isEnabled OllamaAdapter w = true -> ollama_generate w prompt = Some text ->
           plan P w config request = ollama_plan text)
    /\ (silent OpenAIResponsesAdapter w request prompt ->
        silent BedrockConverseAdapter w request prompt ->
        silent OllamaAdapter w request prompt ->
        plan P w config request = heuristicPlan P request prompt)
    /\ plans (plan P w config request) <> [].
Proof.
  intros P w config request prompt. unfold plan. fold prompt. unfold adapters.
  split; [ | split; [ | split; [ | split ] ] ].
  - intros text He Ha. cbn [plan_from]. rewrite He. cbn [negb].
    cbn [generatePlan OpenAIResponsesAdapter]. rewrite Ha. reflexivity.
  - intros text S1 He Ha. rewrite (plan_from_silent P _ S1). cbn [plan_from]. rewrite He.
    cbn [negb]. cbn [generatePlan BedrockConverseAdapter]. rewrite Ha. reflexivity.
  - intros text S1 S2 He Ha.
    rewrite (plan_from_silent P _ S1), (plan_from_silent P _ S2). cbn [plan_from]. rewrite He.
    cbn [negb]. cbn [generatePlan OllamaAdapter]. rewrite Ha. reflexivity.
  - intros S1 S2 S3.
    rewrite (plan_from_silent P _ S1), (plan_from_silent P _ S2), (plan_from_silent P _ S3).
    reflexivity.
  - cbn [plan_from].
    destruct (negb (isEnabled OpenAIResponsesAdapter w)).
    2:{ cbn [generatePlan OpenAIResponsesAdapter].
        destruct (openai_responses w prompt); [discriminate|]. 
        destruct (negb (isEnabled BedrockConverseAdapter w)).
        2:{ cbn [generatePlan BedrockConverseAdapter].
            destruct (bedrock_converse w prompt); [discriminate|].
            destruct (negb (isEnabled OllamaAdapter w)).
            2:{ cbn [generatePlan OllamaAdapter].
                destruct (ollama_generate w prompt); [discriminate|].
                unfold heuristicPlan. cbn [plans]. destruct (map _ _); discriminate. }
            unfold heuristicPlan. cbn [plans]. destruct (map _ _); discriminate. }
        destruct (negb (isEnabled OllamaAdapter w)).
        2:{ cbn [generatePlan OllamaAdapter].
            destruct (ollama_generate w prompt); [discriminate|].
            unfold heuristicPlan. cbn [plans]. destruct (map _ _); discriminate. }
        unfold heuristicPlan. cbn [plans]. destruct (map _ _); discriminate. }
    destruct (negb (isEnabled BedrockConverseAdapter w)).
    2:{ cbn [generatePlan BedrockConverseAdapter].
        destruct (bedrock_converse w prompt); [discriminate|].
        destruct (negb (isEnabled OllamaAdapter w)).
        2:{ cbn [generatePlan OllamaAdapter].
            destruct (ollama_generate w prompt); [discriminate|].
            unfold heuristicPlan. cbn [plans]. destruct (map _ _); discriminate. }
        unfold heuristicPlan. cbn [plans]. destruct (map _ _); discriminate. }
    destruct (negb (isEnabled OllamaAdapter w)).
    2:{ cbn [generatePlan OllamaAdapter].
        destruct (ollama_generate w prompt); [discriminate|].
        unfold heuristicPlan. cbn [plans]. destruct (map _ _); discriminate. }
    unfold heuristicPlan. cbn [plans]. destruct (map _ _); discriminate.
Qed.

Lemma plan_takes_the_first_answer_witness :
  plan Ref.platform online demo two_task_request = openai_plan (Some "gather first")
  /\ plan Ref.platform broken demo two_task_request
     = heuristicPlan Ref.platform two_task_request
                     (buildPrompt Ref.platform demo two_task_request).
Proof.
  split.
  - apply (proj1 (plan_takes_the_first_answer Ref.platform online demo two_task_request));
      reflexivity.
  - apply (proj1 (proj2 (proj2 (proj2 (plan_takes_the_first_answer
                                         Ref.platform broken demo two_task_request))))).
    + right. reflexivity.
    + left. reflexivity.
    + left. reflexivity.
Defined.

Lemma record_fold (entries : list SimulationLogEntry) (l : SimulationLogger) :
  fold_left record entries l
  = {| logs := logs l ++ (if enabled_events l then entries else []);
       causal := causal l;
       enabled_events := enabled_events l; enabled_causal := enabled_causal l |}.
Proof.
  revert l. induction entries as [|e entries IH]; intros l; cbn [fold_left].
  - destruct l as [lg ca ev cu]. cbn. destruct ev; rewrite app_nil_r; reflexivity.
  - rewrite IH. unfold record. destruct l as [lg ca ev cu]. cbn [enabled_events].
    destruct ev; cbn [negb logs causal enabled_events enabled_causal];
      [rewrite <- app_assoc|]; reflexivity.
Qed.

Lemma link_fold (links : list (string * string * Q)) (l : SimulationLogger) :
  fold_left (fun l x => link l (fst (fst x)) (snd (fst x)) (snd x)) links l
  = {| logs := logs l;
       causal := causal l ++ (if enabled_causal l then map causal_link links else []);
       enabled_events := enabled_events l; enabled_causal := enabled_causal l |}.
Proof.
  revert l. induction links as [|e links IH]; intros l; cbn [fold_left].
  - destruct l as [lg ca ev cu]. cbn. destruct cu; rewrite app_nil_r; reflexivity.
  - rewrite IH. unfold link. destruct l as [lg ca ev cu]. cbn [enabled_causal].
    destruct cu; cbn [negb logs causal enabled_events enabled_causal map];
      [rewrite <- app_assoc|]; reflexivity.
Qed.

(** X24.  [flush] returns the entries and links recorded since the
    logger was made, in the order of recording (none of a kind that is
    switched off), and leaves an empty logger: a second [flush] returns
    nothing. *)
Theorem flush_hands_over_the_log :
  forall (events causalOn : bool) (entries : list SimulationLogEntry)
         (links : list (string * string * Q)),
    let logger :=
      fold_left (fun l x => link l (fst (fst x)) (snd (fst x)) (snd x)) links
                (fold_left record entries (SimulationLogger_new events causalOn)) in
    flush logger
    = (if events then entries else [], if causalOn then map causal_link links else [],
       SimulationLogger_new events causalOn)
    /\ flush (snd (flush logger)) = ([], [], SimulationLogger_new events causalOn).
Proof.
  intros events causalOn entries links. cbn zeta.
  rewrite link_fold, record_fold. unfold flush, SimulationLogger_new.
  cbn [logs causal enabled_events enabled_causal app snd]. split; reflexivity.
Qed.

(** ** simulation.ts *)

Lemma sort_insert_last (A : Type) (cmp : A -> A -> Q) (x : A) (l : list A) :
  (forall y, In y l -> Qltb (cmp x y) 0 = false) -> sort_insert cmp x l = l ++ [x].
Proof.
  induction l as [|y l IH]; intros H; cbn [sort_insert app]; [reflexivity|].
  rewrite (H y (or_introl eq_refl)). f_equal. apply IH. intros z Hz. apply H. right. exact Hz.
Qed.

Lemma sort_keeps_ties (A : Type) (cmp : A -> A -> Q) (l : list A) :
  (forall x y, In x l -> In y l -> Qltb (cmp x y) 0 = false) -> sort cmp l = l.
Proof.
  intros H. unfold sort.
  assert (F : forall l2 l1, l = l1 ++ l2 ->
                            fold_left (fun acc x => sort_insert cmp x acc) l2 l1 = l1 ++ l2).
  { induction l2 as [|x l2 IH]; intros l1 E; cbn [fold_left].
    - rewrite app_nil_r. reflexivity.
    - rewrite sort_insert_last.
      + rewrite IH; rewrite <- app_assoc; [reflexivity | exact E].
      + intros y Hy. apply H; rewrite E; apply in_or_app; [right; left; reflexivity | left; exact Hy]. }
  exact (F l [] eq_refl).
Qed.

Lemma weights_stay_empty (taskList : list ScenarioTask) (items : list (nat * PlanItem)) :
  (forall item task,
      In item (map snd items) -> In task taskList ->
      includes (toLowerCase (intent item)) (task_id task) = false
      /\ includes (toLowerCase (intent item)) (task_name task) = false) ->
  fold_left
    (fun weights item_index =>
       let '(index, item) := item_index in
       fold_left
         (fun weights task =>
            let normalized := toLowerCase (intent item) in
            if orb (includes normalized (task_id task)) (includes normalized (task_name task))
            then if negb (map_has weights (task_id task))
                 then map_set weights (task_id task) (ofNat index)
                 else weights
            else weights)
         taskList weights)
    items []
  = [].
Proof.
  induction items as [|[i item] items IH]; intros Hno; cbn [fold_left]; [reflexivity|].
  assert (E : forall l, incl l taskList ->
                        fold_left
                          (fun weights task =>
                             if orb (includes (toLowerCase (intent item)) (task_id task))
                                    (includes (toLowerCase (intent item)) (task_name task))
                             then if negb (map_has weights (task_id task))
                                  then map_set weights (task_id task) (ofNat i)
                                  else weights
                             else weights) l [] = []).
  { induction l as [|t l IHl]; intros Ht; [reflexivity|]. cbn [fold_left].
    destruct (Hno item t (or_introl eq_refl) (Ht t (or_introl eq_refl))) as [-> ->].
    cbn [orb]. apply IHl. intros x Hx. apply Ht. right. exact Hx. }
  rewrite (E taskList (incl_refl _)). apply IH.
  intros item' task Hi Ht. apply Hno; [right; exact Hi | exact Ht].
Qed.

(** X25.  [orderTasksByPlan] returns a permutation of the task list: no
    task is lost, added or repeated, whatever the plan says; when no plan
    item mentions a task id or name the list is returned in its order. *)
Theorem orderTasksByPlan_only_reorders :
  forall (response : PlanResponse) (taskList : list ScenarioTask),
    Permutation (orderTasksByPlan response taskList) taskList
    /\ length (orderTasksByPlan response taskList) = length taskList
    /\ (forall task, In task (orderTasksByPlan response taskList) <-> In task taskList)
    /\ ((forall item task,
            In item (plans response) -> In task taskList ->
            includes (toLowerCase (intent item)) (task_id task) = false
            /\ includes (toLowerCase (intent item)) (task_name task) = false) ->
        orderTasksByPlan response taskList = taskList).
Proof.
  intros response taskList.
  assert (Hp : Permutation (orderTasksByPlan response taskList) taskList)
    by (unfold orderTasksByPlan; apply sort_perm).
  split; [exact Hp|]. split; [apply Permutation_length; exact Hp|]. split.
  - intros task. split; [apply Permutation_in; exact Hp
                        | apply Permutation_in; apply Permutation_sym; exact Hp].
  - intros Hno. unfold orderTasksByPlan.
    rewrite weights_stay_empty.
    + apply sort_keeps_ties. intros x y _ _. reflexivity.
    + intros item task Hi Ht. apply Hno; [|exact Ht].
      apply in_map_iff in Hi. destruct Hi as ([i it] & <- & Hi).
      apply in_combine_r in Hi. exact Hi.
Qed.

Lemma orderTasksByPlan_only_reorders_witness :
  orderTasksByPlan idle_response [gather; hunt] = [gather; hunt].
Proof.
  apply (proj2 (proj2 (proj2 (@orderTasksByPlan_only_reorders idle_response [gather; hunt])))).
  intros item task [<-|[]] [<-|[<-|[]]]; split; reflexivity.
Defined.

Section AgentRelations.
Variable P : Platform.
Variable config : ScenarioConfig.
Variable R : AgentState -> AgentState -> Prop.
Hypothesis R_refl : forall a, R a a.
Hypothesis R_trans : forall a b c, R a b -> R b c -> R a c.
Hypothesis R_participant :
  forall day e baseShare partnerIds agent net,
    R agent (fst (applyParticipant P config day e baseShare partnerIds agent net)).
Hypothesis R_reflect : forall agent day, R agent (fst (reflect P config agent day)).

Lemma Forall2_same (l : list AgentState) : Forall2 R l l.
Proof. induction l; constructor; auto. Qed.

Lemma Forall2_list_set (l0 cur : list AgentState) (p : nat) (a a' : AgentState) :
  Forall2 R l0 cur -> nth_error cur p = Some a -> R a a' ->
  Forall2 R l0 (list_set cur p a').
Proof.
  intros H. revert p. induction H as [|x y l l' Hxy Hl IH]; intros p Hn Ha.
  - destruct p; discriminate.
  - destruct p as [|p]; cbn [list_set].
    + cbn in Hn. injection Hn as ->. constructor; [eapply R_trans; eauto | exact Hl].
    + cbn in Hn. constructor; [exact Hxy | apply IH; assumption].
Qed.

Lemma applyExecution_rel (day : Q) (agents0 : list AgentState) (st : ApplyState)
      (e : TaskExecution) :
  Forall2 R agents0 (ap_agents st) ->
  Forall2 R agents0 (ap_agents (applyExecution P config day st e)).
Proof.
  intros H. unfold applyExecution.
  destruct (flat_map _ (participants (assignment e))) as [|p0 positions]; [exact H|].
  match goal with
  | |- context [fold_left ?f (p0 :: positions) _] =>
      assert (F : forall l ags n, Forall2 R agents0 ags ->
                                  Forall2 R agents0 (fst (fold_left f l (ags, n))))
  end.
  { induction l as [|p l IH]; intros ags n Hags; cbn [fold_left]; [exact Hags|].
    destruct (nth_error ags p) as [agent|] eqn:E; [|apply IH; exact Hags].
    match goal with
    | |- context [applyParticipant P config day e ?b ?ids agent n] =>
        pose proof (R_participant day e b ids agent n) as Hp;
        destruct (applyParticipant P config day e b ids agent n) as [agent' n']
    end.
    cbn [fst] in Hp. apply IH. eapply Forall2_list_set; eauto. }
  specialize (F (p0 :: positions) (ap_agents st) (ap_network st) H).
  destruct (fold_left _ (p0 :: positions) _) as [ags' n']. exact F.
Qed.

Lemma applyExecution_fold_rel (day : Q) (agents0 : list AgentState)
      (execs : list TaskExecution) (st : ApplyState) :
  Forall2 R agents0 (ap_agents st) ->
  Forall2 R agents0 (ap_agents (fold_left (applyExecution P config day) execs st)).
Proof.
  revert st. induction execs as [|e l IH]; intros st H; cbn [fold_left]; [exact H|].
  apply IH. apply applyExecution_rel. exact H.
Qed.

Lemma reflectAll_rel (day : Q) (agents : list AgentState) (logger : SimulationLogger) :
  Forall2 R agents (fst (reflectAll P config day agents logger)).
Proof.
  unfold reflectAll.
  match goal with
  | |- context [fold_left ?f agents _] =>
      assert (F : forall l done0 done lg,
                 Forall2 R done0 done ->
                 Forall2 R (done0 ++ l) (fst (fold_left f l (done, lg))))
  end.
  { induction l as [|a l IH]; intros done0 done lg Hd; cbn [fold_left].
    - rewrite app_nil_r. exact Hd.
    - pose proof (R_reflect a day) as Hr.
      destruct (reflect P config a day) as [a' reflection]. cbn [fst] in Hr.
      replace (done0 ++ a :: l) with ((done0 ++ [a]) ++ l) by (rewrite <- app_assoc; reflexivity).
      apply IH. apply Forall2_app; [exact Hd | constructor; [exact Hr | constructor]]. }
  exact (F agents [] [] logger (Forall2_nil R)).
Qed.

Lemma Forall2_chain (l1 l2 l3 : list AgentState) :
  Forall2 R l1 l2 -> Forall2 R l2 l3 -> Forall2 R l1 l3.
Proof.
  intros H. revert l3. induction H; intros l3 H3; inversion H3; subst; constructor; eauto.
Qed.

Lemma applyExecutions_rel (execs : list TaskExecution) (day : Q) (agents : list AgentState)
      (net : SocialNetwork) (logger : SimulationLogger) :
  Forall2 R agents (ap_agents (applyExecutions P config execs day agents net logger)).
Proof.
  unfold applyExecutions.
  pose proof (@applyExecution_fold_rel day agents execs
                {| ap_agents := agents; ap_network := applyDecay net; ap_logger := logger |}
                (Forall2_same agents)) as H1.
  destruct (fold_left (applyExecution P config day) execs _) as [ags n lg].
  cbn [ap_agents ap_logger ap_network] in *.
  pose proof (reflectAll_rel day ags lg) as H2.
  destruct (reflectAll P config day ags lg) as [ags' lg']. cbn [fst ap_agents] in *.
  eapply Forall2_chain; eauto.
Qed.
End AgentRelations.

Lemma stepDay_rel (P : Platform) (R : AgentState -> AgentState -> Prop)
      (w : World) (fuel : nat) (sim sim' : CooperationSimulation) (r : SimulationStepResult) :
  (forall a, R a a) -> (forall a b c, R a b -> R b c -> R a c) ->
  (forall day e baseShare partnerIds agent net,
      R agent (fst (applyParticipant P (sim_config sim) day e baseShare partnerIds agent net))) ->
  (forall agent day, R agent (fst (reflect P (sim_config sim) agent day))) ->
  stepDay P w fuel sim = Ok (r, sim') ->
  Forall2 R (sim_agents sim) (sim_agents sim')
  /\ st_agents (newState r) = sim_agents sim'
  /\ sim_config sim' = sim_config sim
  /\ st_environment (newState r) = sim_environment sim'
  /\ day (sim_environment sim') = day (sim_environment sim) + 1.
Proof.
  intros R1 R2 R3 R4 H. unfold stepDay in H.
  destruct (createPlanRequest sim) as [req| |]; cbn [bind] in H; try discriminate.
  destruct (tick P fuel (sim_config sim) (sim_environment sim) (sim_rng sim))
    as [[env rng]| |] eqn:ET; cbn [bind] in H; try discriminate.
  destruct (assignTasks P (sim_config sim) rng (sim_agents sim) (resourceLevel env) _)
    as [execs rng2].
  destruct (flush _) as [[entries links] logger].
  destruct (drawSeed rng2) as [s r3].
  injection H as <- <-. cbn [newState st_agents sim_agents sim_config st_environment sim_environment].
  split; [ | split; [reflexivity | split; [reflexivity | split; [reflexivity|] ] ] ].
  - apply applyExecutions_rel; assumption.
  - unfold tick in ET.
    destruct (gammaSample P fuel _ _ _) as [[g r1]| |]; cbn [bind] in ET; try discriminate.
    destruct (if Qeqb _ 0 then None else _) as [season|]; [|discriminate].
    destruct (if truthy _ then _ else _) as [c r2].
    destruct (match logGaussian _ with Some _ => _ | None => _ end) as [lg r4].
    destruct (composeHazard _ _) as [risk| |]; cbn [bind] in ET; try discriminate.
    injection ET as <- <-. reflexivity.
Qed.

Lemma clamp_bounds (v lo hi : Q) : lo <= hi -> lo <= clamp v lo hi /\ clamp v lo hi <= hi.
Proof. intros H. unfold clamp, Math_max, Math_min. qcases; split; lra. Qed.

Lemma updateEmotion_ok (current : EmotionState) (stimulus : EmotionStimulus) (decay : Q) :
  emotion_ok (updateEmotion current stimulus decay).
Proof.
  unfold emotion_ok, updateEmotion. cbn [valence arousal mood].
  repeat split; apply clamp_bounds; reflexivity || (vm_compute; discriminate).
Qed.

Lemma updateSocialMemory_scores (memory : list SocialMemoryEntry) (partner : string)
      (day rd given received sd window : Q) :
  Forall scores_ok memory ->
  Forall scores_ok (updateSocialMemory memory partner day rd given received sd window).
Proof.
  intros H. unfold updateSocialMemory. constructor.
  - unfold scores_ok. cbn [reciprocity sentiment].
    repeat split; apply clamp_bounds; vm_compute; discriminate.
  - apply Forall_forall. intros e He. apply filter_In in He.
    apply (proj1 (Forall_forall _ _) H). apply He.
Qed.

Lemma set_socialMemory_same (a : AgentState) : set_socialMemory a (socialMemory a) = a.
Proof. destruct a. reflexivity. Qed.

Lemma set_socialMemory_twice (a : AgentState) (m m' : list SocialMemoryEntry) :
  set_socialMemory (set_socialMemory a m) m' = set_socialMemory a m'.
Proof. reflexivity. Qed.

(** The partners loop of [applyExecutions] changes the social memory of the agent only. *)
Lemma partners_fold_memory (config : ScenarioConfig) (day rd share sd : Q) (e : TaskExecution)
      (partnerIds : list string) (agent : AgentState) (net : SocialNetwork) :
  exists m,
    fst (fold_left
           (fun acc partner =>
              let '(agent, net) := acc in
              if String.eqb partner (id agent) then acc
              else
                (registerInteraction config agent partner day rd share
                   (orElse (rec_get (rewards e) partner) 0) sd,
                 reinforceInteraction net (id agent) partner (0.2 + share * 0.05)))
           partnerIds (agent, net))
    = set_socialMemory agent m
    /\ (Forall scores_ok (socialMemory agent) -> Forall scores_ok m).
Proof.
  revert agent net. induction partnerIds as [|p l IH]; intros agent net; cbn [fold_left].
  - exists (socialMemory agent). cbn [fst]. split; [symmetry; apply set_socialMemory_same | auto].
  - destruct (String.eqb p (id agent)); [apply IH|].
    destruct (IH (registerInteraction config agent p day rd share
                    (orElse (rec_get (rewards e) p) 0) sd)
                 (reinforceInteraction net (id agent) p (0.2 + share * 0.05))) as (m & E & Hm).
    exists m. split.
    + rewrite E. unfold registerInteraction. apply set_socialMemory_twice.
    + intros H. apply Hm. unfold registerInteraction. cbn [set_socialMemory socialMemory].
      apply updateSocialMemory_scores. exact H.
Qed.

Lemma applyStimulus_fresh (config : ScenarioConfig) (agent : AgentState) (day : Q)
      (stimulus : EmotionStimulus) :
  episodic_fresh (episodicWindowDays (cognition config))
                 (episodicMemory (applyStimulus config agent day stimulus)).
Proof.
  unfold applyStimulus. cbn [set_episodicMemory episodicMemory episodic_fresh ep_day].
  intros e He. apply filter_In in He. destruct He as [_ He]. apply Qleb_le in He. exact He.
Qed.

Lemma applyParticipant_same_person (P : Platform) (config : ScenarioConfig) (day : Q)
      (e : TaskExecution) (baseShare : Q) (partnerIds : list string) (agent : AgentState)
      (net : SocialNetwork) :
  same_person agent (fst (applyParticipant P config day e baseShare partnerIds agent net)).
Proof.
  unfold applyParticipant.
  match goal with
  | |- context [fold_left ?f partnerIds (?a0, net)] =>
      set (agent1 := a0);
      assert (F : exists m, fst (fold_left f partnerIds (agent1, net)) = set_socialMemory agent1 m)
  end.
  { match goal with
    | |- context [registerInteraction config _ _ day ?rd ?share _ ?sd] =>
        destruct (@partners_fold_memory config day rd share sd e partnerIds agent1 net)
          as (m & E & _)
    end.
    exists m. exact E. }
  destruct F as (m & E).
  destruct (fold_left _ partnerIds (agent1, net)) as [agent2 net2]. cbn [fst] in *. subst agent2.
  unfold same_person, agent1.
  cbn [set_lastActions set_socialMemory set_reputation id name campId fehrSchmidt skillset
       preferences semanticMemory hungerDebt].
  unfold applyStimulus.
  cbn [set_episodicMemory set_emotion id name campId fehrSchmidt skillset
       preferences semanticMemory hungerDebt].
  destruct (existsb _ (injuries (assignment e)));
    cbn [set_episodicMemory set_emotion set_energy id name campId fehrSchmidt skillset
         preferences semanticMemory hungerDebt];
    destruct (Qltb _ (dailyEnergyNeed config * 0.5)) eqn:EQ;
    cbn [set_hungerDebt set_energy id name campId fehrSchmidt skillset
         preferences semanticMemory hungerDebt energy] in *;
    repeat split; try reflexivity; try lra.
  all: apply Qltb_lt in EQ; lra.
Qed.

Lemma applyParticipant_bounded (P : Platform) (config : ScenarioConfig) (day : Q)
      (e : TaskExecution) (baseShare : Q) (partnerIds : list string) (agent : AgentState)
      (net : SocialNetwork) :
  agent_bounded config agent ->
  agent_bounded config (fst (applyParticipant P config day e baseShare partnerIds agent net)).
Proof.
  intros (He & Hh & Hr0 & Hr1 & Hemo & Hs & Hf).
  unfold applyParticipant.
  match goal with
  | |- context [fold_left ?f partnerIds (?a0, net)] =>
      set (agent1 := a0);
      assert (F : exists m, fst (fold_left f partnerIds (agent1, net)) = set_socialMemory agent1 m
                            /\ (Forall scores_ok (socialMemory agent1) -> Forall scores_ok m))
  end.
  { match goal with
    | |- context [registerInteraction config _ _ day ?rd ?share _ ?sd] =>
        exact (@partners_fold_memory config day rd share sd e partnerIds agent1 net)
    end. }
  destruct F as (m & E & Hm).
  destruct (fold_left _ partnerIds (agent1, net)) as [agent2 net2]. cbn [fst] in *. subst agent2.
  unfold agent_bounded.
  cbn [set_lastActions set_socialMemory energy hungerDebt reputation emotion socialMemory
       episodicMemory].
  assert (Hm' : Forall scores_ok m).
  { apply Hm. unfold agent1. cbn [set_reputation socialMemory]. unfold applyStimulus.
    cbn [set_episodicMemory set_emotion socialMemory].
    destruct (existsb _ (injuries (assignment e)));
      cbn [set_episodicMemory set_emotion set_energy socialMemory];
      destruct (Qltb _ (dailyEnergyNeed config * 0.5));
      cbn [set_hungerDebt set_energy socialMemory]; exact Hs. }
  unfold agent1. cbn [set_reputation energy hungerDebt reputation emotion episodicMemory].
  split; [ | split; [ | split; [ | split; [ | split; [ | split ] ] ] ] ].
  - unfold applyStimulus. cbn [set_episodicMemory set_emotion energy].
    destruct (existsb _ (injuries (assignment e)));
      cbn [set_episodicMemory set_emotion set_energy energy].
    + apply Math_max_l.
    + destruct (Qltb _ (dailyEnergyNeed config * 0.5));
        cbn [set_hungerDebt set_energy energy]; apply Math_max_l.
  - unfold applyStimulus. cbn [set_episodicMemory set_emotion hungerDebt].
    destruct (existsb _ (injuries (assignment e)));
      cbn [set_episodicMemory set_emotion set_energy hungerDebt];
      destruct (Qltb _ (dailyEnergyNeed config * 0.5)) eqn:EQ;
      cbn [set_hungerDebt set_energy hungerDebt energy] in *;
      try exact Hh; apply Qltb_lt in EQ; lra.
  - apply clamp_bounds. vm_compute. discriminate.
  - apply clamp_bounds. vm_compute. discriminate.
  - unfold applyStimulus at 1. cbn [set_episodicMemory set_emotion emotion].
    apply updateEmotion_ok.
  - exact Hm'.
  - apply applyStimulus_fresh.
Qed.

Lemma reflect_fields (P : Platform) (config : ScenarioConfig) (agent : AgentState) (day : Q) :
  fst (reflect P config agent day) = agent
  \/ fst (reflect P config agent day) = set_lastReflectionDay agent day.
Proof.
  unfold reflect. destruct (Qltb _ _); [left | right]; reflexivity.
Qed.

Lemma reflect_same_person (P : Platform) (config : ScenarioConfig) (agent : AgentState)
      (day : Q) :
  same_person agent (fst (reflect P config agent day)).
Proof.
  destruct (reflect_fields P config agent day) as [-> | ->];
    unfold same_person; cbn; repeat split; try reflexivity; lra.
Qed.

Lemma reflect_bounded (P : Platform) (config : ScenarioConfig) (agent : AgentState) (day : Q) :
  agent_bounded config agent -> agent_bounded config (fst (reflect P config agent day)).
Proof. destruct (reflect_fields P config agent day) as [-> | ->]; intros H; exact H. Qed.

Lemma same_person_refl (a : AgentState) : same_person a a.
Proof. unfold same_person. repeat split; try reflexivity; lra. Qed.

Lemma same_person_trans (a b c : AgentState) :
  same_person a b -> same_person b c -> same_person a c.
Proof.
  unfold same_person. intros (A1 & A2 & A3 & A4 & A5 & A6 & A7 & A8)
                             (B1 & B2 & B3 & B4 & B5 & B6 & B7 & B8).
  repeat split; try congruence. lra.
Qed.

Lemma stepDay_keeps (P : Platform) (w : World) (fuel : nat) (sim sim' : CooperationSimulation)
      (r : SimulationStepResult) :
  stepDay P w fuel sim = Ok (r, sim') ->
  Forall2 (keeps (sim_config sim)) (sim_agents sim) (sim_agents sim')
  /\ st_agents (newState r) = sim_agents sim'
  /\ sim_config sim' = sim_config sim
  /\ st_environment (newState r) = sim_environment sim'
  /\ day (sim_environment sim') = day (sim_environment sim) + 1.
Proof.
  apply stepDay_rel.
  - intros a. split; [apply same_person_refl | auto].
  - intros a b c [A1 A2] [B1 B2]. split; [eapply same_person_trans; eauto | auto].
  - intros. split; [apply applyParticipant_same_person | apply applyParticipant_bounded].
  - intros. split; [apply reflect_same_person | apply reflect_bounded].
Qed.

Lemma string_of_nat_inj (n m : nat) : string_of_nat n = string_of_nat m -> n = m.
Proof.
  intros H. unfold string_of_nat in H.
  apply (f_equal NilEmpty.uint_of_string) in H. rewrite !NilEmpty.usu in H.
  injection H as H. apply DecimalNat.Unsigned.to_uint_inj. exact H.
Qed.

Lemma buildAgentId_inj (i j : nat) : buildAgentId i = buildAgentId j -> i = j.
Proof.
  unfold buildAgentId. cbn [String.append]. intros H. injection H as H.
  apply string_of_nat_inj in H. lia.
Qed.

Lemma initializeAgent_newborn (P : Platform) (config : ScenarioConfig) (i : nat)
      (rng : SeededRandom) :
  newborn config i (fst (fst (initializeAgent P config i rng)))
  /\ snd (fst (initializeAgent P config i rng)) = nth (i mod 3) camps "".
Proof.
  unfold initializeAgent.
  assert (Hskills : forall l acc,
             (forall k v, In (k, v) (fst acc) ->
                          0 <= v /\ v <= 1.2
                          /\ In k (map fst (skillProfiles (agentPopulation config)))) ->
             incl (map fst l) (map fst (skillProfiles (agentPopulation config))) ->
             forall k v,
               In (k, v)
                  (fst (fold_left
                          (fun (acc : list (string * Q) * SeededRandom)
                               (entry : string * (Q * Q)) =>
                             let '(skills, rng) := acc in
                             let '(key, (mean, std)) := entry in
                             let '(raw, rng) := sampleNormal P rng mean std in
                             (rec_set skills key (clamp raw 0 1.2), rng))
                          l acc)) ->
               0 <= v /\ v <= 1.2 /\ In k (map fst (skillProfiles (agentPopulation config)))).
  { induction l as [| [key [mean std]] l IH]; intros [skills r] Hacc Hincl; cbn [fold_left];
      [exact Hacc | ].
    apply IH; [ | intros x Hx; apply Hincl; right; exact Hx].
    destruct (sampleNormal P r mean std) as [raw r']. cbn [fst] in *.
    intros k v Hin.
    assert (Hk : In k (map fst skills) \/ k = key).
    { apply (in_map fst) in Hin. cbn [fst] in Hin. rewrite rec_set_keys in Hin.
      destruct (in_dec string_dec key (map fst skills)); [left; exact Hin|].
      apply in_app_or in Hin. destruct Hin as [Hin|[<-|[]]]; auto. }
    apply rec_set_In_weak in Hin. destruct Hin as [-> | Hin].
    - destruct (@clamp_bounds raw 0 1.2) as [A B]; [vm_compute; discriminate|].
      split; [exact A | split; [exact B|] ].
      destruct Hk as [Hk | ->].
      + apply in_map_iff in Hk. destruct Hk as [[k' v'] [<- Hk]]. apply (Hacc k' v' Hk).
      + apply Hincl. left. reflexivity.
    - apply (Hacc k v Hin). }
  specialize (Hskills (skillProfiles (agentPopulation config)) ([], rng)
                      (fun k v (H : In (k, v) []) => match H with end)
                      (incl_refl _)).
  destruct (fold_left _ (skillProfiles (agentPopulation config)) ([], rng)) as [skills rng0].
  repeat match goal with
         | |- context [sampleNormal P ?r ?m ?s] => destruct (sampleNormal P r m s)
         end.
  cbn [fst snd]. split; [|reflexivity].
  unfold newborn, probability.
  cbn [id name campId energy hungerDebt reputation emotion socialMemory episodicMemory
       lastActions fehrSchmidt alpha beta reputationWeight normPenalty preferences
       riskTolerance normativeAlignment socialGoalWeight survivalGoalWeight memoryFocus
       skillset].
  repeat match goal with
         | |- _ /\ _ => split
         end; try reflexivity; try exact Hskills;
    try (apply clamp_lower);
    try (apply clamp_bounds; vm_compute; discriminate).
Qed.

(** The agents and the camp membership that [initializeAgents] builds. *)
Lemma initializeAgents_newborn (P : Platform) (config : ScenarioConfig) (rng : SeededRandom) :
  Forall2 (newborn config) (seq 0 (size (agentPopulation config)))
          (fst (fst (initializeAgents P config rng)))
  /\ forall a, In a (fst (fst (initializeAgents P config rng))) ->
               rec_get (snd (fst (initializeAgents P config rng))) (id a) = Some (campId a).
Proof.
  unfold initializeAgents.
  match goal with
  | |- context [fold_left ?f _ _] =>
      assert (H : forall l l0 acc,
                 Forall2 (newborn config) l0 (fst (fst acc)) ->
                 (forall a, In a (fst (fst acc)) ->
                            rec_get (snd (fst acc)) (id a) = Some (campId a)) ->
                 (forall i a, In i l -> In a (fst (fst acc)) -> id a <> buildAgentId i) ->
                 NoDup l ->
                 Forall2 (newborn config) (l0 ++ l) (fst (fst (fold_left f l acc)))
                 /\ forall a, In a (fst (fst (fold_left f l acc))) ->
                              rec_get (snd (fst (fold_left f l acc))) (id a) = Some (campId a))
  end.
  { induction l as [| i l IH]; intros l0 [[agents membership] r] Hacc Hm Hfresh Hnd;
      cbn [fold_left].
    - rewrite app_nil_r. split; assumption.
    - destruct (initializeAgent_newborn P config i r) as [Hi Hc].
      destruct (initializeAgent P config i r) as [[agent camp] r']. cbn [fst snd] in *.
      replace (l0 ++ i :: l) with ((l0 ++ [i]) ++ l) by (rewrite <- app_assoc; reflexivity).
      inversion Hnd as [|i' l' Hni Hnd']; subst.
      assert (Hid : id agent = buildAgentId i) by apply Hi.
      assert (Hcamp : campId agent = nth (i mod 3) camps "") by apply Hi.
      apply IH; cbn [fst snd].
      + apply Forall2_app; [exact Hacc | constructor; [exact Hi | constructor] ].
      + intros a Ha. apply in_app_or in Ha. destruct Ha as [Ha | [<- | []]].
        * rewrite rec_get_set_other; [apply Hm; exact Ha|].
          intros E. apply (Hfresh i a); [left; reflexivity | exact Ha | ]. congruence.
        * rewrite rec_get_set_same. congruence.
      + intros j a Hj Ha. apply in_app_or in Ha. destruct Ha as [Ha | [<- | []]].
        * apply Hfresh; [right; exact Hj | exact Ha].
        * rewrite Hid. intros E. apply buildAgentId_inj in E. subst j. contradiction.
      + exact Hnd'. }
  apply (H (seq 0 (size (agentPopulation config))) [] ([], [], rng)).
  - constructor.
  - intros a [].
  - intros i a _ [].
  - apply seq_NoDup.
Qed.

Lemma keeps_refl (config : ScenarioConfig) (a : AgentState) : keeps config a a.
Proof. split; [apply same_person_refl | auto]. Qed.

Lemma keeps_trans (config : ScenarioConfig) (a b c : AgentState) :
  keeps config a b -> keeps config b c -> keeps config a c.
Proof. intros [A1 A2] [B1 B2]. split; [eapply same_person_trans; eauto | auto]. Qed.

Lemma ofNat_S (k : nat) : ofNat (S k) == ofNat k + 1.
Proof. unfold ofNat. rewrite Nat2Z.inj_succ, <- Z.add_1_r, inject_Z_plus. reflexivity. Qed.

Lemma stepDays_keeps (P : Platform) (ws : nat -> World) (fuel k : nat)
      (sim0 sim : CooperationSimulation) (rs : list SimulationStepResult) :
  stepDays P ws fuel k sim0 = Ok (rs, sim) ->
  Forall2 (keeps (sim_config sim0)) (sim_agents sim0) (sim_agents sim)
  /\ sim_config sim = sim_config sim0
  /\ day (sim_environment sim) == day (sim_environment sim0) + ofNat k
  /\ length rs = k
  /\ forall i r, nth_error rs i = Some r ->
                 Forall2 (keeps (sim_config sim0)) (sim_agents sim0) (st_agents (newState r))
                 /\ day (st_environment (newState r))
                    == day (sim_environment sim0) + ofNat (S i).
Proof.
  revert rs sim. induction k as [|k IH]; intros rs sim H; cbn [stepDays] in H.
  - injection H as <- <-. split; [apply Forall2_same; apply keeps_refl|].
    split; [reflexivity|]. split; [change (ofNat 0) with 0%Q; lra|]. split; [reflexivity|].
    intros [|i] r Hr; discriminate.
  - destruct (stepDays P ws fuel k sim0) as [[rs1 sim1]| |]; cbn [bind] in H; try discriminate.
    destruct (IH rs1 sim1 eq_refl) as (A & B & C & D & E).
    destruct (stepDay P (ws k) fuel sim1) as [[r sim2]| |] eqn:ES; cbn [bind] in H;
      try discriminate.
    injection H as <- <-.
    pose proof ES as X. apply stepDay_keeps in X. destruct X as (F & G & H1 & H2 & H3).
    rewrite B in F.
    assert (A' : Forall2 (keeps (sim_config sim0)) (sim_agents sim0) (sim_agents sim2)).
    { eapply Forall2_chain; [apply keeps_trans | exact A | exact F]. }
    assert (C' : day (sim_environment sim2) == day (sim_environment sim0) + ofNat (S k)).
    { rewrite H3, C, ofNat_S. ring. }
    split; [exact A'|]. split; [congruence|]. split; [exact C'|].
    split; [rewrite length_app, D; cbn; lia|].
    intros i r' Hr.
    destruct (Nat.lt_ge_cases i (length rs1)) as [Hi|Hi].
    + rewrite nth_error_app1 in Hr by exact Hi. apply E. exact Hr.
    + rewrite nth_error_app2 in Hr by exact Hi.
      destruct (i - length rs1)%nat as [|j] eqn:Ej; [|destruct j; discriminate].
      cbn in Hr. injection Hr as <-.
      assert (i = k) by lia. subst i.
      rewrite G, H2. split; [exact A' | exact C'].
Qed.

(** What every reachable simulation and every snapshot of a run keeps of
    the agents made by [initializeAgents], and the day they show. *)
Lemma run_keeps (P : Platform) (ws : nat -> World) (fuel : nat) (config : ScenarioConfig)
      (seed : Z) (k : nat) (rs : list SimulationStepResult) (sim : CooperationSimulation) :
  run P ws fuel config seed k = Ok (rs, sim) ->
  let born := fst (fst (initializeAgents P config (SeededRandom_new seed))) in
  Forall2 (keeps config) born (sim_agents sim)
  /\ day (sim_environment sim) == ofNat k
  /\ length rs = k
  /\ forall i r, nth_error rs i = Some r ->
                 Forall2 (keeps config) born (st_agents (newState r))
                 /\ day (st_environment (newState r)) == ofNat (S i).
Proof.
  unfold run, CooperationSimulation_initialize. intros H.
  destruct (SeasonalEnvironment_initialize config) as [env| |] eqn:EE; cbn [bind] in H;
    try discriminate.
  destruct (initializeAgents P config (SeededRandom_new seed)) as [[agents membership] rng].
  cbn [bind] in H. apply stepDays_keeps in H.
  cbn [sim_config sim_agents sim_environment fst] in *.
  assert (Hday : day env = 0).
  { unfold SeasonalEnvironment_initialize in EE.
    destruct (composeHazard config 0); cbn [bind] in EE; try discriminate.
    injection EE as <-. reflexivity. }
  destruct H as (A & _ & C & D & E). rewrite Hday in C.
  split; [exact A|]. split; [rewrite C; ring|]. split; [exact D|].
  intros i r Hr. destruct (E i r Hr) as [E1 E2]. split; [exact E1|].
  rewrite E2, Hday. ring.
Qed.

Lemma newborn_bounded (config : ScenarioConfig) (i : nat) (a : AgentState) :
  0 <= dailyEnergyNeed config ->
  emotion_ok {| valence := baselineValence (cognition config);
                arousal := baselineArousal (cognition config);
                mood := baselineValence (cognition config) |} ->
  newborn config i a -> agent_bounded config a.
Proof.
  intros Hn He (_ & _ & _ & E1 & E2 & E3 & E4 & E5 & E6 & _).
  unfold agent_bounded. rewrite E1, E2, E3, E4, E5, E6.
  split; [lra|]. split; [lra|]. split; [vm_compute; discriminate|].
  split; [vm_compute; discriminate|]. split; [exact He|]. split; [constructor | exact I].
Qed.

Lemma Forall2_ids (config : ScenarioConfig) (l : list nat) (born : list AgentState) :
  Forall2 (newborn config) l born -> map id born = map buildAgentId l.
Proof. induction 1 as [|i a l l' H]; cbn [map]; [reflexivity|]. f_equal; [apply H | assumption]. Qed.

Lemma Forall2_keeps_ids (config : ScenarioConfig) (l l' : list AgentState) :
  Forall2 (keeps config) l l' -> map id l' = map id l.
Proof.
  induction 1 as [|a b l l' H]; cbn [map]; [reflexivity|].
  f_equal; [symmetry; apply H | assumption].
Qed.

Lemma Forall2_keeps_bounded (config : ScenarioConfig) (l l' : list AgentState) :
  Forall2 (keeps config) l l' -> Forall (agent_bounded config) l ->
  Forall (agent_bounded config) l'.
Proof.
  induction 1 as [|a b l l' H]; intros HF; [constructor|].
  inversion HF; subst. constructor; [apply H; assumption | auto].
Qed.

Lemma Forall2_keeps_person (config : ScenarioConfig) (l l' : list AgentState) :
  Forall2 (keeps config) l l' -> Forall2 same_person l l'.
Proof. induction 1 as [|a b l l' H]; constructor; [apply H | assumption]. Qed.

Lemma NoDup_map_injective (A B : Type) (f : A -> B) (l : list A) :
  (forall x y, f x = f y -> x = y) -> NoDup l -> NoDup (map f l).
Proof.
  intros Hf. induction 1 as [|x l Hx Hl IH]; cbn [map]; constructor; [|exact IH].
  intros Hin. apply in_map_iff in Hin. destruct Hin as (y & E & Hy).
  apply Hf in E. subst y. contradiction.
Qed.

Lemma buildAgentId_NoDup (n : nat) : NoDup (map buildAgentId (seq 0 n)).
Proof. apply NoDup_map_injective; [apply buildAgentId_inj | apply seq_NoDup]. Qed.

(** X26.  In every simulation reached by [initialize] and [stepDay]
    calls, and in every snapshot, the agents are agent_1 ... agent_n in
    this order (n the configured size, ids distinct), and each agent has
    the name, camp, skills, preferences, Fehr-Schmidt parameters and
    semantic memory it was made with, and a hunger debt not below the one
    it was made with. *)
Theorem population_is_stable :
  forall (P : Platform) (ws : nat -> World) (fuel : nat) (config : ScenarioConfig)
         (seed : Z) (k : nat) (rs : list SimulationStepResult) (sim : CooperationSimulation),
    run P ws fuel config seed k = Ok (rs, sim) ->
    (map id (sim_agents sim) = map buildAgentId (seq 0 (size (agentPopulation config)))
     /\ NoDup (map id (sim_agents sim))
     /\ length (sim_agents sim) = size (agentPopulation config)
     /\ Forall2 same_person (fst (fst (initializeAgents P config (SeededRandom_new seed))))
                (sim_agents sim))
    /\ forall r, In r rs ->
                 map id (st_agents (newState r))
                 = map buildAgentId (seq 0 (size (agentPopulation config)))
                 /\ Forall2 same_person
                            (fst (fst (initializeAgents P config (SeededRandom_new seed))))
                            (st_agents (newState r)).
Proof.
  intros P ws fuel config seed k rs sim H.
  pose proof H as X. apply run_keeps in X. cbn zeta in X. destruct X as (A & _ & _ & E).
  destruct (initializeAgents_newborn P config (SeededRandom_new seed)) as [B _].
  pose proof (Forall2_ids B) as Hids.
  assert (I : map id (sim_agents sim)
              = map buildAgentId (seq 0 (size (agentPopulation config)))).
  { rewrite (Forall2_keeps_ids A). exact Hids. }
  split.
  - split; [exact I|]. split; [rewrite I; apply buildAgentId_NoDup|].
    split; [|apply (Forall2_keeps_person A)].
    rewrite <- (length_map id), I, length_map, length_seq. reflexivity.
  - intros r Hr. apply In_nth_error in Hr. destruct Hr as [i Hr].
    destruct (E i r Hr) as [E1 _].
    split; [rewrite (Forall2_keeps_ids E1); exact Hids | apply (Forall2_keeps_person E1)].
Qed.

Lemma population_is_stable_witness :
  exists rs sim,
    demo_run = Ok (rs, sim)
    /\ map id (sim_agents sim) = ["agent_1"; "agent_2"; "agent_3"]
    /\ forall r, In r rs -> map id (st_agents (newState r)) = ["agent_1"; "agent_2"; "agent_3"].
Proof.
  destruct demo_run_defined as [rs [sim E]]. exists rs, sim. split; [exact E|].
  destruct (@population_is_stable Ref.platform (fun _ => offline) 50 demo 1 3 rs sim E)
    as ((A & _) & B).
  split; [exact A|]. intros r Hr. exact (proj1 (B r Hr)).
Defined.

(** X27.  [initializeAgents] builds as many agents as the configured
    size, with the distinct ids agent_1 ... agent_n in order; each starts
    with energy 1.2 times the daily need, no hunger debt, reputation 0.5,
    the baseline emotion and empty memories, with envy and guilt weights
    in [0, 2], preferences in [0, 1] and skills in [0, 1.2]; the camp
    membership maps every id to the agent's camp, one of the three
    camps. *)
Theorem initializeAgents_builds_the_population :
  forall (P : Platform) (config : ScenarioConfig) (rng : SeededRandom),
    let agents := fst (fst (initializeAgents P config rng)) in
    let membership := snd (fst (initializeAgents P config rng)) in
    length agents = size (agentPopulation config)
    /\ map id agents = population (size (agentPopulation config))
    /\ NoDup (map id agents)
    /\ Forall2 (newborn config) (seq 0 (size (agentPopulation config))) agents
    /\ (forall a, In a agents -> rec_get membership (id a) = Some (campId a) /\ In (campId a) camps).
Proof.
  intros P config rng. cbn zeta.
  destruct (initializeAgents_newborn P config rng) as [A B].
  pose proof (Forall2_ids A) as Hids.
  split; [ | split; [exact Hids | split; [ | split; [exact A | ] ] ] ].
  - rewrite <- (length_map id), Hids, length_map, length_seq. reflexivity.
  - rewrite Hids. apply buildAgentId_NoDup.
  - intros a Ha. split; [apply B; exact Ha|].
    clear B Hids. revert Ha. induction A as [|i b l l' Hi Hl IH]; intros Ha; [destruct Ha|].
    destruct Ha as [<- | Ha]; [|apply IH; exact Ha].
    destruct Hi as (_ & _ & -> & _).
    pose proof (Nat.mod_upper_bound i 3) as Hm.
    destruct (i mod 3)%nat as [|[|[|n]]]; cbn; auto. lia.
Qed.

(** X28.  For a non-negative daily energy need and a baseline emotion
    within the emotion ranges, every agent of every reachable simulation
    and snapshot has energy >= 0, hunger debt >= 0, reputation in [0, 1],
    valence and mood in [-1, 1], arousal in [0, 1.5], reciprocity and
    sentiment of every social memory entry in [-1, 1], and episodic
    entries within the window of the latest one. *)
Theorem agents_stay_in_bounds :
  forall (P : Platform) (ws : nat -> World) (fuel : nat) (config : ScenarioConfig)
         (seed : Z) (k : nat) (rs : list SimulationStepResult) (sim : CooperationSimulation),
    0 <= dailyEnergyNeed config ->
    emotion_ok {| valence := baselineValence (cognition config);
                  arousal := baselineArousal (cognition config);
                  mood := baselineValence (cognition config) |} ->
    run P ws fuel config seed k = Ok (rs, sim) ->
    Forall (agent_bounded config) (sim_agents sim)
    /\ forall r, In r rs -> Forall (agent_bounded config) (st_agents (newState r)).
Proof.
  intros P ws fuel config seed k rs sim Hn He H.
  pose proof H as X. apply run_keeps in X. cbn zeta in X. destruct X as (A & _ & _ & E).
  destruct (initializeAgents_newborn P config (SeededRandom_new seed)) as [B _].
  assert (Hb : Forall (agent_bounded config)
                      (fst (fst (initializeAgents P config (SeededRandom_new seed))))).
  { clear A E. induction B as [|i a l l' Hi]; constructor; auto.
    eapply newborn_bounded; eauto. }
  split; [apply (Forall2_keeps_bounded A Hb)|].
  intros r Hr. apply In_nth_error in Hr. destruct Hr as [i Hr].
  destruct (E i r Hr) as [E1 _]. apply (Forall2_keeps_bounded E1 Hb).
Qed.

Lemma agents_stay_in_bounds_witness :
  exists rs sim,
    demo_run = Ok (rs, sim)
    /\ Forall (agent_bounded demo) (sim_agents sim)
    /\ forall r, In r rs -> Forall (agent_bounded demo) (st_agents (newState r)).
Proof.
  destruct demo_run_defined as [rs [sim E]]. exists rs, sim. split; [exact E|].
  apply (@agents_stay_in_bounds Ref.platform (fun _ => offline) 50 demo 1 3 rs sim);
    [vm_compute; discriminate | repeat split; vm_compute; discriminate | exact E].
Defined.

(** X29.  After [initialize] and k calls of [stepDay] the environment is
    at day k, k results were returned, and result number i (from 0) shows
    day i + 1. *)
Theorem day_counter_counts_steps :
  forall (P : Platform) (ws : nat -> World) (fuel : nat) (config : ScenarioConfig)
         (seed : Z) (k : nat) (rs : list SimulationStepResult) (sim : CooperationSimulation),
    run P ws fuel config seed k = Ok (rs, sim) ->
    day (sim_environment sim) == ofNat k
    /\ length rs = k
    /\ forall i r, nth_error rs i = Some r ->
                   day (st_environment (newState r)) == ofNat (S i).
Proof.
  intros P ws fuel config seed k rs sim H.
  pose proof H as X. apply run_keeps in X. cbn zeta in X. destruct X as (_ & A & B & E).
  split; [exact A|]. split; [exact B|]. intros i r Hr. apply (E i r Hr).
Qed.

Lemma day_counter_counts_steps_witness :
  exists rs sim,
    demo_run = Ok (rs, sim) /\ day (sim_environment sim) == 3 /\ length rs = 3%nat.
Proof.
  destruct demo_run_defined as [rs [sim E]]. exists rs, sim. split; [exact E|].
  destruct (@day_counter_counts_steps Ref.platform (fun _ => offline) 50 demo 1 3 rs sim E)
    as (A & B & _).
  split; [exact A | exact B].
Defined.

Lemma workers_assigned (execs : list TaskExecution) :
  workers (map assignment execs) = assigned execs.
Proof.
  unfold workers, assigned. induction execs as [|e l IH]; cbn [map flat_map]; [reflexivity|].
  rewrite IH. reflexivity.
Qed.

(** The assignments of a day are those of one call of [assignTasks] on
    the agents of the simulation, with the tasks of the configuration in
    the order of the plan. *)
Lemma stepDay_assignments (P : Platform) (w : World) (fuel : nat)
      (sim sim' : CooperationSimulation) (r : SimulationStepResult) :
  stepDay P w fuel sim = Ok (r, sim') ->
  exists rng res ordered,
    Permutation ordered (tasks (sim_config sim))
    /\ assignments r
       = map assignment
             (fst (assignTasks P (sim_config sim) rng (sim_agents sim) res (Some ordered))).
Proof.
  intros H. unfold stepDay in H.
  destruct (createPlanRequest sim) as [req| |]; cbn [bind] in H; try discriminate.
  destruct (tick P fuel (sim_config sim) (sim_environment sim) (sim_rng sim))
    as [[env rng]| |]; cbn [bind] in H; try discriminate.
  exists rng, (resourceLevel env),
    (orderTasksByPlan (plan P w (sim_config sim) req) (tasks (sim_config sim))).
  split; [unfold orderTasksByPlan; apply sort_perm|].
  destruct (assignTasks P (sim_config sim) rng (sim_agents sim) (resourceLevel env) _)
    as [execs rng2].
  destruct (flush _) as [[entries links] logger].
  destruct (drawSeed rng2) as [s r3].
  injection H as <- <-. reflexivity.
Qed.

(** Every result of a run is the result of one [stepDay] on a simulation
    that keeps the agents and the configuration of the start. *)
Lemma stepDays_steps (P : Platform) (ws : nat -> World) (fuel k : nat)
      (sim0 sim : CooperationSimulation) (rs : list SimulationStepResult) :
  stepDays P ws fuel k sim0 = Ok (rs, sim) ->
  forall r, In r rs ->
    exists w sim1 sim2,
      stepDay P w fuel sim1 = Ok (r, sim2)
      /\ sim_config sim1 = sim_config sim0
      /\ Forall2 (keeps (sim_config sim0)) (sim_agents sim0) (sim_agents sim1).
Proof.
  revert rs sim. induction k as [|k IH]; intros rs sim H r Hr; cbn [stepDays] in H.
  - injection H as <- <-. destruct Hr.
  - destruct (stepDays P ws fuel k sim0) as [[rs1 sim1]| |] eqn:E1; cbn [bind] in H;
      try discriminate.
    destruct (stepDay P (ws k) fuel sim1) as [[r1 sim2]| |] eqn:ES; cbn [bind] in H;
      try discriminate.
    injection H as <- <-. apply in_app_or in Hr. destruct Hr as [Hr | [<- | []]].
    + exact (IH rs1 sim1 eq_refl r Hr).
    + exists (ws k), sim1, sim2. split; [exact ES|].
      pose proof E1 as X. apply stepDays_keeps in X. destruct X as (A & B & _).
      split; [exact B | exact A].
Qed.

(** X30.  In every result of a run no agent takes part in two
    assignments of the day or twice in one, and every participant is an
    agent of the population; when the configuration has a task with the id
    camp_maintenance, every agent takes part in an assignment every day;
    every assignment injures only its own participants and has reward 0 on
    failure. *)
Theorem nobody_works_twice_a_day :
  forall (P : Platform) (ws : nat -> World) (fuel : nat) (config : ScenarioConfig)
         (seed : Z) (k : nat) (rs : list SimulationStepResult) (sim : CooperationSimulation)
         (r : SimulationStepResult),
    run P ws fuel config seed k = Ok (rs, sim) ->
    In r rs ->
    NoDup (workers (assignments r))
    /\ incl (workers (assignments r)) (population (size (agentPopulation config)))
    /\ ((exists task, In task (tasks config) /\ task_id task = "camp_maintenance") ->
        incl (population (size (agentPopulation config))) (workers (assignments r)))
    /\ Forall sound (assignments r).
Proof.
  intros P ws fuel config seed k rs sim r H Hr.
  unfold run, CooperationSimulation_initialize in H.
  destruct (SeasonalEnvironment_initialize config) as [env| |]; cbn [bind] in H;
    try discriminate.
  destruct (initializeAgents_newborn P config (SeededRandom_new seed)) as [B _].
  pose proof (Forall2_ids B) as Hids.
  destruct (initializeAgents P config (SeededRandom_new seed)) as [[agents membership] rng].
  cbn [bind fst] in *.
  destruct (@stepDays_steps _ _ _ _ _ _ _ H r Hr) as (w & sim1 & sim2 & ES & Ec & Ha).
  cbn [sim_config sim_agents] in Ec, Ha.
  apply Forall2_keeps_ids in Ha. rewrite Hids in Ha.
  apply stepDay_assignments in ES. rewrite Ec in ES.
  destruct ES as (rng1 & res & ordered & Hperm & ->).
  assert (Hnd : NoDup (map id (sim_agents sim1))) by (rewrite Ha; apply buildAgentId_NoDup).
  destruct (@assignTasks_digest P config rng1 (sim_agents sim1) res (Some ordered) Hnd)
    as (D1 & D2 & D3 & D4).
  rewrite workers_assigned. unfold population. rewrite <- Ha.
  split; [exact D1 | split; [exact D2 | split ] ].
  - intros (task & Ht & Et) id0 Hid. apply D3; [|exact Hid].
    exists task. split; [right; exact Ht | exact Et].
  - apply Forall_forall. intros a Hin. apply in_map_iff in Hin. destruct Hin as (e & <- & He).
    destruct (D4 e He) as [(C1 & _ & C3) _]. split; [exact C1 | intros Hf; apply C3; exact Hf].
Qed.

Lemma nobody_works_twice_a_day_witness :
  exists rs sim,
    demo_run = Ok (rs, sim)
    /\ forall r, In r rs ->
                 NoDup (workers (assignments r))
                 /\ incl (workers (assignments r)) (population (size (agentPopulation demo))).
Proof.
  destruct demo_run_defined as [rs [sim E]]. exists rs, sim. split; [exact E|].
  intros r Hr.
  destruct (@nobody_works_twice_a_day Ref.platform (fun _ => offline) 50 demo 1 3 rs sim r E Hr)
    as (A & B & _).
  split; [exact A | exact B].
Defined.
